(** * Bridge service: review-session orchestration

    A shallow embedding of the bridge service (the Express application that
    owns the review sessions, drives them through the Council and the
    sandbox, and publishes progress on Socket.IO rooms), with the
    properties of its session lifecycle.

    Conventions of the embedding:
    - JavaScript values that travel as JSON are terms of [JSON]; the value
      [undefined] is [None] in [option JSON];
    - JSON numbers are integers ([Z]), printed with their decimal digits,
      as JavaScript prints the integers below 10^21;
    - every [async] function is a computation in the monad [M]: it threads
      the [World] (the Redis keyspace, the trace of effects, the drivers
      started) and either returns or throws an [Error] whose [message] is
      a string;
    - the collaborators (Council, sandbox), the wall clock and the uuid
      generator are an oracle [Env]; every HTTP call is appended to the
      trace, so that calls can be counted;
    - Redis commands themselves do not fail;
    - the driver is given twice: [processReview] is its run from start to
      end with no other request served in between; [step] is the same
      driver one [await] at a time, so that the requests served between
      two of its awaits can be followed ([play]). The two agree
      ([machine_runs_processReview]). *)

From Stdlib Require Import ZArith List Sorted.
From stdpp Require Import gmap strings list fin_maps pretty.

Local Set Warnings "-register-all".
Local Open Scope string_scope.
Local Open Scope list_scope.
Local Open Scope Z_scope.

(** ** JSON values and the JavaScript operations used on them *)

Inductive JSON : Type :=
| JNull
| JBool (b : bool)
| JNum (n : Z)
| JStr (s : string)
| JArr (items : list JSON)
| JObj (fields : list (string * JSON)).

(** A JavaScript value as the service sees it: [None] is [undefined]. *)
Abbreviation JsVal := (option JSON).

(** Thrown value: every throw in the service is an [Error]; only its
    [message] is ever read. *)
Inductive Result (A : Type) : Type :=
| Ok (a : A)
| Throw (message : string).
Arguments Ok {A} a.
Arguments Throw {A} message.

(** [!v] is [negb (truthy v)]. *)
Definition truthy (v : JsVal) : bool :=
  match v with
  | None | Some JNull | Some (JBool false) => false
  | Some (JNum n) => negb (n =? 0)
  | Some (JStr s) => negb (String.eqb s "")
  | Some _ => true
  end.

Fixpoint assoc (k : string) (l : list (string * JSON)) : JsVal :=
  match l with
  | [] => None
  | (k', v) :: l' => if String.eqb k k' then Some v else assoc k l'
  end.

(** [o.k] where [o] is an object's own (key, value) list; keeps position
    of an existing key, appends a new one. *)
Fixpoint assign (k : string) (v : JSON) (l : list (string * JSON))
  : list (string * JSON) :=
  match l with
  | [] => [(k, v)]
  | (k', v') :: l' =>
      if String.eqb k k' then (k, v) :: l' else (k', v') :: assign k v l'
  end.

Fixpoint unassign (k : string) (l : list (string * JSON))
  : list (string * JSON) :=
  match l with
  | [] => []
  | (k', v') :: l' =>
      if String.eqb k k' then unassign k l' else (k', v') :: unassign k l'
  end.

(** Property read [v.k]: a TypeError on [undefined] and [null]; the keys
    read by the service are no built-in property of a string, a number, a
    boolean or an array, where the read gives [undefined]. *)
Definition prop (v : JsVal) (k : string) : Result JsVal :=
  match v with
  | None =>
      Throw ("Cannot read properties of undefined (reading '" +:+ k +:+ "')")
  | Some JNull =>
      Throw ("Cannot read properties of null (reading '" +:+ k +:+ "')")
  | Some (JObj l) => Ok (assoc k l)
  | Some _ => Ok None
  end.

(** Property write [o.k = x] in a module (strict mode). A property set to
    [undefined] reads back as [undefined], as an absent one does. *)
Definition set_prop (o : JSON) (k : string) (x : JsVal) : Result JSON :=
  match o with
  | JObj l =>
      Ok (JObj (match x with Some v => assign k v l | None => unassign k l end))
  | JArr items => Ok (JArr items)
  | JNull =>
      Throw ("Cannot set properties of null (setting '" +:+ k +:+ "')")
  | _ => Throw ("Cannot create property '" +:+ k +:+ "'")
  end.

(** [const { k = d } = o]: the default replaces [undefined] only. *)
Definition with_default (v : JsVal) (d : JSON) : JSON :=
  match v with Some x => x | None => d end.

(** [v || d]. *)
Definition or_else (v : JsVal) (d : JSON) : JSON :=
  match v with
  | Some x => if truthy v then x else d
  | None => d
  end.

(** [v === 'literal']. *)
Definition is_string (v : JSON) (s : string) : bool :=
  match v with JStr s' => String.eqb s' s | _ => false end.

(** Template-literal conversion [`${v}`]. *)
Fixpoint to_string (v : JSON) : string :=
  match v with
  | JNull => "null"
  | JBool true => "true"
  | JBool false => "false"
  | JNum n => pretty n
  | JStr s => s
  | JArr items =>
      (fix join (l : list JSON) : string :=
         match l with
         | [] => ""
         | [x] => match x with JNull => "" | _ => to_string x end
         | x :: l' =>
             (match x with JNull => "" | _ => to_string x end)
               +:+ "," +:+ join l'
         end) items
  | JObj _ => "[object Object]"
  end.

Definition interpolate (v : JsVal) : string :=
  match v with Some x => to_string x | None => "undefined" end.

Fixpoint indexed (i : nat) (l : list JSON) : list (string * JSON) :=
  match l with
  | [] => []
  | x :: l' => (pretty i, x) :: indexed (S i) l'
  end.

Fixpoint chars (s : string) : list JSON :=
  match s with
  | EmptyString => []
  | String c s' => JStr (String c EmptyString) :: chars s'
  end.

(** Own enumerable properties copied by an object spread [{...v}]. *)
Definition own_entries (v : JsVal) : list (string * JSON) :=
  match v with
  | Some (JObj l) => l
  | Some (JArr items) => indexed 0 items
  | Some (JStr s) => indexed 0 (chars s)
  | _ => []
  end.

(** [{...a, ...b}]. *)
Definition spread (a b : list (string * JSON)) : list (string * JSON) :=
  fold_left (fun acc kv => assign kv.1 kv.2 acc) b a.

(** An object literal; a field whose value is [undefined] disappears when
    the object is serialised. *)
Fixpoint object (l : list (string * JsVal)) : list (string * JSON) :=
  match l with
  | [] => []
  | (k, Some v) :: l' => (k, v) :: object l'
  | (_, None) :: l' => object l'
  end.

(** ** Sessions *)

Inductive Status : Type := pending | analyzing | testing | completed | failed.

#[global] Instance Status_eq_dec : EqDecision Status.
Proof. solve_decision. Defined.

(** The session object kept in Redis. [report] and [error] are absent
    until an update sets them; timestamps are ISO strings. *)
Record Session : Type := mkSession {
  id : string;
  code : JSON;
  language : JSON;
  context : JSON;
  quality_gates : JSON;
  status : Status;
  progress : Z;
  agents : JSON;
  created_at : string;
  updated_at : string;
  report : JsVal;
  error : option string
}.

(** The [updates] argument of [updateSession]: the keys an object literal
    may carry. [report] can be present with the value [undefined]. *)
Record Updates : Type := mkUpdates {
  u_status : option Status;
  u_progress : option Z;
  u_agents : option JSON;
  u_report : option JsVal;
  u_error : option string
}.

Definition over {A : Type} (old : A) (new : option A) : A :=
  match new with Some x => x | None => old end.

(** [{ ...session, ...updates, updated_at: now }]. *)
Definition merged (session : Session) (updates : Updates) (now : string)
  : Session :=
  {| id := id session;
     code := code session;
     language := language session;
     context := context session;
     quality_gates := quality_gates session;
     status := over (status session) (u_status updates);
     progress := over (progress session) (u_progress updates);
     agents := over (agents session) (u_agents updates);
     created_at := created_at session;
     updated_at := now;
     report := over (report session) (u_report updates);
     error := match u_error updates with
              | Some e => Some e
              | None => error session
              end |}.

(** ** The world, its effects and the oracle *)

Inductive Service : Type := Council | Sandbox.

(** Payload of a ['progress'] event. *)
Record ProgressUpdate : Type := mkProgress {
  p_status : Status;
  p_progress : Z;
  p_message : string;
  p_report : JsVal
}.

Inductive Effect : Type :=
| Saved (session : Session)                       (* redis.set *)
| Deleted (key : string)                          (* redis.del *)
| Http (svc : Service) (method url : string) (data : JsVal)
| EmitProgress (room : string) (update : ProgressUpdate)
| EmitError (room : string) (message : string).

Record World : Type := mkWorld {
  redis : gmap string Session;
  clock : nat;                       (* readings of the oracle so far *)
  trace : list Effect;               (* oldest first *)
  background : list string           (* drivers started by [submit] *)
}.

(** What axios gives back: [response.data], or an error with the
    [detail] of the response body (when there is a response) and its own
    message. *)
Inductive Reply : Type :=
| Data (data : JSON)
| AxiosError (detail : JsVal) (message : string).

Record Env : Type := mkEnv {
  now : nat -> string;                             (* new Date().toISOString() *)
  uuidv4 : nat -> string;
  council_api : string -> JSON -> Reply;           (* url, body *)
  sandbox_api : string -> string -> JsVal -> Reply (* method, url, body *)
}.

(** ** The monad of the service's asynchronous functions *)

Definition M (A : Type) : Type := World -> Result A * World.

Definition ret {A : Type} (a : A) : M A := fun w => (Ok a, w).

Definition bind {A B : Type} (m : M A) (k : A -> M B) : M B :=
  fun w =>
    match m w with
    | (Ok a, w') => k a w'
    | (Throw e, w') => (Throw e, w')
    end.

Definition throw {A : Type} (message : string) : M A :=
  fun w => (Throw message, w).

(** [try { body } catch (error) { handler(error.message) }]. *)
Definition try_catch {A : Type} (body : M A) (handler : string -> M A) : M A :=
  fun w =>
    match body w with
    | (Ok a, w') => (Ok a, w')
    | (Throw e, w') => handler e w'
    end.

Definition lift {A : Type} (r : Result A) : M A := fun w => (r, w).

Definition effect (e : Effect) : M unit :=
  fun w => (Ok tt, {| redis := redis w; clock := clock w;
                      trace := trace w ++ [e];
                      background := background w |}).

Declare Scope js_scope.
Delimit Scope js_scope with js.
Notation "x <- m ;; k" := (bind m (fun x => k))
  (at level 100, m at level 20, k at level 200, right associativity)
  : js_scope.
Notation "m ;;; k" := (bind m (fun _ => k))
  (at level 100, k at level 200, right associativity) : js_scope.
Local Open Scope js_scope.

(** ** JavaScript array methods used by the handlers *)

Fixpoint map_result (f : JSON -> Result JSON) (l : list JSON)
  : Result (list JSON) :=
  match l with
  | [] => Ok []
  | x :: l' =>
      match f x with
      | Throw e => Throw e
      | Ok y =>
          match map_result f l' with
          | Throw e => Throw e
          | Ok ys => Ok (y :: ys)
          end
      end
  end.

Fixpoint filter_result (f : JSON -> Result bool) (l : list JSON)
  : Result (list JSON) :=
  match l with
  | [] => Ok []
  | x :: l' =>
      match f x with
      | Throw e => Throw e
      | Ok keep =>
          match filter_result f l' with
          | Throw e => Throw e
          | Ok ys => Ok (if keep then x :: ys else ys)
          end
      end
  end.

Definition as_array (r : Result (list JSON)) : Result JSON :=
  match r with Ok ys => Ok (JArr ys) | Throw e => Throw e end.

(** [v.map(f)]. *)
Definition array_map (v : JsVal) (f : JSON -> Result JSON) : Result JSON :=
  match v with
  | None => Throw "Cannot read properties of undefined (reading 'map')"
  | Some JNull => Throw "Cannot read properties of null (reading 'map')"
  | Some (JArr items) => as_array (map_result f items)
  | Some _ => Throw "map is not a function"
  end.

(** [v.filter(f)]. *)
Definition array_filter (v : JsVal) (f : JSON -> Result bool) : Result JSON :=
  match v with
  | None => Throw "Cannot read properties of undefined (reading 'filter')"
  | Some JNull => Throw "Cannot read properties of null (reading 'filter')"
  | Some (JArr items) => as_array (filter_result f items)
  | Some _ => Throw "filter is not a function"
  end.

(** SameValueZero on values parsed from two different JSON texts: objects
    and arrays are never the same reference. *)
Definition same_value_zero (a : JSON) (b : JsVal) : bool :=
  match a, b with
  | JNull, Some JNull => true
  | JBool x, Some (JBool y) => Bool.eqb x y
  | JNum x, Some (JNum y) => x =? y
  | JStr x, Some (JStr y) => String.eqb x y
  | _, _ => false
  end.

Fixpoint is_substring (needle hay : string) : bool :=
  String.prefix needle hay
  || match hay with
     | EmptyString => false
     | String _ hay' => is_substring needle hay'
     end.

(** [v.includes(x)]: [Array.prototype.includes] on an array,
    [String.prototype.includes] on a string. *)
Definition includes (v : JSON) (x : JsVal) : Result bool :=
  match v with
  | JArr items => Ok (existsb (fun a => same_value_zero a x) items)
  | JStr s => Ok (is_substring (interpolate x) s)
  | JNull => Throw "Cannot read properties of null (reading 'includes')"
  | _ => Throw "includes is not a function"
  end.

Definition status_name (s : Status) : string :=
  match s with
  | pending => "pending"
  | analyzing => "analyzing"
  | testing => "testing"
  | completed => "completed"
  | failed => "failed"
  end.

(** An HTTP response: [res.status(n).json(body)]; [res.json] alone is 200. *)
Record Response : Type := mkResponse {
  http_status : nat;
  body : JSON
}.

(** ** The service *)

Section Bridge.

Variable env : Env.

(** [new Date().toISOString()]. *)
Definition new_date : M string :=
  fun w => (Ok (now env (clock w)),
            {| redis := redis w; clock := S (clock w);
               trace := trace w; background := background w |}).

Definition new_uuid : M string :=
  fun w => (Ok (uuidv4 env (clock w)),
            {| redis := redis w; clock := S (clock w);
               trace := trace w; background := background w |}).

Definition session_key (sessionId : string) : string :=
  "session:" +:+ sessionId.

(** *** Session storage helpers *)

(** [redis.set(key, JSON.stringify(session), 'EX', 3600)]. The expiry of
    the key after an hour is an event of the environment and is not part
    of the model. *)
Definition saveSession (session : Session) : M unit :=
  fun w => (Ok tt,
            {| redis := <[session_key (id session) := session]> (redis w);
               clock := clock w;
               trace := trace w ++ [Saved session];
               background := background w |}).

Definition getSession (sessionId : string) : M (option Session) :=
  fun w => (Ok (redis w !! session_key sessionId), w).

Definition redis_del (key : string) : M unit :=
  fun w => (Ok tt,
            {| redis := delete key (redis w);
               clock := clock w;
               trace := trace w ++ [Deleted key];
               background := background w |}).

Definition updateSession (sessionId : string) (updates : Updates)
  : M Session :=
  session <- getSession sessionId ;;
  match session with
  | None => throw "Session not found"
  | Some session =>
      stamp <- new_date ;;
      let updated := merged session updates stamp in
      saveSession updated ;;;
      ret updated
  end.

(** *** Collaborator helpers *)

Definition service_error (detail : JsVal) (message : string) : string :=
  if truthy detail then interpolate detail else message.

Definition callCouncil (endpoint : string) (data : JSON) : M JSON :=
  effect (Http Council "POST" endpoint (Some data)) ;;;
  match council_api env endpoint data with
  | Data d => ret d
  | AxiosError detail message =>
      throw ("Council service error: " +:+ service_error detail message)
  end.

Definition callSandbox (endpoint method : string) (data : JsVal) : M JSON :=
  let sent := if truthy data then data else None in
  effect (Http Sandbox method endpoint sent) ;;;
  match sandbox_api env method endpoint sent with
  | Data d => ret d
  | AxiosError detail message =>
      throw ("Sandbox service error: " +:+ service_error detail message)
  end.

Definition emitProgress (sessionId : string) (update : ProgressUpdate)
  : M unit :=
  effect (EmitProgress sessionId update).

(** *** Background review processor *)

(** The object literals passed to [updateSession]. *)
Definition to_analyzing : Updates :=
  {| u_status := Some analyzing; u_progress := Some 10; u_agents := None;
     u_report := None; u_error := None |}.

Definition to_testing (response_agents : JsVal) : Updates :=
  {| u_status := Some testing; u_progress := Some 60;
     u_agents := Some (or_else response_agents (JArr []));
     u_report := None; u_error := None |}.

Definition to_completed (final_report : JsVal) : Updates :=
  {| u_status := Some completed; u_progress := Some 100; u_agents := None;
     u_report := Some final_report; u_error := None |}.

Definition to_failed (message : string) : Updates :=
  {| u_status := Some failed; u_progress := None; u_agents := None;
     u_report := None; u_error := Some message |}.

(** The body of the [/sandbox/create] request. *)
Definition sandbox_config (session : Session) : JSON :=
  JObj [("environment",
         JStr (if is_string (language session) "python"
               then "python-3.11" else "nodejs-18"));
        ("timeout", JNum 1800)].

Definition testFiles (code_files test_files : JsVal)
  : list (string * JSON) :=
  spread (own_entries code_files) (own_entries test_files).

Definition testCommands (session : Session) : list JSON :=
  if is_string (language session) "python"
  then [JStr "pip install -r requirements.txt"; JStr "pytest"]
  else [JStr "npm install"; JStr "npm test"].

(** The body of the [/sandbox/:id/execute] request. *)
Definition test_run (session : Session) (code_files test_files : JsVal)
  : JSON :=
  JObj [("files", JObj (testFiles code_files test_files));
        ("commands", JArr (testCommands session));
        ("timeout", JNum 300)].

(** The body of the inner [try] of [processReview]: create the sandbox,
    run the tests, delete the sandbox, keep the results. The DELETE call
    is made without a body ([data] defaults to [null]). *)
Definition run_tests (session : Session) (councilResponse : JSON) : M JSON :=
  sandbox <- callSandbox "/sandbox/create" "POST"
               (Some (sandbox_config session)) ;;
  sandboxId <- lift (prop (Some sandbox) "sandbox_id") ;;
  code_files <- lift (prop (Some councilResponse) "code_files") ;;
  test_files <- lift (prop (Some councilResponse) "test_files") ;;
  testResult <- callSandbox
    ("/sandbox/" +:+ interpolate sandboxId +:+ "/execute") "POST"
    (Some (test_run session code_files test_files)) ;;
  callSandbox ("/sandbox/" +:+ interpolate sandboxId) "DELETE" (Some JNull) ;;;
  results <- lift (prop (Some testResult) "results") ;;
  lift (set_prop councilResponse "test_results" results).

(** The [catch (sandboxError)] of the inner [try]. *)
Definition on_sandbox_error (councilResponse : JSON) (message : string)
  : M JSON :=
  lift (set_prop councilResponse "test_results"
          (Some (JObj [("error", JStr message)]))).

(** The [catch (error)] of [processReview]. *)
Definition on_review_error (sessionId : string) (message : string) : M unit :=
  updateSession sessionId (to_failed message) ;;;
  effect (EmitError sessionId message).

Definition councilRequest (session : Session) : JSON :=
  JObj [("code", code session);
        ("language", language session);
        ("context", context session);
        ("quality_gates", quality_gates session)].

Definition processReview (sessionId : string) : M unit :=
  try_catch
    (session <- getSession sessionId ;;
     match session with
     | None => ret tt
     | Some session =>
         updateSession sessionId to_analyzing ;;;
         emitProgress sessionId
           (mkProgress analyzing 10 "Starting review..." None) ;;;
         emitProgress sessionId
           (mkProgress analyzing 20 "Sending to Council agents..." None) ;;;
         councilResponse <-
           callCouncil "/council/review" (councilRequest session) ;;
         response_agents <- lift (prop (Some councilResponse) "agents") ;;
         updateSession sessionId (to_testing response_agents) ;;;
         emitProgress sessionId
           (mkProgress testing 60 "Running tests in sandbox..." None) ;;;
         test_code <- lift (prop (Some councilResponse) "test_code") ;;
         councilResponse <-
           (if truthy test_code
            then try_catch (run_tests session councilResponse)
                           (on_sandbox_error councilResponse)
            else ret councilResponse) ;;
         final_report <- lift (prop (Some councilResponse) "report") ;;
         updateSession sessionId (to_completed final_report) ;;;
         emitProgress sessionId
           (mkProgress completed 100 "Review complete!" final_report)
     end)
    (on_review_error sessionId).

(** *** API routes *)

Definition respond (n : nat) (fields : list (string * JsVal)) : M Response :=
  ret {| http_status := n; body := JObj (object fields) |}.

(** [processReview(sessionId).catch(...)]: the driver is started and the
    handler goes on without awaiting it. The driver has then issued its
    first read; how it advances from there is given by [processReview]
    when no other request is served in between, and by [step], one
    [await] at a time, when other requests are. *)
Definition spawn (sessionId : string) : M unit :=
  fun w => (Ok tt,
            {| redis := redis w; clock := clock w; trace := trace w;
               background := background w ++ [sessionId] |}).

(** POST /api/v1/review/submit *)
Definition submit (req_body : JsVal) : M Response :=
  try_catch
    (code <- lift (prop req_body "code") ;;
     language <- lift (prop req_body "language") ;;
     context <- lift (prop req_body "context") ;;
     quality_gates <- lift (prop req_body "quality_gates") ;;
     let language := with_default language (JStr "javascript") in
     let context := with_default context (JStr "") in
     let quality_gates :=
       with_default quality_gates
         (JArr [JStr "qa"; JStr "security"; JStr "performance"]) in
     match code with
     | Some code' =>
         if negb (truthy code)
         then respond 400 [("error", Some (JStr "Code is required"))]
         else
           uuid <- new_uuid ;;
           let sessionId := "rev-" +:+ uuid in
           created <- new_date ;;
           updated <- new_date ;;
           let session :=
             {| id := sessionId;
                code := code';
                language := language;
                context := context;
                quality_gates := quality_gates;
                status := pending;
                progress := 0;
                agents := JArr [];
                created_at := created;
                updated_at := updated;
                report := None;
                error := None |} in
           saveSession session ;;;
           spawn sessionId ;;;
           respond 200 [("session_id", Some (JStr sessionId));
                        ("status", Some (JStr "pending"));
                        ("message", Some (JStr "Review started"))]
     | None => respond 400 [("error", Some (JStr "Code is required"))]
     end)
    (fun message => respond 500 [("error", Some (JStr message))]).

(** GET /api/v1/review/:sessionId/status *)
Definition get_status (sessionId : string) : M Response :=
  try_catch
    (session <- getSession sessionId ;;
     match session with
     | None => respond 404 [("error", Some (JStr "Session not found"))]
     | Some session =>
         listed <- lift (array_map (Some (agents session))
           (fun agent =>
              match prop (Some agent) "name",
                    prop (Some agent) "status",
                    prop (Some agent) "score" with
              | Ok name, Ok state, Ok score =>
                  Ok (JObj (object [("name", name); ("status", state);
                                    ("score", score)]))
              | Throw e, _, _ | _, Throw e, _ | _, _, Throw e => Throw e
              end)) ;;
         respond 200 [("session_id", Some (JStr (id session)));
                      ("status", Some (JStr (status_name (status session))));
                      ("progress", Some (JNum (progress session)));
                      ("agents", Some listed)]
     end)
    (fun message => respond 500 [("error", Some (JStr message))]).

(** POST /api/v1/review/:sessionId/fix *)
Definition fix_review (sessionId : string) (req_body : JsVal) : M Response :=
  try_catch
    (fix_priorities <- lift (prop req_body "fix_priorities") ;;
     let fix_priorities :=
       with_default fix_priorities (JArr [JStr "critical"; JStr "high"]) in
     session <- getSession sessionId ;;
     match session with
     | None => respond 404 [("error", Some (JStr "Session not found"))]
     | Some session =>
         if negb (truthy (report session))
         then respond 400 [("error", Some (JStr "No report available"))]
         else
           priority_fixes <- lift (prop (report session) "priority_fixes") ;;
           findings <- lift (array_filter priority_fixes
             (fun f =>
                match prop (Some f) "severity" with
                | Ok severity => includes fix_priorities severity
                | Throw e => Throw e
                end)) ;;
           fixResponse <- callCouncil "/council/fix"
             (JObj [("code", code session);
                    ("language", language session);
                    ("findings", findings)]) ;;
           fixes_applied <- lift (prop (Some fixResponse) "fixes_applied") ;;
           fixed_code <- lift (prop (Some fixResponse) "fixed_code") ;;
           changes <- lift (prop (Some fixResponse) "changes") ;;
           needs_review <- lift (prop (Some fixResponse) "needs_review") ;;
           respond 200 [("session_id", Some (JStr sessionId));
                        ("fixes_applied", fixes_applied);
                        ("fixed_code", fixed_code);
                        ("changes", changes);
                        ("language", Some (language session));
                        ("needs_review", needs_review)]
     end)
    (fun message => respond 500 [("error", Some (JStr message))]).

(** DELETE /api/v1/review/:sessionId *)
Definition delete_review (sessionId : string) : M Response :=
  try_catch
    (redis_del (session_key sessionId) ;;;
     respond 200 [("message", Some (JStr "Session deleted"))])
    (fun message => respond 500 [("error", Some (JStr message))]).

(** *** Scheduling of the background drivers *)

(** A driver's rejection is logged by the [.catch] of [submit] and goes
    no further. *)
Definition detached (job : M unit) : M unit :=
  fun w => (Ok tt, (job w).2).

Fixpoint run_all (jobs : list string) : M unit :=
  match jobs with
  | [] => ret tt
  | sessionId :: rest => detached (processReview sessionId) ;;; run_all rest
  end.

(** Run every driver started so far, to its end. *)
Definition run_background : M unit :=
  fun w =>
    run_all (background w)
      {| redis := redis w; clock := clock w; trace := trace w;
         background := [] |}.

End Bridge.

(** ** Observations on a trace *)

(** The successive values written to Redis for one session. *)
Fixpoint saved_sessions (sessionId : string) (tr : list Effect)
  : list Session :=
  match tr with
  | [] => []
  | Saved s :: tr' =>
      if String.eqb (id s) sessionId
      then s :: saved_sessions sessionId tr'
      else saved_sessions sessionId tr'
  | _ :: tr' => saved_sessions sessionId tr'
  end.

Definition stored_statuses (sessionId : string) (tr : list Effect)
  : list Status :=
  map status (saved_sessions sessionId tr).

Definition stored_progress (sessionId : string) (tr : list Effect) : list Z :=
  map progress (saved_sessions sessionId tr).

(** The ['progress'] events published to a room, in publish order. *)
Fixpoint published (room : string) (tr : list Effect) : list ProgressUpdate :=
  match tr with
  | [] => []
  | EmitProgress r u :: tr' =>
      if String.eqb r room then u :: published room tr' else published room tr'
  | _ :: tr' => published room tr'
  end.

(** The ['error'] events published to a room. *)
Fixpoint published_errors (room : string) (tr : list Effect) : list string :=
  match tr with
  | [] => []
  | EmitError r m :: tr' =>
      if String.eqb r room
      then m :: published_errors room tr'
      else published_errors room tr'
  | _ :: tr' => published_errors room tr'
  end.

(** The calls made to the sandbox service: (method, url). *)
Fixpoint sandbox_calls (tr : list Effect) : list (string * string) :=
  match tr with
  | [] => []
  | Http Sandbox method url _ :: tr' => (method, url) :: sandbox_calls tr'
  | _ :: tr' => sandbox_calls tr'
  end.

(** How many times the sandbox at [url] was deleted. *)
Definition releases (url : string) (tr : list Effect) : nat :=
  length (filter (fun c => c = ("DELETE", url)) (sandbox_calls tr)).

Definition in_percent_range (p : Z) : Prop := 0 <= p <= 100.

(** The status code of a handler's answer. *)
Definition answer_code (r : Result Response * World) : option nat :=
  match r.1 with
  | Ok a => Some (http_status a)
  | Throw _ => None
  end.

(** [d.k] on a value that is neither [null] nor [undefined]. *)
Definition own_prop (d : JSON) (k : string) : JsVal :=
  match d with JObj l => assoc k l | _ => None end.

(** Whether a finding's severity is among the requested priorities. *)
Definition requested (priorities : list JSON) (finding : JSON) : bool :=
  existsb (fun p => same_value_zero p (own_prop finding "severity"))
          priorities.

(** The successive sessions a driver writes, from the stored [session]
    and the readings [t0], [t1], [t2] of the clock. *)
Definition analyzing_of (session : Session) (t0 : string) : Session :=
  merged session to_analyzing t0.

Definition failed_of (session : Session) (cause t0 t1 : string) : Session :=
  merged (analyzing_of session t0) (to_failed cause) t1.

Definition testing_of (session : Session) (response_agents : JsVal)
    (t0 t1 : string) : Session :=
  merged (analyzing_of session t0) (to_testing response_agents) t1.

Definition completed_of (session : Session) (response_agents : JsVal)
    (final_report : JsVal) (t0 t1 t2 : string) : Session :=
  merged (testing_of session response_agents t0 t1)
         (to_completed final_report) t2.

(** The world after some more effects, nothing else changed. *)
Definition log (w : World) (evs : list Effect) : World :=
  {| redis := redis w; clock := clock w; trace := trace w ++ evs;
     background := background w |}.

(** The answers of [delete_review], and of a handler that does not find
    the session. *)
Definition deleted_ack : Response :=
  {| http_status := 200; body := JObj [("message", JStr "Session deleted")] |}.

Definition not_found : Response :=
  {| http_status := 404; body := JObj [("error", JStr "Session not found")] |}.

Definition code_required : Response :=
  {| http_status := 400; body := JObj [("error", JStr "Code is required")] |}.

Definition no_report : Response :=
  {| http_status := 400;
     body := JObj [("error", JStr "No report available")] |}.

(** The default of [quality_gates] in [submit]. *)
Definition default_gates : JSON :=
  JArr [JStr "qa"; JStr "security"; JStr "performance"].

(** The session object that [submit] builds from a request body whose
    [code] is [code'], in the world [w]. *)
Definition submitted (env : Env) (req_body : JsVal) (code' : JSON) (w : World)
  : Session :=
  {| id := "rev-" +:+ uuidv4 env (clock w);
     code := code';
     language := match prop req_body "language" with
                 | Ok v => with_default v (JStr "javascript")
                 | Throw _ => JStr "javascript"
                 end;
     context := match prop req_body "context" with
                | Ok v => with_default v (JStr "")
                | Throw _ => JStr ""
                end;
     quality_gates := match prop req_body "quality_gates" with
                      | Ok v => with_default v default_gates
                      | Throw _ => default_gates
                      end;
     status := pending;
     progress := 0;
     agents := JArr [];
     created_at := now env (S (clock w));
     updated_at := now env (S (S (clock w)));
     report := None;
     error := None |}.

(** The two events published before the Council is called. *)
Definition started (sessionId : string) : list Effect :=
  [EmitProgress sessionId (mkProgress analyzing 10 "Starting review..." None);
   EmitProgress sessionId
     (mkProgress analyzing 20 "Sending to Council agents..." None)].

(** The world after [updateSession] has written [session]. *)
Definition after_update (w : World) (session : Session) : World :=
  {| redis := <[session_key (id session) := session]> (redis w);
     clock := S (clock w);
     trace := trace w ++ [Saved session];
     background := background w |}.

(** Effects of the sandbox client alone. *)
Definition sandbox_only (evs : list Effect) : Prop :=
  Forall (fun e => match e with Http Sandbox _ _ _ => True | _ => False end)
         evs.

(** ** Concrete collaborators, used to run the service *)

Module Scenario.

Definition iso (n : nat) : string :=
  "2025-12-31T10:00:" +:+ (if (n <? 10)%nat then "0" else "") +:+ pretty n
  +:+ ".000Z".

Definition uuid (_ : nat) : string := "1b9d6bcd-bbfd-4b2d-9b5d-ab8dfbbd4bed".

Definition sid : string := "rev-1b9d6bcd-bbfd-4b2d-9b5d-ab8dfbbd4bed".

Definition security_report : JSON :=
  JObj [("overall_score", JNum 40);
        ("priority_fixes",
         JArr [JObj [("severity", JStr "critical");
                     ("title", JStr "SQL injection")];
               JObj [("severity", JStr "low");
                     ("title", JStr "Unused variable")]])].

(** The Council answers a review with one agent, a report and no tests. *)
Definition review_without_tests : JSON :=
  JObj [("agents", JArr [JObj [("name", JStr "security");
                               ("status", JStr "completed");
                               ("score", JNum 40)]]);
        ("report", security_report)].

(** The Council answers with generated tests. *)
Definition review_with_tests : JSON :=
  JObj [("agents", JArr [JObj [("name", JStr "qa");
                               ("status", JStr "completed");
                               ("score", JNum 80)]]);
        ("test_code", JStr "test('adds', () => expect(add(1, 2)).toBe(3))");
        ("test_files", JObj [("add.test.js", JStr "test('adds', ...)")]);
        ("report", security_report)].

(** The Council answers with neither agents nor report. *)
Definition review_empty : JSON := JObj [].

Definition council_replies (review : JSON) (endpoint : string) (_ : JSON)
  : Reply :=
  if String.eqb endpoint "/council/review" then Data review
  else if String.eqb endpoint "/council/fix"
  then Data (JObj [("fixes_applied", JNum 1);
                   ("fixed_code", JStr "db.query(sql, [id])");
                   ("changes", JArr [JStr "parameterised the query"]);
                   ("needs_review", JBool false)])
  else AxiosError None "Request failed with status code 404".

(** A sandbox service that works. *)
Definition sandbox_up (method url : string) (_ : JsVal) : Reply :=
  if String.eqb url "/sandbox/create"
  then Data (JObj [("sandbox_id", JStr "sb-123")])
  else if String.eqb method "DELETE"
  then Data (JObj [("status", JStr "destroyed")])
  else Data (JObj [("results", JObj [("passed", JNum 1); ("failed", JNum 0)])]).

(** A sandbox service that creates the sandbox and then times out on the
    test run. *)
Definition sandbox_run_times_out (method url : string) (_ : JsVal) : Reply :=
  if String.eqb url "/sandbox/create"
  then Data (JObj [("sandbox_id", JStr "sb-123")])
  else if String.eqb method "DELETE"
  then Data (JObj [("status", JStr "destroyed")])
  else AxiosError None "timeout of 180000ms exceeded".

(** A sandbox service that cannot be reached. *)
Definition sandbox_down (_ _ : string) (_ : JsVal) : Reply :=
  AxiosError None "connect ECONNREFUSED 127.0.0.1:8003".

Definition env_of (review : JSON)
    (sandbox : string -> string -> JsVal -> Reply) : Env :=
  {| now := iso; uuidv4 := uuid;
     council_api := council_replies review;
     sandbox_api := sandbox |}.

Definition boot : World :=
  {| redis := ∅; clock := 0; trace := []; background := [] |}.

Definition source : JSON :=
  JStr "db.query('select * from t where id=' + id)".

Definition request (gates : JSON) : JsVal :=
  Some (JObj [("code", source);
              ("language", JStr "javascript");
              ("quality_gates", gates)]).

Definition security_request : JsVal := request (JArr [JStr "security"]).

(** The Council produces no tests. *)
Definition no_tests : Env := env_of review_without_tests sandbox_up.

(** The Council produces tests and the sandbox works. *)
Definition tests_pass : Env := env_of review_with_tests sandbox_up.

(** The Council produces tests and the test run times out. *)
Definition tests_time_out : Env :=
  env_of review_with_tests sandbox_run_times_out.

(** The Council produces tests and the sandbox service is down. *)
Definition sandbox_unreachable : Env := env_of review_with_tests sandbox_down.

(** The Council answers with an empty object. *)
Definition hollow_review : Env := env_of review_empty sandbox_up.

(** Submit on a fresh server, then let the driver run to its end. *)
Definition lifetime (e : Env) (req : JsVal) : World :=
  (run_background e (submit e req boot).2).2.

End Scenario.


(** ** The other routes of the service *)

Section Routes.

Variable env : Env.

(** GET /api/v1/review/:sessionId/report *)
Definition get_report (sessionId : string) : M Response :=
  try_catch
    (session <- getSession sessionId ;;
     match session with
     | None => respond 404 [("error", Some (JStr "Session not found"))]
     | Some session =>
         if negb (bool_decide (status session = completed))
         then respond 400 [("error", Some (JStr "Review not completed yet"))]
         else respond 200 [("session_id", Some (JStr (id session)));
                           ("report", report session)]
     end)
    (fun message => respond 500 [("error", Some (JStr message))]).

(** POST /api/v1/scan/security *)
Definition scan_security (req_body : JsVal) : M Response :=
  try_catch
    (code <- lift (prop req_body "code") ;;
     language <- lift (prop req_body "language") ;;
     let language := with_default language (JStr "javascript") in
     match code with
     | Some code' =>
         if negb (truthy code)
         then respond 400 [("error", Some (JStr "Code is required"))]
         else
           scanResult <- callCouncil env "/council/security"
             (JObj [("code", code'); ("language", language)]) ;;
           findings <- lift (prop (Some scanResult) "findings") ;;
           respond 200 [("findings", Some (or_else findings (JArr [])))]
     | None => respond 400 [("error", Some (JStr "Code is required"))]
     end)
    (fun message => respond 500 [("error", Some (JStr message))]).

(** POST /api/v1/scan/performance *)
Definition scan_performance (req_body : JsVal) : M Response :=
  try_catch
    (code <- lift (prop req_body "code") ;;
     language <- lift (prop req_body "language") ;;
     let language := with_default language (JStr "javascript") in
     match code with
     | Some code' =>
         if negb (truthy code)
         then respond 400 [("error", Some (JStr "Code is required"))]
         else
           scanResult <- callCouncil env "/council/performance"
             (JObj [("code", code'); ("language", language)]) ;;
           findings <- lift (prop (Some scanResult) "findings") ;;
           benchmarks <- lift (prop (Some scanResult) "benchmarks") ;;
           respond 200 [("findings", Some (or_else findings (JArr [])));
                        ("benchmarks", Some (or_else benchmarks (JObj [])))]
     | None => respond 400 [("error", Some (JStr "Code is required"))]
     end)
    (fun message => respond 500 [("error", Some (JStr message))]).

(** POST /api/v1/generate/tests *)
Definition generate_tests (req_body : JsVal) : M Response :=
  try_catch
    (code <- lift (prop req_body "code") ;;
     language <- lift (prop req_body "language") ;;
     test_framework <- lift (prop req_body "test_framework") ;;
     let language := with_default language (JStr "javascript") in
     let test_framework := with_default test_framework (JStr "jest") in
     match code with
     | Some code' =>
         if negb (truthy code)
         then respond 400 [("error", Some (JStr "Code is required"))]
         else
           testResult <- callCouncil env "/council/qa/generate-tests"
             (JObj [("code", code'); ("language", language);
                    ("test_framework", test_framework)]) ;;
           test_code <- lift (prop (Some testResult) "test_code") ;;
           test_count <- lift (prop (Some testResult) "test_count") ;;
           test_cases <- lift (prop (Some testResult) "test_cases") ;;
           coverage <- lift (prop (Some testResult) "coverage") ;;
           respond 200 [("test_code", test_code);
                        ("test_count", test_count);
                        ("test_cases", test_cases);
                        ("coverage", coverage)]
     | None => respond 400 [("error", Some (JStr "Code is required"))]
     end)
    (fun message => respond 500 [("error", Some (JStr message))]).

End Routes.

(** ** More observations *)

(** The calls made to the Council: (url, body). *)
Fixpoint council_calls (tr : list Effect) : list (string * JsVal) :=
  match tr with
  | [] => []
  | Http Council _ url data :: tr' => (url, data) :: council_calls tr'
  | _ :: tr' => council_calls tr'
  end.

(** Every session is stored under the key of its own id. *)
Definition well_keyed (w : World) : Prop :=
  map_Forall (fun key session => key = session_key (id session)) (redis w).

(** A session that has reached an end of the state machine. *)
Definition terminal (s : Status) : bool :=
  match s with
  | completed | failed => true
  | _ => false
  end.

(** What the status route shows of one agent. *)
Definition listed_agent (agent : JSON) : JSON :=
  JObj (object [("name", own_prop agent "name");
                ("status", own_prop agent "status");
                ("score", own_prop agent "score")]).

Definition not_completed_yet : Response :=
  {| http_status := 400;
     body := JObj [("error", JStr "Review not completed yet")] |}.

(** The URLs of the three calls of the execution phase for a sandbox id. *)
Definition phase_calls (sandboxId : JsVal) : list (string * string) :=
  [("POST", "/sandbox/create");
   ("POST", "/sandbox/" +:+ interpolate sandboxId +:+ "/execute");
   ("DELETE", "/sandbox/" +:+ interpolate sandboxId)].

(** [sandbox.sandbox_id] of the answer to [/sandbox/create]: [None] when
    the creation failed or the read throws (the answer is [null]). *)
Definition created_id (r : Reply) : option JsVal :=
  match r with
  | Data sandbox =>
      match prop (Some sandbox) "sandbox_id" with
      | Ok sandboxId => Some sandboxId
      | Throw _ => None
      end
  | AxiosError _ _ => None
  end.

(** The calls the execution phase can make, in order, given the answer to
    the creation. *)
Definition calls_after (r : Reply) : list (string * string) :=
  match created_id r with
  | Some sandboxId => phase_calls sandboxId
  | None => [("POST", "/sandbox/create")]
  end.

(** The bodies the scan routes send to the Council for a request body
    whose [code] is [code']. *)
Definition scan_request (req_body : JsVal) (code' : JSON) : JSON :=
  JObj [("code", code');
        ("language", match prop req_body "language" with
                     | Ok v => with_default v (JStr "javascript")
                     | Throw _ => JStr "javascript"
                     end)].

Definition tests_request (req_body : JsVal) (code' : JSON) : JSON :=
  JObj [("code", code');
        ("language", match prop req_body "language" with
                     | Ok v => with_default v (JStr "javascript")
                     | Throw _ => JStr "javascript"
                     end);
        ("test_framework", match prop req_body "test_framework" with
                           | Ok v => with_default v (JStr "jest")
                           | Throw _ => JStr "jest"
                           end)].

(** The answer of a route whose handler caught [message]. *)
Definition server_error (message : string) : Response :=
  {| http_status := 500; body := JObj [("error", JStr message)] |}.

(** The message of the error thrown by [callCouncil] on a failed call. *)
Definition council_error (detail : JsVal) (message : string) : string :=
  "Council service error: " +:+ service_error detail message.

(** The callback of [session.agents.map] in the status route. *)
Definition list_agent (agent : JSON) : Result JSON :=
  match prop (Some agent) "name",
        prop (Some agent) "status",
        prop (Some agent) "score" with
  | Ok name, Ok state, Ok score =>
      Ok (JObj (object [("name", name); ("status", state);
                        ("score", score)]))
  | Throw e, _, _ | _, Throw e, _ | _, _, Throw e => Throw e
  end.

(** Two values of a session that differ at most in [updated_at]. *)
Definition same_but_stamp (s s' : Session) : Prop :=
  id s = id s' /\ code s = code s' /\ language s = language s'
  /\ context s = context s' /\ quality_gates s = quality_gates s'
  /\ status s = status s' /\ progress s = progress s'
  /\ agents s = agents s' /\ created_at s = created_at s'
  /\ report s = report s' /\ error s = error s'.

(** ** More concrete collaborators *)

Module Probe.

(** A Council that answers the three stateless endpoints. *)
Definition council_scans (endpoint : string) (_ : JSON) : Reply :=
  if String.eqb endpoint "/council/security"
  then Data (JObj [("findings",
                    JArr [JObj [("type", JStr "xss");
                                ("severity", JStr "high")]]);
                   ("model", JStr "internal")])
  else if String.eqb endpoint "/council/performance"
  then Data (JObj [])
  else if String.eqb endpoint "/council/qa/generate-tests"
  then Data (JObj [("test_code", JStr "test('adds', ...)");
                   ("test_count", JNum 1);
                   ("prompt", JStr "internal")])
  else AxiosError None "Request failed with status code 404".

Definition scanner : Env :=
  {| now := Scenario.iso; uuidv4 := Scenario.uuid;
     council_api := council_scans;
     sandbox_api := Scenario.sandbox_down |}.

Definition code_only : JsVal := Some (JObj [("code", Scenario.source)]).

Definition no_code : JsVal := Some (JObj [("language", JStr "python")]).

(** A Council whose review has [agents] that are no list and a report
    without [priority_fixes]. *)
Definition review_loose : JSON :=
  JObj [("agents", JStr "none");
        ("report", JObj [("overall_score", JNum 90)])].

Definition loose : Env :=
  Scenario.env_of review_loose Scenario.sandbox_up.

(** A sandbox service whose answers carry no [sandbox_id]. *)
Definition sandbox_without_id (_ _ : string) (_ : JsVal) : Reply :=
  Data (JObj [("status", JStr "ok")]).

Definition no_sandbox_id : Env :=
  Scenario.env_of Scenario.review_with_tests sandbox_without_id.

(** A Council that does not answer in time. *)
Definition council_down : Env :=
  {| now := Scenario.iso; uuidv4 := Scenario.uuid;
     council_api := fun _ _ =>
       AxiosError None "timeout of 120000ms exceeded";
     sandbox_api := Scenario.sandbox_up |}.

(** A uuid generator that gives a new id at every reading. *)
Definition fresh : Env :=
  {| now := Scenario.iso;
     uuidv4 := fun n => "0000-" +:+ pretty n;
     council_api := Scenario.council_replies Scenario.review_with_tests;
     sandbox_api := Scenario.sandbox_up |}.

(** Two sessions submitted one after the other, no driver run yet. *)
Definition two_sessions : World :=
  (submit fresh Scenario.security_request
     (submit fresh Scenario.security_request Scenario.boot).2).2.

Definition first_id : string := "rev-0000-0".
Definition second_id : string := "rev-0000-3".

(** The world of [Scenario] right after the submission. *)
Definition submitted_world (e : Env) : World :=
  (submit e Scenario.security_request Scenario.boot).2.

Definition submitted_session (e : Env) : Session :=
  submitted e Scenario.security_request Scenario.source Scenario.boot.

(** The events a driver adds to the trace of the submitted world. *)
Definition run_events (e : Env) : list Effect :=
  drop 1 (trace (processReview e Scenario.sid (submitted_world e)).2).

End Probe.

(** ** The MCP server: the tool that submits to the bridge *)

Module Mcp.

(** A request made to the bridge. *)
Record Call : Type := mkCall {
  c_method : string;
  c_url : string;
  c_data : JsVal
}.

(** The tools thread the list of requests made so far and return or
    throw. *)
Definition T (A : Type) : Type := list Call -> Result A * list Call.

Definition tret {A : Type} (a : A) : T A := fun calls => (Ok a, calls).

Definition tbind {A B : Type} (m : T A) (k : A -> T B) : T B :=
  fun calls =>
    match m calls with
    | (Ok a, calls') => k a calls'
    | (Throw e, calls') => (Throw e, calls')
    end.

Definition tlift {A : Type} (r : Result A) : T A := fun calls => (r, calls).

Section Tools.

(** What axios gives back for a request to the bridge: method, url,
    body. *)
Variable bridge_api : string -> string -> JsVal -> Reply.

(** [JSON.stringify(value, null, 2)]. *)
Variable stringify : JSON -> string.

Definition callBridge (endpoint method : string) (data : JsVal) : T JSON :=
  fun calls =>
    let sent := if truthy data then data else None in
    (match bridge_api method endpoint sent with
     | Data d => Ok d
     | AxiosError detail message =>
         Throw ("Bridge API error: " +:+ service_error detail message)
     end,
     calls ++ [mkCall method endpoint sent]).

(** The body of the request of [submitCodeForReview]. *)
Definition submission (code language context quality_gates : JsVal) : JSON :=
  JObj (object
    [("code", code);
     ("language", Some (or_else language (JStr "javascript")));
     ("context", Some (or_else context (JStr "")));
     ("quality_gates",
      Some (or_else quality_gates
              (JArr [JStr "security"; JStr "qa"; JStr "performance"])))]).

(** Tool 1: submit code for review. *)
Definition submitCodeForReview (args : JsVal) : T JSON :=
  tbind (tlift (prop args "code")) (fun code =>
  tbind (tlift (prop args "language")) (fun language =>
  tbind (tlift (prop args "context")) (fun context =>
  tbind (tlift (prop args "quality_gates")) (fun quality_gates =>
  tbind (callBridge "/api/v1/review/submit" "POST"
           (Some (submission code language context quality_gates)))
    (fun response =>
  tbind (tlift (prop (Some response) "session_id")) (fun session_id =>
  tbind (tlift (prop (Some response) "status")) (fun status =>
  tret (JObj [("content",
               JArr [JObj [("type", JStr "text");
                           ("text",
                            JStr (stringify (JObj (object
                              [("session_id", session_id);
                               ("status", status);
                               ("message",
                                Some (JStr ("Code review started. Session ID: "
                                            +:+ interpolate session_id)));
                               ("next_step",
                                Some (JStr
                                  "Use get_review_status to check progress"))
                              ]))))]])])))))))).

End Tools.

End Mcp.

(** ** The driver, one await at a time *)

(** [processReview] is an [async] function: it runs up to its next
    [await], and the other handlers are served while the awaited command
    is pending. The driver is therefore also given as a machine whose
    states are the awaits of [processReview] and of the [updateSession]
    it awaits. A step of the machine is the awaited command taking
    effect (a call to a collaborator enters the trace when it is
    answered), followed by the code that runs up to the next await. *)

(** The call of [updateSession] the driver is in. *)
Inductive Update : Type :=
| ToAnalyzing (session : Session)
| ToTesting (session : Session) (councilResponse : JSON)
            (response_agents : JsVal)
| ToCompleted (final_report : JsVal)
| ToFailed (message : string).                 (* in the [catch] *)

(** The command the driver awaits. *)
Inductive Stage : Type :=
| FirstRead                                    (* getSession, in the try *)
| UpdateRead (u : Update)                      (* getSession in updateSession *)
| UpdateWrite (u : Update) (updated : Session) (* saveSession, likewise *)
| CouncilCall (session : Session)              (* /council/review *)
| SandboxCreate (session : Session) (councilResponse : JSON)
| SandboxExecute (councilResponse : JSON) (sandboxId : JsVal) (run : JSON)
| SandboxDelete (councilResponse : JSON) (sandboxId : JsVal)
                (testResult : JSON)
| Finished (outcome : Result unit).            (* the promise is settled *)

(** What another request can do between two steps of a driver. *)
Inductive Action : Type :=
| Tick                      (* the command the driver awaits completes *)
| Delete.                   (* DELETE on the driver's session is served *)

Section Machine.

Variable env : Env.

Definition updates_of (u : Update) : Updates :=
  match u with
  | ToAnalyzing _ => to_analyzing
  | ToTesting _ _ response_agents => to_testing response_agents
  | ToCompleted final_report => to_completed final_report
  | ToFailed message => to_failed message
  end.

(** The last [updateSession] of the [try] is called: its argument is
    evaluated and its read is issued. *)
Definition complete (councilResponse : JSON) : M Stage :=
  final_report <- lift (prop (Some councilResponse) "report") ;;
  ret (UpdateRead (ToCompleted final_report)).

(** A part of the inner [try]: what it throws is caught by the inner
    [catch], after which the driver goes on to complete the session. *)
Definition in_try (councilResponse : JSON) (part : M Stage) : M Stage :=
  try_catch part
    (fun message =>
       councilResponse <- on_sandbox_error councilResponse message ;;
       complete councilResponse).

(** From the completion of the awaited command to the next await. *)
Definition block (sessionId : string) (stage : Stage) : M Stage :=
  match stage with
  | FirstRead =>
      session <- getSession sessionId ;;
      match session with
      | None => ret (Finished (Ok tt))
      | Some session => ret (UpdateRead (ToAnalyzing session))
      end
  | UpdateRead u =>
      session <- getSession sessionId ;;
      match session with
      | None => throw "Session not found"
      | Some session =>
          stamp <- new_date env ;;
          ret (UpdateWrite u (merged session (updates_of u) stamp))
      end
  | UpdateWrite u updated =>
      saveSession updated ;;;
      match u with
      | ToAnalyzing session =>
          emitProgress sessionId
            (mkProgress analyzing 10 "Starting review..." None) ;;;
          emitProgress sessionId
            (mkProgress analyzing 20 "Sending to Council agents..." None) ;;;
          ret (CouncilCall session)
      | ToTesting session councilResponse _ =>
          emitProgress sessionId
            (mkProgress testing 60 "Running tests in sandbox..." None) ;;;
          test_code <- lift (prop (Some councilResponse) "test_code") ;;
          if truthy test_code
          then ret (SandboxCreate session councilResponse)
          else complete councilResponse
      | ToCompleted final_report =>
          emitProgress sessionId
            (mkProgress completed 100 "Review complete!" final_report) ;;;
          ret (Finished (Ok tt))
      | ToFailed message =>
          effect (EmitError sessionId message) ;;;
          ret (Finished (Ok tt))
      end
  | CouncilCall session =>
      councilResponse <-
        callCouncil env "/council/review" (councilRequest session) ;;
      response_agents <- lift (prop (Some councilResponse) "agents") ;;
      ret (UpdateRead (ToTesting session councilResponse response_agents))
  | SandboxCreate session councilResponse =>
      in_try councilResponse
        (sandbox <- callSandbox env "/sandbox/create" "POST"
                      (Some (sandbox_config session)) ;;
         sandboxId <- lift (prop (Some sandbox) "sandbox_id") ;;
         code_files <- lift (prop (Some councilResponse) "code_files") ;;
         test_files <- lift (prop (Some councilResponse) "test_files") ;;
         ret (SandboxExecute councilResponse sandboxId
                (test_run session code_files test_files)))
  | SandboxExecute councilResponse sandboxId run =>
      in_try councilResponse
        (testResult <- callSandbox env
           ("/sandbox/" +:+ interpolate sandboxId +:+ "/execute") "POST"
           (Some run) ;;
         ret (SandboxDelete councilResponse sandboxId testResult))
  | SandboxDelete councilResponse sandboxId testResult =>
      councilResponse <-
        try_catch
          (callSandbox env ("/sandbox/" +:+ interpolate sandboxId) "DELETE"
             (Some JNull) ;;;
           results <- lift (prop (Some testResult) "results") ;;
           lift (set_prop councilResponse "test_results" results))
          (on_sandbox_error councilResponse) ;;
      complete councilResponse
  | Finished outcome => ret (Finished outcome)
  end.

(** Where an error goes that a block lets through: to the [catch] of
    [processReview], which calls [updateSession]; an error thrown inside
    that [catch] rejects the promise. *)
Definition thrown (stage : Stage) (message : string) : Stage :=
  match stage with
  | UpdateRead (ToFailed _) | UpdateWrite (ToFailed _) _ | Finished _ =>
      Finished (Throw message)
  | _ => UpdateRead (ToFailed message)
  end.

Definition step (sessionId : string) (state : Stage * World) : Stage * World :=
  match block sessionId state.1 state.2 with
  | (Ok next, w) => (next, w)
  | (Throw message, w) => (thrown state.1 message, w)
  end.

Definition act (sessionId : string) (state : Stage * World) (a : Action)
  : Stage * World :=
  match a with
  | Tick => step sessionId state
  | Delete => (state.1, (delete_review sessionId state.2).2)
  end.

(** The driver of [sessionId] and the requests on its session, served in
    the order of [schedule]. *)
Definition play (sessionId : string) (schedule : list Action)
    (state : Stage * World) : Stage * World :=
  fold_left (act sessionId) schedule state.

(** The state in which [submit] leaves an accepted request when it
    answers: the session is stored, and the driver, started before the
    answer is sent, has issued its first read, which Redis serves before
    any command issued later. *)
Definition launched (req_body : JsVal) (w : World) : Stage * World :=
  step ("rev-" +:+ uuidv4 env (clock w)) (FirstRead, (submit env req_body w).2).

End Machine.

(** The number of steps of [schedule]. *)
Definition ticks (schedule : list Action) : nat :=
  length (List.filter (fun a => match a with Tick => true | Delete => false end)
            schedule).

(** A bound on the steps a driver still has to make. *)
Definition remaining (stage : Stage) : nat :=
  match stage with
  | FirstRead => 12
  | UpdateRead (ToAnalyzing _) => 11
  | UpdateWrite (ToAnalyzing _) _ => 10
  | CouncilCall _ => 9
  | UpdateRead (ToTesting _ _ _) => 8
  | UpdateWrite (ToTesting _ _ _) _ => 7
  | SandboxCreate _ _ => 6
  | SandboxExecute _ _ _ => 5
  | SandboxDelete _ _ _ => 4
  | UpdateRead (ToCompleted _) => 3
  | UpdateRead (ToFailed _) => 2
  | UpdateWrite _ _ => 1
  | Finished _ => 0
  end.

(** The world after one more reading of the clock. *)
Definition advance (w : World) : World :=
  {| redis := redis w; clock := S (clock w); trace := trace w;
     background := background w |}.

(** The world after [saveSession] has written [session]. *)
Definition written (w : World) (session : Session) : World :=
  {| redis := <[session_key (id session) := session]> (redis w);
     clock := clock w;
     trace := trace w ++ [Saved session];
     background := background w |}.

(** *** What holds of a driver at every await *)

Section Invariant.

Variable env : Env.
Variable sessionId : string.

(** The session the driver read when it started. *)
Variable session0 : Session.

(** [message] is what the Council call of the driver throws, or what the
    read of [agents] throws on its answer. *)
Definition council_failed (message : string) : Prop :=
  match council_api env "/council/review" (councilRequest session0) with
  | Data d =>
      d = JNull
      /\ message = "Cannot read properties of null (reading 'agents')"
  | AxiosError detail text => message = council_error detail text
  end.

(** A value of the session that the driver has written. *)
Definition driven (s : Session) : Prop :=
  id s = sessionId
  /\ status s <> pending
  /\ 10 <= progress s
  /\ (status s = failed ->
      exists message, error s = Some message /\ council_failed message).

Definition stored_as (P : Session -> Prop) (w : World) : Prop :=
  forall s, redis w !! session_key sessionId = Some s -> P s.

Definition absent (w : World) : Prop :=
  redis w !! session_key sessionId = None.

(** What a step keeps of the store: the other keys as they are, and the
    session if it is there. *)
Definition kept (w w' : World) : Prop :=
  (forall k, k <> session_key sessionId -> redis w' !! k = redis w !! k)
  /\ (is_Some (redis w !! session_key sessionId) ->
      is_Some (redis w' !! session_key sessionId)).

Definition invariant (state : Stage * World) : Prop :=
  match state.1 with
  | FirstRead => False
  | UpdateRead (ToAnalyzing session) =>
      session = session0 /\ stored_as (fun s => s = session0) state.2
  | UpdateWrite (ToAnalyzing session) updated =>
      session = session0 /\ stored_as (fun s => s = session0) state.2
      /\ driven updated
  | UpdateRead (ToTesting _ d _) => d <> JNull /\ stored_as driven state.2
  | UpdateWrite (ToTesting _ d _) updated =>
      d <> JNull /\ stored_as driven state.2 /\ driven updated
  | UpdateRead (ToCompleted _) => stored_as driven state.2
  | UpdateRead (ToFailed message) =>
      stored_as driven state.2 /\ (council_failed message \/ absent state.2)
  | UpdateWrite (ToCompleted _) updated
  | UpdateWrite (ToFailed _) updated =>
      stored_as driven state.2 /\ driven updated
      /\ terminal (status updated) = true
  | CouncilCall session => session = session0 /\ stored_as driven state.2
  | SandboxCreate _ d
  | SandboxExecute d _ _
  | SandboxDelete d _ _ => (exists l, d = JObj l) /\ stored_as driven state.2
  | Finished (Ok _) =>
      stored_as (fun s => driven s /\ terminal (status s) = true) state.2
  | Finished (Throw message) =>
      message = "Session not found" /\ absent state.2
  end.

End Invariant.

(** * Properties *)

Example to_string_number : to_string (JNum 42) = "42".
Proof. reflexivity. Qed.

Example spread_overrides :
  spread [("a", JNum 1); ("b", JNum 2)] [("b", JNum 3); ("c", JNum 4)]
  = [("a", JNum 1); ("b", JNum 3); ("c", JNum 4)].
Proof. reflexivity. Qed.

(** ** Equations of the monad *)

Section MonadLaws.

Context {A B : Type}.

Lemma bind_ok (m : M A) (k : A -> M B) w a w' :
  m w = (Ok a, w') -> bind m k w = k a w'.
Proof. intros H. unfold bind. now rewrite H. Qed.

Lemma bind_throw (m : M A) (k : A -> M B) w e w' :
  m w = (Throw e, w') -> bind m k w = (Throw e, w').
Proof. intros H. unfold bind. now rewrite H. Qed.

Lemma try_catch_ok (m : M A) (h : string -> M A) w a w' :
  m w = (Ok a, w') -> try_catch m h w = (Ok a, w').
Proof. intros H. unfold try_catch. now rewrite H. Qed.

Lemma try_catch_throw (m : M A) (h : string -> M A) w e w' :
  m w = (Throw e, w') -> try_catch m h w = h e w'.
Proof. intros H. unfold try_catch. now rewrite H. Qed.

End MonadLaws.

(** ** Session storage *)

Section Storage.

Variable env : Env.

Lemma getSession_saved session w :
  getSession (id session) (saveSession session w).2
  = (Ok (Some session), (saveSession session w).2).
Proof.
  unfold getSession, saveSession. simpl. now rewrite lookup_insert_eq.
Qed.

(** What [updateSession] does on a session that is there. *)
Lemma updateSession_found sessionId updates w session :
  redis w !! session_key sessionId = Some session ->
  updateSession env sessionId updates w
  = (Ok (merged session updates (now env (clock w))),
     after_update w (merged session updates (now env (clock w)))).
Proof.
  intros H. unfold updateSession, bind, getSession. rewrite H. reflexivity.
Qed.

Lemma lookup_after_update w session sessionId :
  id session = sessionId ->
  redis (after_update w session) !! session_key sessionId = Some session.
Proof. intros <-. apply lookup_insert_eq. Qed.

Lemma updateSession_missing sessionId updates w :
  redis w !! session_key sessionId = None ->
  updateSession env sessionId updates w = (Throw "Session not found", w).
Proof.
  intros H. unfold updateSession, bind, getSession. now rewrite H.
Qed.

End Storage.

(** ** Collaborator calls *)

Section Calls.

Variable env : Env.

Lemma log_nil w : log w [] = w.
Proof. destruct w. unfold log. simpl. now rewrite app_nil_r. Qed.

Lemma log_log w evs evs' : log (log w evs) evs' = log w (evs ++ evs').
Proof. unfold log. simpl. now rewrite app_assoc. Qed.

Lemma effect_log e w : effect e w = (Ok tt, log w [e]).
Proof. reflexivity. Qed.

Lemma callCouncil_run endpoint data w :
  callCouncil env endpoint data w
  = (match council_api env endpoint data with
     | Data d => Ok d
     | AxiosError detail message =>
         Throw ("Council service error: " +:+ service_error detail message)
     end,
     log w [Http Council "POST" endpoint (Some data)]).
Proof.
  unfold callCouncil, bind. rewrite effect_log.
  now destruct (council_api env endpoint data).
Qed.

Lemma callSandbox_run endpoint method data w :
  callSandbox env endpoint method data w
  = (match sandbox_api env method endpoint
             (if truthy data then data else None) with
     | Data d => Ok d
     | AxiosError detail message =>
         Throw ("Sandbox service error: " +:+ service_error detail message)
     end,
     log w [Http Sandbox method endpoint (if truthy data then data else None)]).
Proof.
  unfold callSandbox, bind. rewrite effect_log.
  now destruct (sandbox_api env method endpoint _).
Qed.

Lemma sandbox_only_app evs evs' :
  sandbox_only evs -> sandbox_only evs' -> sandbox_only (evs ++ evs').
Proof. apply Forall_app_2. Qed.

Lemma sandbox_only_saved sessionId evs :
  sandbox_only evs -> saved_sessions sessionId evs = [].
Proof.
  induction 1 as [|e evs He _ IH]; [reflexivity|].
  destruct e; try contradiction. exact IH.
Qed.

Lemma sandbox_only_published room evs :
  sandbox_only evs -> published room evs = [].
Proof.
  induction 1 as [|e evs He _ IH]; [reflexivity|].
  destruct e; try contradiction. exact IH.
Qed.

Lemma sandbox_only_published_errors room evs :
  sandbox_only evs -> published_errors room evs = [].
Proof.
  induction 1 as [|e evs He _ IH]; [reflexivity|].
  destruct e; try contradiction. exact IH.
Qed.

Lemma assoc_assign_ne k k' v l :
  k <> k' -> assoc k (assign k' v l) = assoc k l.
Proof.
  intros Hne. induction l as [|[k0 v0] l IH]; simpl.
  - destruct (String.eqb_spec k k'); [contradiction|reflexivity].
  - destruct (String.eqb_spec k' k0) as [->|Hk0]; simpl.
    + destruct (String.eqb_spec k k0); [contradiction|reflexivity].
    + destruct (String.eqb_spec k k0); [reflexivity|exact IH].
Qed.

Lemma assoc_unassign_ne k k' l :
  k <> k' -> assoc k (unassign k' l) = assoc k l.
Proof.
  intros Hne. induction l as [|[k0 v0] l IH]; simpl; [reflexivity|].
  destruct (String.eqb_spec k' k0) as [->|Hk0]; simpl.
  - destruct (String.eqb_spec k k0); [contradiction|exact IH].
  - destruct (String.eqb_spec k k0); [reflexivity|exact IH].
Qed.

Lemma assoc_assign k v l : assoc k (assign k v l) = Some v.
Proof.
  induction l as [|[k0 v0] l IH]; simpl.
  - now rewrite String.eqb_refl.
  - destruct (String.eqb_spec k k0) as [->|Hne]; simpl.
    + now rewrite String.eqb_refl.
    + destruct (String.eqb_spec k k0); [contradiction|exact IH].
Qed.

Lemma prop_object l k : prop (Some (JObj l)) k = Ok (assoc k l).
Proof. reflexivity. Qed.

(** Writing [test_results] on the Council response leaves its other
    properties as they are. *)
Lemma set_prop_test_results l x k :
  k <> "test_results" ->
  exists l', set_prop (JObj l) "test_results" x = Ok (JObj l')
             /\ assoc k l' = assoc k l.
Proof.
  intros Hne. destruct x as [v|]; simpl; eexists; split; try reflexivity.
  - now apply assoc_assign_ne.
  - now apply assoc_unassign_ne.
Qed.

(** The execution phase never throws and touches nothing but the sandbox
    service: whatever the sandbox replies, the driver goes on with a
    Council response whose [report] is unchanged. *)
Lemma execution_phase_absorbs session l w :
  exists l' calls,
    try_catch (run_tests env session (JObj l)) (on_sandbox_error (JObj l)) w
    = (Ok (JObj l'), log w calls)
    /\ assoc "report" l' = assoc "report" l
    /\ sandbox_only calls.
Proof.
  assert (Hcatch : forall message calls, sandbox_only calls ->
    exists l' calls',
      on_sandbox_error (JObj l) message (log w calls) = (Ok (JObj l'), log w calls')
      /\ assoc "report" l' = assoc "report" l /\ sandbox_only calls').
  { intros message calls Hc.
    destruct (set_prop_test_results l (Some (JObj [("error", JStr message)]))
                "report") as (l' & Hset & Hl'); [discriminate|].
    exists l', calls. unfold on_sandbox_error, lift. rewrite Hset. auto. }
  unfold try_catch, run_tests.
  unfold bind at 1. rewrite callSandbox_run.
  set (c1 := Http Sandbox _ _ _).
  assert (H1 : sandbox_only [c1]) by (repeat constructor).
  destruct (sandbox_api env "POST" "/sandbox/create" _) as [sb|detail msg];
    [|rewrite <- (app_nil_l [c1]) in H1; apply (Hcatch _ _ H1)].
  unfold bind at 1, lift at 1.
  destruct (prop (Some sb) "sandbox_id") as [sandboxId|e];
    [|apply (Hcatch _ _ H1)].
  unfold bind at 1, lift at 1. rewrite prop_object.
  unfold bind at 1, lift at 1. rewrite prop_object.
  unfold bind at 1. rewrite callSandbox_run, log_log.
  set (c2 := Http Sandbox "POST" _ _).
  assert (H2 : sandbox_only ([c1] ++ [c2])) by (repeat constructor).
  destruct (sandbox_api env "POST" _ _) as [testResult|detail msg];
    [|apply (Hcatch _ _ H2)].
  unfold bind at 1. rewrite callSandbox_run, log_log.
  set (c3 := Http Sandbox "DELETE" _ _).
  assert (H3 : sandbox_only (([c1] ++ [c2]) ++ [c3])) by (repeat constructor).
  destruct (sandbox_api env "DELETE" _ _) as [gone|detail msg];
    [|apply (Hcatch _ _ H3)].
  unfold bind at 1, lift at 1.
  destruct (prop (Some testResult) "results") as [results|e];
    [|apply (Hcatch _ _ H3)].
  destruct (set_prop_test_results l results "report") as (l' & Hset & Hl');
    [discriminate|].
  unfold lift. rewrite Hset. eauto.
Qed.

(** What the [try] of the execution phase throws when the creation of the
    sandbox fails, and when the test run fails. *)
Lemma run_tests_create_fails session l w detail message :
  sandbox_api env "POST" "/sandbox/create" (Some (sandbox_config session))
  = AxiosError detail message ->
  run_tests env session (JObj l) w
  = (Throw ("Sandbox service error: " +:+ service_error detail message),
     log w [Http Sandbox "POST" "/sandbox/create"
              (Some (sandbox_config session))]).
Proof.
  intros Hcreate. unfold run_tests. unfold bind at 1.
  rewrite callSandbox_run. cbn [truthy sandbox_config].
  fold (sandbox_config session). now rewrite Hcreate.
Qed.

Lemma run_tests_execute_fails session l w sandbox sandboxId detail message :
  sandbox_api env "POST" "/sandbox/create" (Some (sandbox_config session))
  = Data sandbox ->
  prop (Some sandbox) "sandbox_id" = Ok sandboxId ->
  sandbox_api env "POST" ("/sandbox/" +:+ interpolate sandboxId +:+ "/execute")
    (Some (test_run session (assoc "code_files" l) (assoc "test_files" l)))
  = AxiosError detail message ->
  run_tests env session (JObj l) w
  = (Throw ("Sandbox service error: " +:+ service_error detail message),
     log w [Http Sandbox "POST" "/sandbox/create"
              (Some (sandbox_config session));
            Http Sandbox "POST"
              ("/sandbox/" +:+ interpolate sandboxId +:+ "/execute")
              (Some (test_run session (assoc "code_files" l)
                       (assoc "test_files" l)))]).
Proof.
  intros Hcreate Hid Hrun. unfold run_tests. unfold bind at 1.
  rewrite callSandbox_run. cbn [truthy sandbox_config].
  fold (sandbox_config session). rewrite Hcreate.
  unfold bind at 1, lift at 1. rewrite Hid.
  unfold bind at 1, lift at 1. rewrite prop_object.
  unfold bind at 1, lift at 1. rewrite prop_object.
  unfold bind at 1. rewrite callSandbox_run, log_log.
  cbn [truthy test_run].
  fold (test_run session (assoc "code_files" l) (assoc "test_files" l)).
  now rewrite Hrun.
Qed.

(** The [catch] of the execution phase: the message of what the [try]
    threw becomes the [test_results] of the Council response. *)
Lemma execution_phase_records session l w e w' :
  run_tests env session (JObj l) w = (Throw e, w') ->
  try_catch (run_tests env session (JObj l)) (on_sandbox_error (JObj l)) w
  = (Ok (JObj (assign "test_results" (JObj [("error", JStr e)]) l)), w').
Proof. intros H. unfold try_catch. now rewrite H. Qed.

End Calls.

(** ** The driver, path by path *)

Section Driver.

Variable env : Env.

Lemma processReview_missing sessionId w :
  redis w !! session_key sessionId = None ->
  processReview env sessionId w = (Ok tt, w).
Proof.
  intros H. unfold processReview, try_catch, bind, getSession.
  now rewrite H.
Qed.

(** The common prefix of every run on a stored session: the session is
    moved to [analyzing], two progress events are published and the
    Council is called. *)
Ltac driver_prefix H Hc :=
  unfold processReview; unfold try_catch at 1;
  unfold bind at 1, getSession at 1; rewrite H;
  unfold bind at 1; rewrite (updateSession_found _ _ _ _ _ H);
  unfold bind at 1, emitProgress at 1; rewrite effect_log;
  unfold bind at 1, emitProgress at 1; rewrite effect_log, log_log;
  unfold bind at 1; rewrite callCouncil_run, log_log, Hc.

(** The [catch] of the driver on a session that is still stored. *)
Lemma on_review_error_found sessionId message w session :
  redis w !! session_key sessionId = Some session ->
  on_review_error env sessionId message w
  = (Ok tt,
     log (after_update w (merged session (to_failed message)
                            (now env (clock w))))
         [EmitError sessionId message]).
Proof.
  intros H. unfold on_review_error, bind.
  now rewrite (updateSession_found env _ _ _ _ H), effect_log.
Qed.

(** Run in which the Council call fails. *)
Lemma processReview_council_error sessionId w session detail message :
  redis w !! session_key sessionId = Some session ->
  id session = sessionId ->
  council_api env "/council/review" (councilRequest session)
  = AxiosError detail message ->
  let cause := "Council service error: " +:+ service_error detail message in
  let s1 := merged session to_analyzing (now env (clock w)) in
  let w1 := log (after_update w s1)
              (started sessionId
               ++ [Http Council "POST" "/council/review"
                     (Some (councilRequest session))]) in
  processReview env sessionId w
  = (Ok tt,
     log (after_update w1 (merged s1 (to_failed cause) (now env (clock w1))))
         [EmitError sessionId cause]).
Proof.
  intros H Hid Hc cause s1 w1. driver_prefix H Hc.
  apply on_review_error_found. now apply lookup_after_update.
Qed.

(** Run in which the Council answers [null]: reading [agents] throws. *)
Lemma processReview_council_null sessionId w session :
  redis w !! session_key sessionId = Some session ->
  id session = sessionId ->
  council_api env "/council/review" (councilRequest session) = Data JNull ->
  let cause := "Cannot read properties of null (reading 'agents')" in
  let s1 := merged session to_analyzing (now env (clock w)) in
  let w1 := log (after_update w s1)
              (started sessionId
               ++ [Http Council "POST" "/council/review"
                     (Some (councilRequest session))]) in
  processReview env sessionId w
  = (Ok tt,
     log (after_update w1 (merged s1 (to_failed cause) (now env (clock w1))))
         [EmitError sessionId cause]).
Proof.
  intros H Hid Hc cause s1 w1. driver_prefix H Hc.
  unfold bind at 1, lift at 1. simpl prop. cbv beta iota.
  apply on_review_error_found. now apply lookup_after_update.
Qed.

(** Run in which the Council answers: whatever the sandbox does next, the
    session is moved to [testing] and then to [completed]. *)
Lemma processReview_council_data sessionId w session d response_agents :
  redis w !! session_key sessionId = Some session ->
  id session = sessionId ->
  council_api env "/council/review" (councilRequest session) = Data d ->
  prop (Some d) "agents" = Ok response_agents ->
  let s1 := merged session to_analyzing (now env (clock w)) in
  let w1 := log (after_update w s1)
              (started sessionId
               ++ [Http Council "POST" "/council/review"
                     (Some (councilRequest session))]) in
  let s2 := merged s1 (to_testing response_agents) (now env (clock w1)) in
  let w2 := log (after_update w1 s2)
              [EmitProgress sessionId
                 (mkProgress testing 60 "Running tests in sandbox..." None)] in
  exists test_code final_report calls,
    prop (Some d) "test_code" = Ok test_code
    /\ prop (Some d) "report" = Ok final_report
    /\ sandbox_only calls
    /\ (truthy test_code = false -> calls = [])
    /\ let s3 := merged s2 (to_completed final_report) (now env (clock w2)) in
       processReview env sessionId w
       = (Ok tt,
          log (after_update (log w2 calls) s3)
              [EmitProgress sessionId
                 (mkProgress completed 100 "Review complete!" final_report)]).
Proof.
  intros H Hid Hc Ha s1 w1 s2 w2.
  assert (Hs1 : redis w1 !! session_key sessionId = Some s1)
    by now apply lookup_after_update.
  assert (Hs2 : forall calls,
             redis (log w2 calls) !! session_key sessionId = Some s2)
    by (intros; now apply lookup_after_update).
  assert (Hfields : forall k, exists x, prop (Some d) k = Ok x).
  { intros k. destruct d; try discriminate; simpl; eauto. }
  destruct (Hfields "test_code") as [test_code Htc].
  destruct (Hfields "report") as [final_report Hrep].
  assert (Hfinish : forall d' calls,
    prop (Some d') "report" = Ok final_report ->
    (final_report0 <- lift (prop (Some d') "report") ;;
     updateSession env sessionId (to_completed final_report0) ;;;
     emitProgress sessionId
       (mkProgress completed 100 "Review complete!" final_report0))
      (log w2 calls)
    = (Ok tt,
       log (after_update (log w2 calls)
              (merged s2 (to_completed final_report) (now env (clock w2))))
           [EmitProgress sessionId
              (mkProgress completed 100 "Review complete!" final_report)])).
  { intros d' calls Hd'. unfold bind at 1, lift at 1. rewrite Hd'.
    unfold bind at 1. rewrite (updateSession_found env _ _ _ _ (Hs2 calls)).
    unfold emitProgress. now rewrite effect_log. }
  destruct (truthy test_code) eqn:Htruthy.
  - (* tests were generated: the execution phase *)
    assert (Hobj : exists l, d = JObj l).
    { destruct d; try (simpl in Htc; inversion Htc; subst; discriminate).
      eauto. }
    destruct Hobj as [l ->].
    destruct (execution_phase_absorbs env session l w2)
      as (l' & calls & Hexec & Hl' & Hcalls).
    exists test_code, final_report, calls.
    split; [assumption|]. split; [assumption|]. split; [assumption|].
    split; [intros Hf; rewrite Htruthy in Hf; discriminate|].
    intros s3. driver_prefix H Hc. fold s1 w1.
    unfold bind at 1, lift at 1. rewrite Ha.
    unfold bind at 1. rewrite (updateSession_found env _ _ _ _ Hs1).
    unfold bind at 1, emitProgress at 1. rewrite effect_log.
    unfold bind at 1, lift at 1. rewrite Htc.
    unfold bind at 1. rewrite Htruthy. fold s2 w2. rewrite Hexec.
    rewrite Hfinish; [reflexivity|].
    rewrite prop_object in Hrep |- *. now rewrite Hl'.
  - exists test_code, final_report, [].
    split; [assumption|]. split; [assumption|]. split; [constructor|].
    split; [reflexivity|].
    intros s3. driver_prefix H Hc. fold s1 w1.
    unfold bind at 1, lift at 1. rewrite Ha.
    unfold bind at 1. rewrite (updateSession_found env _ _ _ _ Hs1).
    unfold bind at 1, emitProgress at 1. rewrite effect_log.
    unfold bind at 1, lift at 1. rewrite Htc.
    unfold bind at 1. rewrite Htruthy. fold s2 w2. unfold ret at 1.
    rewrite <- (log_nil w2) at 1.
    now rewrite (Hfinish _ [] Hrep).
Qed.

(** Run in which the Council's answer carries test code: the execution
    phase is entered in the world [w2] reached by the write of [testing]
    and its event; the session is then completed with the report of the
    response that leaves the phase. *)
Lemma processReview_tested sessionId w session l :
  redis w !! session_key sessionId = Some session ->
  id session = sessionId ->
  council_api env "/council/review" (councilRequest session)
  = Data (JObj l) ->
  truthy (assoc "test_code" l) = true ->
  let s1 := merged session to_analyzing (now env (clock w)) in
  let w1 := log (after_update w s1)
              (started sessionId
               ++ [Http Council "POST" "/council/review"
                     (Some (councilRequest session))]) in
  let s2 := merged s1 (to_testing (assoc "agents" l)) (now env (clock w1)) in
  let w2 := log (after_update w1 s2)
              [EmitProgress sessionId
                 (mkProgress testing 60 "Running tests in sandbox..." None)] in
  exists l' calls,
    try_catch (run_tests env session (JObj l)) (on_sandbox_error (JObj l)) w2
    = (Ok (JObj l'), log w2 calls)
    /\ assoc "report" l' = assoc "report" l
    /\ sandbox_only calls
    /\ let s3 := merged s2 (to_completed (assoc "report" l'))
                   (now env (clock w2)) in
       processReview env sessionId w
       = (Ok tt,
          log (after_update (log w2 calls) s3)
              [EmitProgress sessionId
                 (mkProgress completed 100 "Review complete!"
                    (assoc "report" l'))]).
Proof.
  intros H Hid Hc Htruthy s1 w1 s2 w2.
  assert (Hs1 : redis w1 !! session_key sessionId = Some s1)
    by now apply lookup_after_update.
  assert (Hs2 : forall calls,
             redis (log w2 calls) !! session_key sessionId = Some s2)
    by (intros; now apply lookup_after_update).
  destruct (execution_phase_absorbs env session l w2)
    as (l' & calls & Hexec & Hl' & Hcalls).
  exists l', calls. split; [exact Hexec|]. split; [exact Hl'|].
  split; [exact Hcalls|]. intros s3.
  driver_prefix H Hc. fold s1 w1.
  unfold bind at 1, lift at 1. rewrite prop_object.
  unfold bind at 1. rewrite (updateSession_found env _ _ _ _ Hs1).
  unfold bind at 1, emitProgress at 1. rewrite effect_log.
  unfold bind at 1, lift at 1. rewrite prop_object.
  unfold bind at 1. rewrite Htruthy. fold s2 w2. rewrite Hexec.
  unfold bind at 1, lift at 1. rewrite prop_object.
  unfold bind at 1. rewrite (updateSession_found env _ _ _ _ (Hs2 calls)).
  unfold emitProgress. now rewrite effect_log.
Qed.

End Driver.

(** ** Observations distribute over traces *)

Lemma saved_sessions_app sessionId tr tr' :
  saved_sessions sessionId (tr ++ tr')
  = saved_sessions sessionId tr ++ saved_sessions sessionId tr'.
Proof.
  induction tr as [|e tr IH]; [reflexivity|].
  destruct e; simpl; try exact IH.
  destruct (String.eqb _ _); simpl; now rewrite IH.
Qed.

Lemma published_app room tr tr' :
  published room (tr ++ tr') = published room tr ++ published room tr'.
Proof.
  induction tr as [|e tr IH]; [reflexivity|].
  destruct e; simpl; try exact IH.
  destruct (String.eqb _ _); simpl; now rewrite IH.
Qed.

Lemma published_errors_app room tr tr' :
  published_errors room (tr ++ tr')
  = published_errors room tr ++ published_errors room tr'.
Proof.
  induction tr as [|e tr IH]; [reflexivity|].
  destruct e; simpl; try exact IH.
  destruct (String.eqb _ _); simpl; now rewrite IH.
Qed.

Lemma sandbox_calls_app tr tr' :
  sandbox_calls (tr ++ tr') = sandbox_calls tr ++ sandbox_calls tr'.
Proof.
  induction tr as [|e tr IH]; [reflexivity|].
  destruct e as [| |[]| |]; simpl; try exact IH. now rewrite IH.
Qed.

Lemma prop_total (d : JSON) k x k' :
  prop (Some d) k = Ok x -> exists y, prop (Some d) k' = Ok y.
Proof. destruct d; try discriminate; simpl; eauto. Qed.

(** ** Submission and polling *)

Section Api.

Variable env : Env.

Lemma submit_accepted req_body code' w :
  prop req_body "code" = Ok (Some code') ->
  truthy (Some code') = true ->
  let session := submitted env req_body code' w in
  submit env req_body w
  = (Ok {| http_status := 200;
           body := JObj [("session_id", JStr (id session));
                         ("status", JStr "pending");
                         ("message", JStr "Review started")] |},
     {| redis := <[session_key (id session) := session]> (redis w);
        clock := S (S (S (clock w)));
        trace := trace w ++ [Saved session];
        background := background w ++ [id session] |}).
Proof.
  intros Hcode Htruthy session. subst session. unfold submitted.
  destruct req_body as [[]|]; try discriminate Hcode.
  all: unfold submit, try_catch, bind, lift; rewrite Hcode; simpl prop;
    cbv beta iota; rewrite Htruthy; reflexivity.
Qed.

Lemma submit_rejected req_body code' w :
  prop req_body "code" = Ok code' ->
  truthy code' = false ->
  submit env req_body w
  = (Ok {| http_status := 400;
           body := JObj [("error", JStr "Code is required")] |}, w).
Proof.
  intros Hcode Hfalsy.
  destruct req_body as [[]|]; try discriminate Hcode.
  all: unfold submit, try_catch, bind, lift; rewrite Hcode; simpl prop;
    cbv beta iota; destruct code'; [rewrite Hfalsy|]; reflexivity.
Qed.

End Api.

(** ** Deletion *)

Lemma delete_review_run sessionId w :
  delete_review sessionId w
  = (Ok deleted_ack,
     {| redis := delete (session_key sessionId) (redis w);
        clock := clock w;
        trace := trace w ++ [Deleted (session_key sessionId)];
        background := background w |}).
Proof. reflexivity. Qed.

Lemma get_status_missing sessionId w :
  redis w !! session_key sessionId = None ->
  get_status sessionId w = (Ok not_found, w).
Proof.
  intros H. unfold get_status, try_catch, bind, getSession. now rewrite H.
Qed.


(** ** Failure *)

Section Failure.

Variable env : Env.

(** C10. The transition into [failed] (the [catch] of the driver)
    rewrites the stored session with a new [status], [error] and
    [updated_at]; its [id], [code], [language], [context],
    [quality_gates], [progress], [agents], [created_at] and [report] are
    those it had, and no other key of the store is touched. *)
Theorem failure_keeps_other_fields sessionId message w session :
  redis w !! session_key sessionId = Some session ->
  id session = sessionId ->
  exists session',
    let w' := (on_review_error env sessionId message w).2 in
    (on_review_error env sessionId message w).1 = Ok tt
    /\ redis w' !! session_key sessionId = Some session'
    /\ (forall key, key <> session_key sessionId ->
                    redis w' !! key = redis w !! key)
    /\ status session' = failed
    /\ error session' = Some message
    /\ updated_at session' = now env (clock w)
    /\ id session' = id session
    /\ code session' = code session
    /\ language session' = language session
    /\ context session' = context session
    /\ quality_gates session' = quality_gates session
    /\ progress session' = progress session
    /\ agents session' = agents session
    /\ created_at session' = created_at session
    /\ report session' = report session.
Proof.
  intros H Hid.
  exists (merged session (to_failed message) (now env (clock w))).
  rewrite (on_review_error_found env _ _ _ _ H).
  cbn [fst snd]. split; [reflexivity|].
  split; [now apply lookup_after_update|].
  split; [|repeat split].
  intros key Hkey. cbn [log after_update redis merged id].
  rewrite Hid. now apply lookup_insert_ne.
Qed.

End Failure.

Lemma failure_keeps_other_fields_witness :
  exists session',
    redis (on_review_error Scenario.no_tests Scenario.sid
             "Council service error: timeout of 120000ms exceeded"
             (submit Scenario.no_tests Scenario.security_request
                Scenario.boot).2).2
      !! session_key Scenario.sid = Some session'
    /\ status session' = failed
    /\ progress session' = 0
    /\ code session' = Scenario.source.
Proof.
  destruct (failure_keeps_other_fields Scenario.no_tests Scenario.sid
              "Council service error: timeout of 120000ms exceeded"
              (submit Scenario.no_tests Scenario.security_request
                 Scenario.boot).2
              (submitted Scenario.no_tests Scenario.security_request
                 Scenario.source Scenario.boot)
              eq_refl eq_refl)
    as (session' & _ & Hlookup & _ & Hstatus & _ & _ & _ & Hcode & _ & _ & _
        & Hprogress & _).
  exists session'. repeat split; assumption.
Defined.

(** ** Validation at submission *)

(** C4, as stated, fails: a submission with an empty capability set, or
    with a capability outside the enumeration, is accepted and its
    session is created with the set as given. *)
Lemma submit_accepts_any_capability_set :
  answer_code (submit Scenario.no_tests (Scenario.request (JArr []))
                 Scenario.boot) = Some 200%nat
  /\ quality_gates
       <$> (redis (submit Scenario.no_tests (Scenario.request (JArr []))
                     Scenario.boot).2 !! session_key Scenario.sid)
     = Some (JArr [])
  /\ answer_code (submit Scenario.no_tests
                    (Scenario.request (JArr [JStr "astrology"]))
                    Scenario.boot) = Some 200%nat
  /\ quality_gates
       <$> (redis (submit Scenario.no_tests
                     (Scenario.request (JArr [JStr "astrology"]))
                     Scenario.boot).2 !! session_key Scenario.sid)
     = Some (JArr [JStr "astrology"]).
Proof. repeat split. Qed.

Section Validation.

Variable env : Env.

(** C4, amended. [submit] validates the code alone. A body whose [code]
    is missing or falsy is rejected with 400 "Code is required" and the
    world is unchanged: no session is created, no driver is started. A
    body whose [code] is truthy is accepted whatever its capability set:
    the session is created with [quality_gates] as given (the default
    qa, security, performance when the key is absent). *)
Theorem submit_validates_code_only req_body code' gates w :
  prop req_body "code" = Ok code' ->
  prop req_body "quality_gates" = Ok gates ->
  (truthy code' = false ->
   submit env req_body w = (Ok code_required, w))
  /\ (truthy code' = true ->
      exists session,
        answer_code (submit env req_body w) = Some 200%nat
        /\ redis (submit env req_body w).2
             !! session_key ("rev-" +:+ uuidv4 env (clock w))
           = Some session
        /\ quality_gates session = with_default gates default_gates
        /\ background (submit env req_body w).2
           = background w ++ ["rev-" +:+ uuidv4 env (clock w)]).
Proof.
  intros Hcode Hgates. split; intros Htruthy.
  - now apply (submit_rejected env _ code').
  - destruct code' as [c|]; [|discriminate].
    exists (submitted env req_body c w).
    rewrite (submit_accepted env _ _ _ Hcode Htruthy).
    unfold answer_code. cbn [fst snd redis background http_status].
    split; [reflexivity|]. split; [apply lookup_insert_eq|].
    split; [|reflexivity].
    unfold submitted. cbn [quality_gates]. now rewrite Hgates.
Qed.

End Validation.

Lemma submit_validates_code_only_witness :
  submit Scenario.no_tests (Some (JObj [("code", JStr "");
                                        ("quality_gates", JArr [JStr "qa"])]))
    Scenario.boot
  = (Ok code_required, Scenario.boot).
Proof.
  apply (submit_validates_code_only Scenario.no_tests
           (Some (JObj [("code", JStr "");
                        ("quality_gates", JArr [JStr "qa"])]))
           (Some (JStr "")) (Some (JArr [JStr "qa"])) Scenario.boot
           eq_refl eq_refl).
  reflexivity.
Defined.

(** ** Every run of the driver *)

Section Runs.

Variable env : Env.

Ltac observe Hid :=
  unfold started;
  cbn [log after_update trace redis clock];
  rewrite <- ?app_assoc;
  cbn [app saved_sessions published published_errors sandbox_calls
       id merged analyzing_of failed_of testing_of completed_of];
  rewrite ?Hid, ?String.eqb_refl.

(** A run of the driver on a stored session ends in one of two ways.
    Either the Council call failed (or answered [null]): the session was
    written twice, as [analyzing] and as [failed], and one error event
    was published. Or the Council answered: the session was written three
    times, as [analyzing], [testing] and [completed], four progress
    events were published and no error event; the sandbox was called only
    if the answer carried test code. *)
Lemma processReview_outcome sessionId w session :
  redis w !! session_key sessionId = Some session ->
  id session = sessionId ->
  let t0 := now env (clock w) in
  let t1 := now env (S (clock w)) in
  let t2 := now env (S (S (clock w))) in
  exists evs final,
    (processReview env sessionId w).1 = Ok tt
    /\ redis (processReview env sessionId w).2
       = <[session_key sessionId := final]> (redis w)
    /\ trace (processReview env sessionId w).2 = trace w ++ evs
    /\ background (processReview env sessionId w).2 = background w
    /\ ((exists cause,
            (match council_api env "/council/review" (councilRequest session)
             with
             | Data d => d = JNull
             | AxiosError _ _ => True
             end)
            /\ final = failed_of session cause t0 t1
            /\ saved_sessions sessionId evs
               = [analyzing_of session t0; final]
            /\ map p_progress (published sessionId evs) = [10; 20]
            /\ published_errors sessionId evs = [cause]
            /\ sandbox_calls evs = [])
        \/ (exists d response_agents test_code final_report calls,
               council_api env "/council/review" (councilRequest session)
               = Data d
               /\ prop (Some d) "agents" = Ok response_agents
               /\ prop (Some d) "test_code" = Ok test_code
               /\ prop (Some d) "report" = Ok final_report
               /\ final = completed_of session response_agents final_report
                            t0 t1 t2
               /\ saved_sessions sessionId evs
                  = [analyzing_of session t0;
                     testing_of session response_agents t0 t1;
                     final]
               /\ map p_progress (published sessionId evs) = [10; 20; 60; 100]
               /\ published_errors sessionId evs = []
               /\ sandbox_calls evs = sandbox_calls calls
               /\ sandbox_only calls
               /\ (truthy test_code = false -> calls = []))).
Proof.
  intros H Hid t0 t1 t2.
  destruct (council_api env "/council/review" (councilRequest session))
    as [d|detail message] eqn:Hc.
  - destruct (prop (Some d) "agents") as [response_agents|e] eqn:Ha.
    + destruct (processReview_council_data env _ _ _ _ _ H Hid Hc Ha)
        as (test_code & final_report & calls & Htc & Hrep & Hcalls & Hnone
            & Hrun).
      cbv zeta in Hrun. rewrite Hrun. cbn [fst snd].
      eexists _, (completed_of session response_agents final_report t0 t1 t2).
      split; [reflexivity|]. split; [|split; [|split; [reflexivity|]]].
      * observe Hid. now rewrite !insert_insert_eq.
      * observe Hid. reflexivity.
      * right. exists d, response_agents, test_code, final_report, calls.
        repeat (split; [assumption || reflexivity|]).
        observe Hid.
        rewrite ?saved_sessions_app, ?published_app, ?published_errors_app,
          ?sandbox_calls_app.
        rewrite (sandbox_only_saved _ _ Hcalls),
          (sandbox_only_published _ _ Hcalls),
          (sandbox_only_published_errors _ _ Hcalls).
        observe Hid. rewrite app_nil_r.
        repeat (split; [assumption || reflexivity|]). assumption.
    + assert (d = JNull) as -> by (destruct d; try discriminate; reflexivity).
      rewrite (processReview_council_null env _ _ _ H Hid Hc).
      cbn [fst snd].
      eexists _, (failed_of session _ t0 t1).
      split; [reflexivity|]. split; [|split; [|split; [reflexivity|]]].
      * observe Hid. now rewrite !insert_insert_eq.
      * observe Hid. reflexivity.
      * left. eexists. observe Hid. repeat split.
  - rewrite (processReview_council_error env _ _ _ _ _ H Hid Hc).
    cbn [fst snd].
    eexists _, (failed_of session _ t0 t1).
    split; [reflexivity|]. split; [|split; [|split; [reflexivity|]]].
    + observe Hid. now rewrite !insert_insert_eq.
    + observe Hid. reflexivity.
    + left. eexists. observe Hid. repeat split.
Qed.

End Runs.

(** ** Progress *)

Lemma sublist_strongly_sorted (l l' : list Z) :
  sublist l' l -> StronglySorted Z.le l -> StronglySorted Z.le l'.
Proof.
  induction 1 as [|x l1 l2 Hsub IH|x l1 l2 Hsub IH]; intros Hsorted.
  - constructor.
  - inversion Hsorted as [|? ? Htail Hhead]; subst. constructor.
    + now apply IH.
    + rewrite Forall_forall in Hhead |- *. intros y Hy. apply Hhead.
      eapply elem_of_sublist; eassumption.
  - inversion Hsorted; subst. now apply IH.
Qed.

Lemma sublist_sorted (l l' : list Z) :
  sublist l' l -> Sorted Z.le l -> Sorted Z.le l'.
Proof.
  intros Hsub Hsorted. apply StronglySorted_Sorted.
  apply (sublist_strongly_sorted l); [assumption|].
  apply Sorted_StronglySorted; [|assumption].
  intros x y z. apply Z.le_trans.
Qed.

Lemma sublist_in_range (l l' : list Z) :
  sublist l' l -> Forall in_percent_range l -> Forall in_percent_range l'.
Proof.
  intros Hsub Hall. rewrite Forall_forall in Hall |- *. intros y Hy.
  apply Hall. eapply elem_of_sublist; eassumption.
Qed.

Ltac percent_list :=
  repeat constructor; unfold in_percent_range; lia.

Section Progress.

Variable env : Env.

(** C8. Over a session's lifetime (stored by [submit] with progress 0 and
    then driven once), the successive progress values written to Redis
    are non-decreasing and lie in 0..100, and so are the progress values
    of the events published to the session's room; a subscriber receives
    a sub-sequence of the published events, in publish order, so the same
    holds of what any one subscriber is delivered. *)
Theorem progress_is_monotone sessionId w session :
  redis w !! session_key sessionId = Some session ->
  id session = sessionId ->
  progress session = 0 ->
  exists evs,
    trace (processReview env sessionId w).2 = trace w ++ evs
    /\ Sorted Z.le (progress session :: stored_progress sessionId evs)
    /\ Forall in_percent_range
         (progress session :: stored_progress sessionId evs)
    /\ forall delivered,
         sublist delivered (published sessionId evs) ->
         Sorted Z.le (map p_progress delivered)
         /\ Forall in_percent_range (map p_progress delivered).
Proof.
  intros H Hid Hzero.
  destruct (processReview_outcome env _ _ _ H Hid)
    as (evs & final & _ & _ & Htrace & _ & Hcases).
  exists evs. split; [exact Htrace|].
  assert (Hdelivered : forall l,
    Sorted Z.le l -> Forall in_percent_range l ->
    map p_progress (published sessionId evs) = l ->
    forall delivered,
      sublist delivered (published sessionId evs) ->
      Sorted Z.le (map p_progress delivered)
      /\ Forall in_percent_range (map p_progress delivered)).
  { intros l Hsorted Hrange Hl delivered Hsub.
    apply (fmap_sublist p_progress) in Hsub.
    change (sublist (map p_progress delivered)
                    (map p_progress (published sessionId evs))) in Hsub.
    rewrite Hl in Hsub.
    split; [eapply sublist_sorted|eapply sublist_in_range]; eassumption. }
  unfold stored_progress. rewrite Hzero.
  destruct Hcases
    as [(cause & _ & Hfinal & Hsaved & Hpub & _)
       |(d & a & tc & rep & calls & _ & _ & _ & _ & Hfinal & Hsaved & Hpub & _)];
    rewrite Hsaved; subst final;
    cbn [map progress failed_of analyzing_of testing_of completed_of merged
         over to_failed to_analyzing to_testing to_completed
         u_progress]; rewrite ?Hzero.
  - split; [percent_list|]. split; [percent_list|].
    apply (Hdelivered [10; 20]); [percent_list|percent_list|exact Hpub].
  - split; [percent_list|]. split; [percent_list|].
    apply (Hdelivered [10; 20; 60; 100]); [percent_list|percent_list|exact Hpub].
Qed.

End Progress.

Lemma progress_is_monotone_witness :
  exists evs,
    trace (processReview Scenario.tests_pass Scenario.sid
             (submit Scenario.tests_pass Scenario.security_request
                Scenario.boot).2).2
    = trace (submit Scenario.tests_pass Scenario.security_request
               Scenario.boot).2 ++ evs
    /\ Sorted Z.le (0 :: stored_progress Scenario.sid evs).
Proof.
  destruct (progress_is_monotone Scenario.tests_pass Scenario.sid
              (submit Scenario.tests_pass Scenario.security_request
                 Scenario.boot).2
              (submitted Scenario.tests_pass Scenario.security_request
                 Scenario.source Scenario.boot)
              eq_refl eq_refl eq_refl)
    as (evs & Htrace & Hsorted & _).
  exists evs. split; assumption.
Defined.

(** ** The execution phase *)

(** C2, as stated, fails: the Council answers without test code and the
    session is nevertheless stored with status [testing] between
    [analyzing] and [completed]. *)
Lemma session_without_tests_is_stored_testing :
  prop (Some Scenario.review_without_tests) "test_code" = Ok None
  /\ stored_statuses Scenario.sid
       (trace (Scenario.lifetime Scenario.no_tests Scenario.security_request))
     = [pending; analyzing; testing; completed].
Proof. split; reflexivity. Qed.

(** C3, as stated, fails: the sandbox service cannot be reached, and the
    session ends [completed] with no error cause and no error event. *)
Lemma unreachable_sandbox_session_completes :
  sandbox_api Scenario.sandbox_unreachable "POST" "/sandbox/create"
    (Some (JObj [("environment", JStr "nodejs-18"); ("timeout", JNum 1800)]))
  = AxiosError None "connect ECONNREFUSED 127.0.0.1:8003"
  /\ sandbox_calls
       (trace (Scenario.lifetime Scenario.sandbox_unreachable
                 Scenario.security_request))
     = [("POST", "/sandbox/create")]
  /\ (fun s => (status s, error s))
       <$> (redis (Scenario.lifetime Scenario.sandbox_unreachable
                     Scenario.security_request)
              !! session_key Scenario.sid)
     = Some (completed, None)
  /\ published_errors Scenario.sid
       (trace (Scenario.lifetime Scenario.sandbox_unreachable
                 Scenario.security_request))
     = [].
Proof. repeat split. Qed.

(** C7, as stated, fails: the Council answers with an empty object; the
    session requested [security] and ends [completed] with no report and
    an empty list of per-capability statuses. *)
Lemma completed_without_report_or_statuses :
  (fun s => (status s, report s, agents s, quality_gates s))
    <$> (redis (Scenario.lifetime Scenario.hollow_review
                  Scenario.security_request)
           !! session_key Scenario.sid)
  = Some (completed, None, JArr [], JArr [JStr "security"]).
Proof. reflexivity. Qed.

(** C1: the driver on the input where the sandbox is created and the test
    run then times out. The sandbox [sb-123] was provisioned, the only
    calls made to the sandbox service are the creation and the run, and
    the sandbox is never deleted: the DELETE call sits after the run
    inside the [try], so the [catch] is reached without it. The session
    still ends [completed]. *)
Theorem sandbox_leaks_when_test_run_times_out :
  sandbox_api Scenario.tests_time_out "POST" "/sandbox/create"
    (Some (JObj [("environment", JStr "nodejs-18"); ("timeout", JNum 1800)]))
  = Data (JObj [("sandbox_id", JStr "sb-123")])
  /\ sandbox_calls
       (trace (Scenario.lifetime Scenario.tests_time_out
                 Scenario.security_request))
     = [("POST", "/sandbox/create"); ("POST", "/sandbox/sb-123/execute")]
  /\ releases "/sandbox/sb-123"
       (trace (Scenario.lifetime Scenario.tests_time_out
                 Scenario.security_request))
     = 0%nat
  /\ status <$> (redis (Scenario.lifetime Scenario.tests_time_out
                          Scenario.security_request)
                   !! session_key Scenario.sid)
     = Some completed.
Proof. repeat split. Qed.

(** On the path where every sandbox call succeeds, the same sandbox is
    deleted once. *)
Example sandbox_released_once_when_tests_run :
  releases "/sandbox/sb-123"
    (trace (Scenario.lifetime Scenario.tests_pass Scenario.security_request))
  = 1%nat.
Proof. reflexivity. Qed.

Section Execution.

Variable env : Env.

(** C2, amended. When the Council's answer carries no test code, the
    driver makes no call to the sandbox service; the session is still
    written as [testing] with progress 60 after the analysis, and then as
    [completed] with progress 100. *)
Theorem no_tests_no_execution sessionId w session d test_code :
  redis w !! session_key sessionId = Some session ->
  id session = sessionId ->
  council_api env "/council/review" (councilRequest session) = Data d ->
  prop (Some d) "test_code" = Ok test_code ->
  truthy test_code = false ->
  exists evs,
    trace (processReview env sessionId w).2 = trace w ++ evs
    /\ sandbox_calls evs = []
    /\ stored_statuses sessionId evs = [analyzing; testing; completed]
    /\ stored_progress sessionId evs = [10; 60; 100].
Proof.
  intros H Hid Hc Htc Hfalsy.
  destruct (processReview_outcome env _ _ _ H Hid)
    as (evs & final & _ & _ & Htrace & _ & Hcases).
  exists evs. split; [exact Htrace|].
  destruct Hcases
    as [(cause & Hnull & _)
       |(d' & a & tc & rep & calls & Hc' & _ & Htc' & _ & Hfinal & Hsaved & _
         & _ & Hcalls & _ & Hnone)].
  - rewrite Hc in Hnull. subst d. discriminate.
  - rewrite Hc in Hc'. injection Hc' as <-.
    rewrite Htc in Htc'. injection Htc' as <-.
    rewrite Hcalls, (Hnone Hfalsy).
    unfold stored_statuses, stored_progress. rewrite Hsaved. subst final.
    repeat split.
Qed.

(** C3, amended. Once the execution phase is entered (the Council's
    answer carries test code), nothing the sandbox service does fails the
    session: whatever it answers to each call, a transport error
    (unreachable, timeout) included, the driver returns normally, the
    session is written as [completed] with progress 100, no error cause is
    recorded and no error event is published. The phase, entered in the
    world [w2] that the write of [testing] leaves, hands on a response
    whose [report] is the one stored with [completed]; when a call of the
    phase throws, the message of the error is the [test_results] of that
    response: for a transport error of the creation or of the test run,
    the text "Sandbox service error: " followed by the message of the
    transport. *)
Theorem execution_errors_are_absorbed sessionId w session d test_code :
  redis w !! session_key sessionId = Some session ->
  id session = sessionId ->
  council_api env "/council/review" (councilRequest session) = Data d ->
  prop (Some d) "test_code" = Ok test_code ->
  truthy test_code = true ->
  exists evs final w2 response,
    (processReview env sessionId w).1 = Ok tt
    /\ trace (processReview env sessionId w).2 = trace w ++ evs
    /\ redis (processReview env sessionId w).2 !! session_key sessionId
       = Some final
    /\ status final = completed
    /\ progress final = 100
    /\ error final = error session
    /\ stored_statuses sessionId evs = [analyzing; testing; completed]
    /\ published_errors sessionId evs = []
    /\ (try_catch (run_tests env session d) (on_sandbox_error d) w2).1
       = Ok response
    /\ trace (processReview env sessionId w).2
       = trace (try_catch (run_tests env session d) (on_sandbox_error d) w2).2
         ++ [Saved final;
             EmitProgress sessionId
               (mkProgress completed 100 "Review complete!" (report final))]
    /\ prop (Some response) "report" = Ok (report final)
    /\ (forall e w3,
          run_tests env session d w2 = (Throw e, w3) ->
          prop (Some response) "test_results"
          = Ok (Some (JObj [("error", JStr e)])))
    /\ (forall message,
          sandbox_api env "POST" "/sandbox/create"
            (Some (sandbox_config session))
          = AxiosError None message ->
          prop (Some response) "test_results"
          = Ok (Some (JObj [("error",
                             JStr ("Sandbox service error: " +:+ message))])))
    /\ (forall sandbox sandboxId message,
          sandbox_api env "POST" "/sandbox/create"
            (Some (sandbox_config session))
          = Data sandbox ->
          prop (Some sandbox) "sandbox_id" = Ok sandboxId ->
          sandbox_api env "POST"
            ("/sandbox/" +:+ interpolate sandboxId +:+ "/execute")
            (Some (test_run session (own_prop d "code_files")
                     (own_prop d "test_files")))
          = AxiosError None message ->
          prop (Some response) "test_results"
          = Ok (Some (JObj [("error",
                             JStr ("Sandbox service error: " +:+ message))]))).
Proof.
  intros H Hid Hc Htc Htruthy.
  assert (exists l, d = JObj l) as [l ->].
  { destruct d; try (simpl in Htc; inversion Htc; subst; discriminate).
    eauto. }
  rewrite prop_object in Htc. injection Htc as <-.
  destruct (processReview_tested env _ _ _ _ H Hid Hc Htruthy)
    as (l' & calls & Hexec & Hl' & Hcalls & Hrun).
  cbv zeta in Hexec, Hrun.
  match type of Hexec with
  | try_catch _ _ ?x = _ => set (w2 := x) in *
  end.
  assert (Hrecorded : forall e w3,
    run_tests env session (JObj l) w2 = (Throw e, w3) ->
    prop (Some (JObj l')) "test_results"
    = Ok (Some (JObj [("error", JStr e)]))).
  { intros e w3 Hthrow.
    rewrite (execution_phase_records env _ _ _ _ _ Hthrow) in Hexec.
    injection Hexec as <- _. rewrite prop_object. f_equal.
    apply assoc_assign. }
  eexists _, _, w2, (JObj l').
  rewrite Hrun, Hexec. cbn [fst snd].
  split; [reflexivity|].
  split.
  { unfold w2, started. cbn [log after_update trace]. rewrite <- !app_assoc.
    reflexivity. }
  split; [cbn [log after_update redis id merged]; rewrite Hid;
          apply lookup_insert_eq|].
  split; [reflexivity|]. split; [reflexivity|]. split; [reflexivity|].
  split.
  { unfold stored_statuses.
    repeat (cbn [app saved_sessions id merged];
            rewrite ?Hid, ?String.eqb_refl, ?saved_sessions_app,
              ?(sandbox_only_saved _ _ Hcalls)).
    reflexivity. }
  split.
  { cbn [app published_errors]. rewrite published_errors_app.
    now rewrite (sandbox_only_published_errors _ _ Hcalls). }
  split; [reflexivity|].
  split.
  { cbn [log after_update trace merged report over to_completed u_report].
    rewrite <- !app_assoc. reflexivity. }
  split; [reflexivity|].
  split; [exact Hrecorded|].
  split.
  - intros message Hcreate. eapply Hrecorded.
    exact (run_tests_create_fails env _ _ _ _ _ Hcreate).
  - intros sandbox sandboxId message Hcreate Hsandbox Hexecute.
    eapply Hrecorded.
    exact (run_tests_execute_fails env _ _ _ _ _ _ _ Hcreate Hsandbox
             Hexecute).
Qed.

(** C7, amended. A session that ends [completed] carries what the
    Council answered, not what was requested: its [report] is the
    [report] of the Council's answer ([undefined] when the answer has
    none) and its list of per-capability statuses is the [agents] of the
    answer (the empty list when the answer has none); [quality_gates]
    keeps the requested capabilities and is not compared with them. *)
Theorem completed_session_mirrors_council sessionId w session final :
  redis w !! session_key sessionId = Some session ->
  id session = sessionId ->
  redis (processReview env sessionId w).2 !! session_key sessionId
  = Some final ->
  status final = completed ->
  exists d response_agents final_report,
    council_api env "/council/review" (councilRequest session) = Data d
    /\ prop (Some d) "agents" = Ok response_agents
    /\ prop (Some d) "report" = Ok final_report
    /\ report final = final_report
    /\ agents final = or_else response_agents (JArr [])
    /\ quality_gates final = quality_gates session
    /\ progress final = 100.
Proof.
  intros H Hid Hfinal Hcompleted.
  destruct (processReview_outcome env _ _ _ H Hid)
    as (evs & final' & _ & Hredis & _ & _ & Hcases).
  rewrite Hredis, lookup_insert_eq in Hfinal. injection Hfinal as ->.
  destruct Hcases
    as [(cause & _ & -> & _)
       |(d & a & tc & rep & calls & Hc & Ha & _ & Hrep & -> & _)].
  - discriminate Hcompleted.
  - exists d, a, rep. repeat split; assumption.
Qed.

End Execution.

Lemma no_tests_no_execution_witness :
  exists evs,
    trace (processReview Scenario.no_tests Scenario.sid
             (submit Scenario.no_tests Scenario.security_request
                Scenario.boot).2).2
    = trace (submit Scenario.no_tests Scenario.security_request
               Scenario.boot).2 ++ evs
    /\ sandbox_calls evs = []
    /\ stored_statuses Scenario.sid evs = [analyzing; testing; completed].
Proof.
  destruct (no_tests_no_execution Scenario.no_tests Scenario.sid
              (submit Scenario.no_tests Scenario.security_request
                 Scenario.boot).2
              (submitted Scenario.no_tests Scenario.security_request
                 Scenario.source Scenario.boot)
              Scenario.review_without_tests None
              eq_refl eq_refl eq_refl eq_refl eq_refl)
    as (evs & Htrace & Hcalls & Hstatuses & _).
  exists evs. repeat split; assumption.
Defined.

Lemma execution_errors_are_absorbed_witness :
  exists final response,
    redis (processReview Scenario.sandbox_unreachable Scenario.sid
             (submit Scenario.sandbox_unreachable Scenario.security_request
                Scenario.boot).2).2 !! session_key Scenario.sid
    = Some final
    /\ status final = completed
    /\ error final = None
    /\ prop (Some response) "report" = Ok (report final)
    /\ prop (Some response) "test_results"
       = Ok (Some (JObj [("error",
                          JStr ("Sandbox service error: "
                                +:+ "connect ECONNREFUSED 127.0.0.1:8003"))])).
Proof.
  destruct (execution_errors_are_absorbed Scenario.sandbox_unreachable
              Scenario.sid
              (submit Scenario.sandbox_unreachable Scenario.security_request
                 Scenario.boot).2
              (submitted Scenario.sandbox_unreachable
                 Scenario.security_request Scenario.source Scenario.boot)
              Scenario.review_with_tests
              (Some (JStr "test('adds', () => expect(add(1, 2)).toBe(3))"))
              eq_refl eq_refl eq_refl eq_refl eq_refl)
    as (evs & final & w2 & response & _ & _ & Hfinal & Hstatus & _ & Herror
        & _ & _ & _ & _ & Hreport & _ & Hcreate & _).
  exists final, response. repeat split; try assumption.
  exact (Hcreate _ eq_refl).
Defined.

Lemma completed_session_mirrors_council_witness :
  exists d response_agents final_report,
    council_api Scenario.hollow_review "/council/review"
      (councilRequest (submitted Scenario.hollow_review
                         Scenario.security_request Scenario.source
                         Scenario.boot))
    = Data d
    /\ prop (Some d) "agents" = Ok response_agents
    /\ prop (Some d) "report" = Ok final_report
    /\ final_report = None
    /\ or_else response_agents (JArr []) = JArr [].
Proof.
  destruct (completed_session_mirrors_council Scenario.hollow_review
              Scenario.sid
              (submit Scenario.hollow_review Scenario.security_request
                 Scenario.boot).2
              (submitted Scenario.hollow_review Scenario.security_request
                 Scenario.source Scenario.boot)
              (completed_of
                 (submitted Scenario.hollow_review Scenario.security_request
                    Scenario.source Scenario.boot)
                 None None (Scenario.iso 3) (Scenario.iso 4) (Scenario.iso 5))
              eq_refl eq_refl eq_refl eq_refl)
    as (d & response_agents & final_report & Hc & Ha & Hrep & Hreport
        & Hagents & _).
  exists d, response_agents, final_report.
  repeat split; try assumption.
  - now rewrite <- Hreport.
  - now rewrite <- Hagents.
Defined.

(** ** Fixes *)

(** C5, as stated, fails: the Council answers the review with an empty
    object, the session ends [completed], and a fix request on it is
    refused with 400 "No report available". *)
Lemma fix_refuses_completed_session_without_report :
  status <$> (redis (Scenario.lifetime Scenario.hollow_review
                       Scenario.security_request)
                !! session_key Scenario.sid)
  = Some completed
  /\ (fix_review Scenario.hollow_review Scenario.sid (Some (JObj []))
        (Scenario.lifetime Scenario.hollow_review
           Scenario.security_request)).1
     = Ok no_report.
Proof. split; reflexivity. Qed.

Lemma prop_own (d : JSON) k : d <> JNull -> prop (Some d) k = Ok (own_prop d k).
Proof. destruct d; try reflexivity. intros Hd. now destruct Hd. Qed.

(** The filter of [fix_review] keeps the findings whose severity is among
    the requested priorities. *)
Lemma filter_result_requested priorities fixes :
  Forall (fun f => f <> JNull) fixes ->
  filter_result
    (fun f =>
       match prop (Some f) "severity" with
       | Ok severity => includes (JArr priorities) severity
       | Throw e => Throw e
       end) fixes
  = Ok (List.filter (requested priorities) fixes).
Proof.
  induction 1 as [|f fixes Hf _ IH]; [reflexivity|].
  cbn [filter_result List.filter]. rewrite (prop_own f "severity" Hf), IH.
  reflexivity.
Qed.

(** The filter of [fix_review] throws on a list that has a [null] entry:
    reading [severity] on it is a TypeError. *)
Lemma filter_result_null priorities fixes :
  In JNull fixes ->
  filter_result
    (fun f =>
       match prop (Some f) "severity" with
       | Ok severity => includes (JArr priorities) severity
       | Throw e => Throw e
       end) fixes
  = Throw "Cannot read properties of null (reading 'severity')".
Proof.
  induction fixes as [|f fixes IH]; [intros []|].
  intros [->|Hin]; [reflexivity|].
  cbn [filter_result]. rewrite (IH Hin).
  destruct f; reflexivity.
Qed.

Section Fix.

Variable env : Env.

(** C5, amended. A fix request is gated on the stored report, not on the
    state. (1) A session without a report is refused with 400 "No report
    available", whatever its state. (2) Every value a session takes in
    Redis during its lifetime other than [completed] is without a report,
    so a fix request served while the session is not completed is
    refused. (3) For a session with a report whose [priority_fixes] is a
    list, and requested priorities that are a list ([critical] and [high]
    when the request names none): when an entry of [priority_fixes] is
    [null] the request is answered 500 and the Council is not called;
    when none is, the findings whose severity is among the requested
    priorities are sent to the Council's fix endpoint, and the request is
    answered 200 with the Council's answer when that is not [null], 500
    when it is [null], and 500 when the call fails, the cause being
    "Council service error: " followed by the text of the response's
    detail, or by the message of the transport when there is no
    response. The stored session is not changed. *)
Theorem fix_is_gated_on_report sessionId req_body fix_priorities :
  prop req_body "fix_priorities" = Ok fix_priorities ->
  (forall w session,
      redis w !! session_key sessionId = Some session ->
      truthy (report session) = false ->
      fix_review env sessionId req_body w = (Ok no_report, w))
  /\ (forall w session evs stored w',
         redis w !! session_key sessionId = Some session ->
         id session = sessionId ->
         report session = None ->
         trace (processReview env sessionId w).2 = trace w ++ evs ->
         In stored (session :: saved_sessions sessionId evs) ->
         status stored <> completed ->
         redis w' !! session_key sessionId = Some stored ->
         fix_review env sessionId req_body w' = (Ok no_report, w'))
  /\ (forall w session fixes priorities,
         redis w !! session_key sessionId = Some session ->
         truthy (report session) = true ->
         prop (report session) "priority_fixes" = Ok (Some (JArr fixes)) ->
         with_default fix_priorities (JArr [JStr "critical"; JStr "high"])
         = JArr priorities ->
         let payload :=
           JObj [("code", code session);
                 ("language", language session);
                 ("findings", JArr (List.filter (requested priorities) fixes))]
         in
         let w' := log w [Http Council "POST" "/council/fix" (Some payload)] in
         (In JNull fixes ->
          exists message,
            fix_review env sessionId req_body w
            = (Ok (server_error message), w))
         /\ (Forall (fun f => f <> JNull) fixes ->
             match council_api env "/council/fix" payload with
             | Data JNull =>
                 exists message,
                   fix_review env sessionId req_body w
                   = (Ok (server_error message), w')
             | Data d =>
                 fix_review env sessionId req_body w
                 = (Ok {| http_status := 200;
                          body := JObj (object
                            [("session_id", Some (JStr sessionId));
                             ("fixes_applied", own_prop d "fixes_applied");
                             ("fixed_code", own_prop d "fixed_code");
                             ("changes", own_prop d "changes");
                             ("language", Some (language session));
                             ("needs_review", own_prop d "needs_review")]) |},
                    w')
             | AxiosError detail message =>
                 exists cause,
                   fix_review env sessionId req_body w
                   = (Ok (server_error cause), w')
                   /\ (detail = None ->
                       cause = "Council service error: " +:+ message)
                   /\ (forall text,
                         detail = Some (JStr text) -> text <> "" ->
                         cause = "Council service error: " +:+ text)
             end)).
Proof.
  intros Hfp.
  assert (Hgate : forall w session,
    redis w !! session_key sessionId = Some session ->
    truthy (report session) = false ->
    fix_review env sessionId req_body w = (Ok no_report, w)).
  { intros w session H Hnone.
    unfold fix_review, try_catch. unfold bind at 1, lift at 1. rewrite Hfp.
    unfold bind at 1, getSession at 1. rewrite H, Hnone. reflexivity. }
  split; [exact Hgate|]. split.
  - intros w session evs stored w' H Hid Hreport Htrace Hin Hstatus Hstored.
    apply (Hgate _ _ Hstored).
    destruct (processReview_outcome env _ _ _ H Hid)
      as (evs' & final & _ & _ & Htrace' & _ & Hcases).
    rewrite Htrace in Htrace'. apply app_inv_head in Htrace'. subst evs'.
    destruct Hcases
      as [(cause & _ & -> & Hsaved & _)
         |(d & a & tc & rep & calls & _ & _ & _ & _ & -> & Hsaved & _)];
      rewrite Hsaved in Hin; cbn [In] in Hin;
      repeat (destruct Hin as [<-|Hin]);
      try contradiction;
      try (cbn [report merged analyzing_of failed_of testing_of over
                to_analyzing to_failed to_testing u_report];
           now rewrite Hreport).
  - intros w session fixes priorities H Htruthy Hfixes Hpriorities
      payload w'.
    split.
    { intros Hnull. eexists.
      unfold fix_review, try_catch.
      unfold bind at 1, lift at 1. rewrite Hfp.
      unfold bind at 1, getSession at 1. rewrite H, Htruthy.
      cbn [negb]. unfold bind at 1, lift at 1. rewrite Hfixes.
      unfold bind at 1, lift at 1. unfold array_filter.
      rewrite Hpriorities, (filter_result_null _ _ Hnull).
      reflexivity. }
    intros Hwf.
    assert (Hcall : forall k : JSON -> M Response,
      (fixResponse <- callCouncil env "/council/fix" payload ;; k fixResponse)
        w
      = match council_api env "/council/fix" payload with
        | Data d => k d w'
        | AxiosError detail message =>
            (Throw ("Council service error: "
                    +:+ service_error detail message), w')
        end).
    { intros k. unfold bind. rewrite callCouncil_run.
      now destruct (council_api env "/council/fix" payload). }
    destruct (council_api env "/council/fix" payload)
      as [d|detail message] eqn:Hapi.
    + assert (Hrun : fix_review env sessionId req_body w
        = try_catch
            (fixes_applied <- lift (prop (Some d) "fixes_applied") ;;
             fixed_code <- lift (prop (Some d) "fixed_code") ;;
             changes <- lift (prop (Some d) "changes") ;;
             needs_review <- lift (prop (Some d) "needs_review") ;;
             respond 200 [("session_id", Some (JStr sessionId));
                          ("fixes_applied", fixes_applied);
                          ("fixed_code", fixed_code);
                          ("changes", changes);
                          ("language", Some (language session));
                          ("needs_review", needs_review)])
            (fun message => respond 500 [("error", Some (JStr message))]) w').
      { unfold fix_review, try_catch.
        unfold bind at 1, lift at 1. rewrite Hfp.
        unfold bind at 1, getSession at 1. rewrite H, Htruthy.
        cbn [negb]. unfold bind at 1, lift at 1. rewrite Hfixes.
        unfold bind at 1, lift at 1. unfold array_filter.
        rewrite Hpriorities, (filter_result_requested _ _ Hwf).
        cbn [as_array]. fold payload. rewrite Hcall. reflexivity. }
      destruct d; try (rewrite Hrun; reflexivity).
      eexists. rewrite Hrun. reflexivity.
    + eexists. split; [|split].
      * unfold fix_review, try_catch.
        unfold bind at 1, lift at 1. rewrite Hfp.
        unfold bind at 1, getSession at 1. rewrite H, Htruthy.
        cbn [negb]. unfold bind at 1, lift at 1. rewrite Hfixes.
        unfold bind at 1, lift at 1. unfold array_filter.
        rewrite Hpriorities, (filter_result_requested _ _ Hwf).
        cbn [as_array]. fold payload. rewrite Hcall. reflexivity.
      * intros ->. reflexivity.
      * intros text -> Htext. unfold service_error.
        cbn [truthy interpolate to_string].
        destruct (String.eqb_spec text ""); [contradiction|reflexivity].
Qed.

End Fix.

Lemma fix_is_gated_on_report_witness :
  answer_code
    (fix_review Scenario.no_tests Scenario.sid (Some (JObj []))
       (Scenario.lifetime Scenario.no_tests Scenario.security_request))
  = Some 200%nat
  /\ sandbox_calls
       (trace (fix_review Scenario.no_tests Scenario.sid (Some (JObj []))
                 (Scenario.lifetime Scenario.no_tests
                    Scenario.security_request)).2)
     = [].
Proof.
  destruct (fix_is_gated_on_report Scenario.no_tests Scenario.sid
              (Some (JObj [])) None eq_refl) as (_ & _ & Hforward).
  destruct (Hforward
             (Scenario.lifetime Scenario.no_tests Scenario.security_request)
             (completed_of
                (submitted Scenario.no_tests Scenario.security_request
                   Scenario.source Scenario.boot)
                (own_prop Scenario.review_without_tests "agents")
                (Some Scenario.security_report)
                (Scenario.iso 3) (Scenario.iso 4) (Scenario.iso 5))
             [JObj [("severity", JStr "critical");
                    ("title", JStr "SQL injection")];
              JObj [("severity", JStr "low");
                    ("title", JStr "Unused variable")]]
             [JStr "critical"; JStr "high"]
             eq_refl eq_refl eq_refl eq_refl) as [_ Hcalled].
  rewrite (Hcalled ltac:(repeat constructor; discriminate)).
  split; reflexivity.
Defined.

(** ** Release of the sandbox *)

Section Release.

Variable env : Env.

(** Once the sandbox is created, the calls of the execution phase are
    determined by the answer to the test run: the DELETE call follows a
    run that answered, and is not made after a run that failed. *)
Lemma execution_phase_calls session l w sandbox sandboxId :
  sandbox_api env "POST" "/sandbox/create" (Some (sandbox_config session))
  = Data sandbox ->
  prop (Some sandbox) "sandbox_id" = Ok sandboxId ->
  let run_url := "/sandbox/" +:+ interpolate sandboxId +:+ "/execute" in
  let run_body :=
    Some (test_run session (assoc "code_files" l) (assoc "test_files" l)) in
  exists l',
    try_catch (run_tests env session (JObj l)) (on_sandbox_error (JObj l)) w
    = (Ok (JObj l'),
       log w (Http Sandbox "POST" "/sandbox/create"
                (Some (sandbox_config session))
              :: Http Sandbox "POST" run_url run_body
              :: match sandbox_api env "POST" run_url run_body with
                 | Data _ =>
                     [Http Sandbox "DELETE"
                        ("/sandbox/" +:+ interpolate sandboxId) None]
                 | AxiosError _ _ => []
                 end)).
Proof.
  intros Hcreate Hid run_url run_body.
  assert (Hcatch : forall message calls,
    exists l',
      on_sandbox_error (JObj l) message (log w calls)
      = (Ok (JObj l'), log w calls)).
  { intros message calls. unfold on_sandbox_error, lift. simpl. eauto. }
  unfold try_catch, run_tests.
  unfold bind at 1. rewrite callSandbox_run. cbn [truthy sandbox_config].
  fold (sandbox_config session). rewrite Hcreate.
  unfold bind at 1, lift at 1. rewrite Hid.
  unfold bind at 1, lift at 1. rewrite prop_object.
  unfold bind at 1, lift at 1. rewrite prop_object.
  unfold bind at 1. rewrite callSandbox_run, log_log.
  cbn [truthy test_run]. fold (test_run session (assoc "code_files" l)
                                 (assoc "test_files" l)).
  fold run_url run_body.
  destruct (sandbox_api env "POST" run_url run_body) as [testResult|? ?];
    [|apply Hcatch].
  unfold bind at 1. rewrite callSandbox_run, log_log. cbn [truthy app].
  destruct (sandbox_api env "DELETE" _ None) as [gone|? ?]; [|apply Hcatch].
  unfold bind at 1, lift at 1.
  destruct (prop (Some testResult) "results") as [results|?]; [|apply Hcatch].
  unfold lift. destruct results; simpl; eauto.
Qed.

(** With a sandbox created under [sandboxId], the number of DELETE calls
    on it is one after a test run that answered and zero after a test run
    that failed. *)
Lemma releases_follow_the_test_run session l w sandbox sandboxId :
  sandbox_api env "POST" "/sandbox/create" (Some (sandbox_config session))
  = Data sandbox ->
  prop (Some sandbox) "sandbox_id" = Ok sandboxId ->
  exists calls,
    trace (try_catch (run_tests env session (JObj l))
             (on_sandbox_error (JObj l)) w).2
    = trace w ++ calls
    /\ releases ("/sandbox/" +:+ interpolate sandboxId) calls
       = match sandbox_api env "POST"
                 ("/sandbox/" +:+ interpolate sandboxId +:+ "/execute")
                 (Some (test_run session (assoc "code_files" l)
                          (assoc "test_files" l)))
         with
         | Data _ => 1%nat
         | AxiosError _ _ => 0%nat
         end.
Proof.
  intros Hcreate Hid.
  destruct (execution_phase_calls session l w _ _ Hcreate Hid) as [l' Hrun].
  cbv zeta in Hrun. rewrite Hrun. cbn [snd log trace].
  eexists. split; [reflexivity|].
  unfold releases.
  destruct (sandbox_api env "POST"
              ("/sandbox/" +:+ interpolate sandboxId +:+ "/execute") _);
    cbn [sandbox_calls];
    rewrite !filter_cons; repeat case_decide; try congruence; reflexivity.
Qed.

End Release.

(** ** Failed runs *)

Section FailedRuns.

Variable env : Env.

(** A run that ends [failed] failed at the Council call: the stored
    session keeps the progress 10 written before the call, and the
    submitted input. *)
Lemma failed_run_keeps_progress sessionId w session final :
  redis w !! session_key sessionId = Some session ->
  id session = sessionId ->
  redis (processReview env sessionId w).2 !! session_key sessionId
  = Some final ->
  status final = failed ->
  progress final = 10
  /\ report final = report session
  /\ agents final = agents session
  /\ code final = code session
  /\ quality_gates final = quality_gates session
  /\ is_Some (error final).
Proof.
  intros H Hid Hfinal Hfailed.
  destruct (processReview_outcome env _ _ _ H Hid)
    as (evs & final' & _ & Hredis & _ & _ & Hcases).
  rewrite Hredis, lookup_insert_eq in Hfinal. injection Hfinal as ->.
  destruct Hcases
    as [(cause & _ & -> & _)
       |(d & a & tc & rep & calls & _ & _ & _ & _ & -> & _)].
  - repeat split. now exists cause.
  - discriminate Hfailed.
Qed.

End FailedRuns.

(** * Further properties of the service *)

(** ** The report route *)

Lemma get_report_run sessionId w :
  get_report sessionId w
  = (Ok match redis w !! session_key sessionId with
        | None => not_found
        | Some session =>
            if bool_decide (status session = completed)
            then {| http_status := 200;
                    body := JObj (object
                      [("session_id", Some (JStr (id session)));
                       ("report", report session)]) |}
            else not_completed_yet
        end, w).
Proof.
  unfold get_report, try_catch, bind, getSession.
  destruct (redis w !! session_key sessionId) as [session|]; [|reflexivity].
  now destruct (bool_decide (status session = completed)).
Qed.

(** X1. The report route answers 200 exactly for a stored session whose
    status is [completed]; it answers 404 exactly when the session is not
    stored, 400 otherwise, and it never changes the world. *)
Theorem report_served_exactly_when_completed sessionId w :
  (answer_code (get_report sessionId w) = Some 200%nat
   <-> exists session, redis w !! session_key sessionId = Some session
                       /\ status session = completed)
  /\ (answer_code (get_report sessionId w) = Some 404%nat
      <-> redis w !! session_key sessionId = None)
  /\ (answer_code (get_report sessionId w) = Some 400%nat
      <-> exists session, redis w !! session_key sessionId = Some session
                          /\ status session <> completed)
  /\ (get_report sessionId w).2 = w.
Proof.
  rewrite get_report_run. unfold answer_code. cbn [fst snd].
  destruct (redis w !! session_key sessionId) as [session|].
  - destruct (bool_decide (status session = completed)) eqn:Hs.
    + apply bool_decide_eq_true in Hs. cbn [http_status].
      repeat split; try discriminate; eauto.
      * intros (s & [= <-] & Hne). contradiction.
    + apply bool_decide_eq_false in Hs. cbn [http_status not_completed_yet].
      repeat split; try discriminate; eauto.
      * intros (s & [= <-] & He). contradiction.
  - cbn [http_status not_found].
    repeat split; try discriminate; try reflexivity.
    + intros (s & Hs & _). discriminate.
    + intros (s & Hs & _). discriminate.
Qed.

Section ReportAfterRun.

Variable env : Env.

(** X2. After a run of the driver the report route serves what the Council
    answered: the [report] of its answer under 200 (the key is absent
    when the answer has no report), and 400 "Review not completed yet"
    when the Council call failed or answered [null]. *)
Theorem report_follows_the_run sessionId w session :
  redis w !! session_key sessionId = Some session ->
  id session = sessionId ->
  (get_report sessionId (processReview env sessionId w).2).1
  = Ok match council_api env "/council/review" (councilRequest session) with
       | Data JNull | AxiosError _ _ => not_completed_yet
       | Data d =>
           {| http_status := 200;
              body := JObj (object [("session_id", Some (JStr sessionId));
                                    ("report", own_prop d "report")]) |}
       end.
Proof.
  intros H Hid.
  destruct (processReview_outcome env _ _ _ H Hid)
    as (evs & final & _ & Hredis & _ & _ & Hcases).
  rewrite get_report_run, Hredis, lookup_insert_eq. cbn [fst].
  destruct Hcases
    as [(cause & Hnull & -> & _)
       |(d & a & tc & rep & calls & Hc & Ha & _ & Hrep & -> & _)].
  - cbn [bool_decide status failed_of merged over to_failed u_status].
    destruct (council_api env "/council/review" (councilRequest session));
      [now subst|reflexivity].
  - rewrite Hc.
    assert (Hd : d <> JNull) by (intros ->; discriminate).
    rewrite (prop_own d _ Hd) in Hrep. injection Hrep as <-.
    cbn [id report status completed_of testing_of analyzing_of merged over
         to_completed to_testing to_analyzing u_status u_report].
    rewrite Hid. now destruct d.
Qed.

End ReportAfterRun.

Lemma report_follows_the_run_witness :
  (get_report Scenario.sid
     (processReview Scenario.no_tests Scenario.sid
        (submit Scenario.no_tests Scenario.security_request
           Scenario.boot).2).2).1
  = Ok {| http_status := 200;
          body := JObj [("session_id", JStr Scenario.sid);
                        ("report", Scenario.security_report)] |}.
Proof.
  exact (report_follows_the_run Scenario.no_tests Scenario.sid
           (submit Scenario.no_tests Scenario.security_request
              Scenario.boot).2
           (submitted Scenario.no_tests Scenario.security_request
              Scenario.source Scenario.boot)
           eq_refl eq_refl).
Defined.

(** ** The scan routes *)

Section Scans.

Variable env : Env.

Lemma prop_code_object req_body code' :
  prop req_body "code" = Ok code' ->
  exists d, req_body = Some d /\ d <> JNull
            /\ forall k, prop req_body k = Ok (own_prop d k).
Proof.
  destruct req_body as [d|]; [|discriminate].
  intros H. exists d. assert (d <> JNull) by (intros ->; discriminate).
  repeat split; try assumption. intros k. now apply prop_own.
Qed.

Lemma scan_security_run req_body code' w :
  prop req_body "code" = Ok (Some code') ->
  truthy (Some code') = true ->
  scan_security env req_body w
  = (Ok match council_api env "/council/security"
                (scan_request req_body code') with
        | Data JNull =>
            server_error "Cannot read properties of null (reading 'findings')"
        | Data d =>
            {| http_status := 200;
               body := JObj [("findings",
                              or_else (own_prop d "findings") (JArr []))] |}
        | AxiosError detail message =>
            server_error (council_error detail message)
        end,
     log w [Http Council "POST" "/council/security"
              (Some (scan_request req_body code'))]).
Proof.
  intros Hcode Htruthy.
  destruct (prop_code_object _ _ Hcode) as (r & -> & Hr & Hprops).
  unfold scan_security, scan_request. rewrite (Hprops "language").
  unfold try_catch. unfold bind at 1, lift at 1. rewrite Hcode.
  unfold bind at 1, lift at 1.
  rewrite Htruthy. cbn [negb]. unfold bind at 1. rewrite callCouncil_run.
  destruct (council_api env "/council/security" _) as [d|detail message];
    [|reflexivity].
  unfold bind, lift. now destruct d.
Qed.

Lemma scan_performance_run req_body code' w :
  prop req_body "code" = Ok (Some code') ->
  truthy (Some code') = true ->
  scan_performance env req_body w
  = (Ok match council_api env "/council/performance"
                (scan_request req_body code') with
        | Data JNull =>
            server_error "Cannot read properties of null (reading 'findings')"
        | Data d =>
            {| http_status := 200;
               body := JObj [("findings",
                              or_else (own_prop d "findings") (JArr []));
                             ("benchmarks",
                              or_else (own_prop d "benchmarks") (JObj []))] |}
        | AxiosError detail message =>
            server_error (council_error detail message)
        end,
     log w [Http Council "POST" "/council/performance"
              (Some (scan_request req_body code'))]).
Proof.
  intros Hcode Htruthy.
  destruct (prop_code_object _ _ Hcode) as (r & -> & Hr & Hprops).
  unfold scan_performance, scan_request. rewrite (Hprops "language").
  unfold try_catch. unfold bind at 1, lift at 1. rewrite Hcode.
  unfold bind at 1, lift at 1.
  rewrite Htruthy. cbn [negb]. unfold bind at 1. rewrite callCouncil_run.
  destruct (council_api env "/council/performance" _) as [d|detail message];
    [|reflexivity].
  unfold bind, lift. now destruct d.
Qed.

Lemma generate_tests_run req_body code' w :
  prop req_body "code" = Ok (Some code') ->
  truthy (Some code') = true ->
  generate_tests env req_body w
  = (Ok match council_api env "/council/qa/generate-tests"
                (tests_request req_body code') with
        | Data JNull =>
            server_error "Cannot read properties of null (reading 'test_code')"
        | Data d =>
            {| http_status := 200;
               body := JObj (object
                 [("test_code", own_prop d "test_code");
                  ("test_count", own_prop d "test_count");
                  ("test_cases", own_prop d "test_cases");
                  ("coverage", own_prop d "coverage")]) |}
        | AxiosError detail message =>
            server_error (council_error detail message)
        end,
     log w [Http Council "POST" "/council/qa/generate-tests"
              (Some (tests_request req_body code'))]).
Proof.
  intros Hcode Htruthy.
  destruct (prop_code_object _ _ Hcode) as (r & -> & Hr & Hprops).
  unfold generate_tests, tests_request.
  rewrite (Hprops "language"), (Hprops "test_framework").
  unfold try_catch. unfold bind at 1, lift at 1. rewrite Hcode.
  unfold bind at 1, lift at 1. unfold bind at 1, lift at 1.
  rewrite Htruthy. cbn [negb]. unfold bind at 1. rewrite callCouncil_run.
  destruct (council_api env "/council/qa/generate-tests" _)
    as [d|detail message]; [|reflexivity].
  unfold bind, lift. now destruct d.
Qed.

Lemma scan_rejected (route : Env -> JsVal -> M Response) req_body code' w :
  route = scan_security \/ route = scan_performance
  \/ route = generate_tests ->
  prop req_body "code" = Ok code' ->
  truthy code' = false ->
  route env req_body w = (Ok code_required, w).
Proof.
  intros Hroute Hcode Hfalsy.
  destruct (prop_code_object _ _ Hcode) as (r & -> & Hr & Hprops).
  destruct Hroute as [->|[->| ->]].
  - unfold scan_security, try_catch. unfold bind at 1, lift at 1.
    rewrite Hcode. unfold bind at 1, lift at 1. rewrite (Hprops "language").
    destruct code'; [rewrite Hfalsy|]; reflexivity.
  - unfold scan_performance, try_catch. unfold bind at 1, lift at 1.
    rewrite Hcode. unfold bind at 1, lift at 1. rewrite (Hprops "language").
    destruct code'; [rewrite Hfalsy|]; reflexivity.
  - unfold generate_tests, try_catch. unfold bind at 1, lift at 1.
    rewrite Hcode. unfold bind at 1, lift at 1. rewrite (Hprops "language").
    unfold bind at 1, lift at 1. rewrite (Hprops "test_framework").
    destruct code'; [rewrite Hfalsy|]; reflexivity.
Qed.

End Scans.

Lemma council_calls_app tr tr' :
  council_calls (tr ++ tr') = council_calls tr ++ council_calls tr'.
Proof.
  induction tr as [|e tr IH]; [reflexivity|].
  destruct e as [| |[]| |]; simpl; try exact IH. now rewrite IH.
Qed.

(** An object literal has no key besides those written in it. *)
Lemma assoc_object_other k (l : list (string * JsVal)) :
  (forall k', In k' (map fst l) -> k <> k') ->
  assoc k (object l) = None.
Proof.
  induction l as [|[k0 [v|]] l IH]; intros Hk; cbn [object assoc].
  - reflexivity.
  - destruct (String.eqb_spec k k0) as [->|_].
    + exfalso. apply (Hk k0); [now left|reflexivity].
    + apply IH. intros k' Hk'. apply Hk. now right.
  - apply IH. intros k' Hk'. apply Hk. now right.
Qed.

Lemma or_else_truthy x d :
  truthy (Some d) = true -> truthy (Some (or_else x d)) = true.
Proof.
  intros Hd. destruct x as [v|]; [|exact Hd]. unfold or_else.
  destruct (truthy (Some v)) eqn:Hv; assumption.
Qed.

Section ScanProperties.

Variable env : Env.

(** X3. The three stateless routes validate the code the same way: a body
    whose [code] is missing or falsy is answered 400 "Code is required",
    and the world is unchanged, so the Council is not called. *)
Theorem scans_require_code req_body code' w :
  prop req_body "code" = Ok code' ->
  truthy code' = false ->
  scan_security env req_body w = (Ok code_required, w)
  /\ scan_performance env req_body w = (Ok code_required, w)
  /\ generate_tests env req_body w = (Ok code_required, w).
Proof.
  intros Hcode Hfalsy.
  repeat split; eapply (scan_rejected env); eauto.
Qed.

Lemma route_on_bad_body (route : Env -> JsVal -> M Response) req_body e w :
  route = scan_security \/ route = scan_performance
  \/ route = generate_tests ->
  prop req_body "code" = Throw e ->
  route env req_body w = (Ok (server_error e), w).
Proof.
  intros Hroute Hcode. destruct Hroute as [->|[->| ->]];
    [unfold scan_security|unfold scan_performance|unfold generate_tests];
    unfold try_catch; unfold bind at 1, lift at 1; now rewrite Hcode.
Qed.

Lemma truthy_cases (v : JsVal) :
  truthy v = false \/ exists c, v = Some c /\ truthy (Some c) = true.
Proof.
  destruct v as [c|]; [|now left].
  destruct (truthy (Some c)) eqn:Hc; [right; eauto|now left].
Qed.

(** X4. The stateless routes keep no state: whatever the body, each of them
    leaves Redis, the clock and the queue of drivers as they were, and
    adds to the trace at most one call, to its own Council endpoint. *)
Theorem scans_are_stateless req_body w :
  (exists calls,
      (scan_security env req_body w).2 = log w calls
      /\ (calls = []
          \/ exists data,
               calls = [Http Council "POST" "/council/security" (Some data)]))
  /\ (exists calls,
         (scan_performance env req_body w).2 = log w calls
         /\ (calls = []
             \/ exists data,
                  calls = [Http Council "POST" "/council/performance"
                             (Some data)]))
  /\ (exists calls,
         (generate_tests env req_body w).2 = log w calls
         /\ (calls = []
             \/ exists data,
                  calls = [Http Council "POST" "/council/qa/generate-tests"
                             (Some data)])).
Proof.
  destruct (prop req_body "code") as [code'|e] eqn:Hcode.
  - destruct (truthy_cases code') as [Hfalsy|(c & -> & Htruthy)].
    + rewrite (scan_rejected env scan_security _ _ w
                 (or_introl eq_refl) Hcode Hfalsy),
        (scan_rejected env scan_performance _ _ w
           (or_intror (or_introl eq_refl)) Hcode Hfalsy),
        (scan_rejected env generate_tests _ _ w
           (or_intror (or_intror eq_refl)) Hcode Hfalsy).
      repeat split; exists []; rewrite log_nil; auto.
    + rewrite (scan_security_run env _ _ w Hcode Htruthy),
        (scan_performance_run env _ _ w Hcode Htruthy),
        (generate_tests_run env _ _ w Hcode Htruthy).
      repeat split; eexists; (split; [reflexivity|right; eauto]).
  - rewrite (route_on_bad_body scan_security _ _ w
               (or_introl eq_refl) Hcode),
      (route_on_bad_body scan_performance _ _ w
         (or_intror (or_introl eq_refl)) Hcode),
      (route_on_bad_body generate_tests _ _ w
         (or_intror (or_intror eq_refl)) Hcode).
    repeat split; exists []; rewrite log_nil; auto.
Qed.


(** X6. A 200 answer of the test generator is built from the Council's
    answer to a request that carries the code with the language and the
    test framework of the body, ["javascript"] and ["jest"] when the
    body has none: it passes on [test_code], [test_count], [test_cases]
    and [coverage], each absent when the Council's answer has none, and
    no other key. *)
Theorem generated_tests_pass_through req_body w resp :
  (generate_tests env req_body w).1 = Ok resp ->
  http_status resp = 200%nat ->
  exists code' d,
    prop req_body "code" = Ok (Some code')
    /\ council_api env "/council/qa/generate-tests"
         (tests_request req_body code') = Data d
    /\ council_calls (trace (generate_tests env req_body w).2)
       = council_calls (trace w)
         ++ [("/council/qa/generate-tests",
              Some (tests_request req_body code'))]
    /\ body resp = JObj (object [("test_code", own_prop d "test_code");
                                 ("test_count", own_prop d "test_count");
                                 ("test_cases", own_prop d "test_cases");
                                 ("coverage", own_prop d "coverage")])
    /\ forall k, k <> "test_code" -> k <> "test_count" ->
                 k <> "test_cases" -> k <> "coverage" ->
                 own_prop (body resp) k = None.
Proof.
  destruct (prop req_body "code") as [code'|e] eqn:Hcode.
  - destruct (truthy_cases code') as [Hfalsy|(c & -> & Htruthy)].
    + rewrite (scan_rejected env generate_tests _ _ w
                 (or_intror (or_intror eq_refl)) Hcode Hfalsy).
      intros [= <-]; discriminate.
    + rewrite (generate_tests_run env _ _ w Hcode Htruthy). cbn [fst snd].
      destruct (council_api env "/council/qa/generate-tests" _)
        as [d|? ?] eqn:Hc; [|intros [= <-]; discriminate].
      intros Hresp H200.
      assert (Hd : d <> JNull)
        by (intros ->; injection Hresp as <-; discriminate).
      assert (Hbody : resp
        = {| http_status := 200;
             body := JObj (object
               [("test_code", own_prop d "test_code");
                ("test_count", own_prop d "test_count");
                ("test_cases", own_prop d "test_cases");
                ("coverage", own_prop d "coverage")]) |})
        by (destruct d; congruence).
      clear Hresp. subst resp. exists c, d.
      split; [reflexivity|]. split; [exact Hc|].
      split; [cbn [log trace]; now rewrite council_calls_app|].
      split; [reflexivity|].
      intros k H1 H2 H3 H4. cbn [body]. unfold own_prop at 1.
      apply assoc_object_other. intros k' Hk'.
      cbn [In map fst] in Hk'. intuition congruence.
  - rewrite (route_on_bad_body generate_tests _ _ w
               (or_intror (or_intror eq_refl)) Hcode).
    intros [= <-]; discriminate.
Qed.

End ScanProperties.

(** ** Keys of the store *)

Lemma session_key_inj a b : session_key a = session_key b -> a = b.
Proof.
  unfold session_key. intros H. simpl in H. injection H as H. exact H.
Qed.

Lemma well_keyed_id w sessionId session :
  well_keyed w ->
  redis w !! session_key sessionId = Some session ->
  id session = sessionId.
Proof.
  intros Hw H. specialize (Hw _ _ H). cbn beta in Hw.
  symmetry. now apply session_key_inj.
Qed.

Lemma well_keyed_insert w w' session :
  well_keyed w ->
  redis w' = <[session_key (id session) := session]> (redis w) ->
  well_keyed w'.
Proof.
  unfold well_keyed. intros Hw ->. now apply map_Forall_insert_2.
Qed.

Lemma well_keyed_boot : well_keyed Scenario.boot.
Proof. apply map_Forall_empty. Qed.

(** ** The driver as a whole *)

Section DriverInvariants.

Variable env : Env.

Lemma submit_well_keyed req_body w :
  well_keyed w -> well_keyed (submit env req_body w).2.
Proof.
  intros Hw. destruct (prop req_body "code") as [code'|e] eqn:Hcode.
  - destruct (truthy_cases code') as [Hfalsy|(c & -> & Htruthy)].
    + now rewrite (submit_rejected env _ _ w Hcode Hfalsy).
    + rewrite (submit_accepted env _ _ w Hcode Htruthy).
      eapply well_keyed_insert; [exact Hw|reflexivity].
  - unfold submit, try_catch. unfold bind at 1, lift at 1.
    now rewrite Hcode.
Qed.

(** X9. Every value the driver writes for a session keeps the submitted
    input: [id], [code], [language], [context], [quality_gates] and
    [created_at] are those of the session it found. *)
Theorem driver_keeps_the_input sessionId w session evs stored :
  redis w !! session_key sessionId = Some session ->
  id session = sessionId ->
  trace (processReview env sessionId w).2 = trace w ++ evs ->
  In stored (saved_sessions sessionId evs) ->
  id stored = id session
  /\ code stored = code session
  /\ language stored = language session
  /\ context stored = context session
  /\ quality_gates stored = quality_gates session
  /\ created_at stored = created_at session.
Proof.
  intros H Hid Htrace Hin.
  destruct (processReview_outcome env _ _ _ H Hid)
    as (evs' & final & _ & _ & Htrace' & _ & Hcases).
  rewrite Htrace in Htrace'. apply app_inv_head in Htrace'. subst evs'.
  destruct Hcases
    as [(cause & _ & -> & Hsaved & _)
       |(d & a & tc & rep & calls & _ & _ & _ & _ & -> & Hsaved & _)];
    rewrite Hsaved in Hin; cbn [In] in Hin;
    repeat (destruct Hin as [<-|Hin]); try contradiction;
    repeat split.
Qed.

End DriverInvariants.

(** ** Calls made by a run *)

Lemma sandbox_only_council evs : sandbox_only evs -> council_calls evs = [].
Proof.
  induction 1 as [|e evs He _ IH]; [reflexivity|].
  destruct e as [| |[]| |]; try contradiction. exact IH.
Qed.

Section RunCalls.

Variable env : Env.

Ltac observe_calls :=
  unfold started;
  cbn [snd log after_update trace];
  rewrite <- ?app_assoc;
  rewrite ?council_calls_app;
  cbn [app council_calls].

(** X11. Every run of the driver on a stored session calls the Council
    exactly once, on [/council/review], with the code, the language, the
    context and the capability set of the stored session, unchanged. *)
Theorem council_called_once_with_the_submission sessionId w session :
  redis w !! session_key sessionId = Some session ->
  id session = sessionId ->
  exists evs,
    trace (processReview env sessionId w).2 = trace w ++ evs
    /\ council_calls evs
       = [("/council/review",
           Some (JObj [("code", code session);
                       ("language", language session);
                       ("context", context session);
                       ("quality_gates", quality_gates session)]))].
Proof.
  intros H Hid.
  destruct (council_api env "/council/review" (councilRequest session))
    as [d|detail message] eqn:Hc.
  - destruct (prop (Some d) "agents") as [response_agents|e] eqn:Ha.
    + destruct (processReview_council_data env _ _ _ _ _ H Hid Hc Ha)
        as (test_code & final_report & calls & _ & _ & Hcalls & _ & Hrun).
      cbv zeta in Hrun. rewrite Hrun.
      eexists. split; [observe_calls; reflexivity|].
      observe_calls. rewrite ?council_calls_app.
      now rewrite (sandbox_only_council _ Hcalls).
    + assert (d = JNull) as -> by (destruct d; try discriminate; reflexivity).
      rewrite (processReview_council_null env _ _ _ H Hid Hc).
      eexists. split; [observe_calls; reflexivity|]. reflexivity.
  - rewrite (processReview_council_error env _ _ _ _ _ H Hid Hc).
    eexists. split; [observe_calls; reflexivity|]. reflexivity.
Qed.

End RunCalls.

Lemma council_called_once_with_the_submission_witness :
  exists evs,
    trace (processReview Scenario.tests_pass Scenario.sid
             (submit Scenario.tests_pass Scenario.security_request
                Scenario.boot).2).2
    = trace (submit Scenario.tests_pass Scenario.security_request
               Scenario.boot).2 ++ evs
    /\ council_calls evs
       = [("/council/review",
           Some (JObj [("code", Scenario.source);
                       ("language", JStr "javascript");
                       ("context", JStr "");
                       ("quality_gates", JArr [JStr "security"])]))].
Proof.
  exact (council_called_once_with_the_submission Scenario.tests_pass
           Scenario.sid
           (submit Scenario.tests_pass Scenario.security_request
              Scenario.boot).2
           (submitted Scenario.tests_pass Scenario.security_request
              Scenario.source Scenario.boot)
           eq_refl eq_refl).
Defined.

(** ** Order of the sandbox calls *)

Section SandboxOrder.

Variable env : Env.

(** The calls of the execution phase are a non-empty prefix of: create,
    run on the created id, delete the created id; the creation alone when
    it gave no id. *)
Lemma execution_phase_shape session l w :
  exists calls n,
    (try_catch (run_tests env session (JObj l)) (on_sandbox_error (JObj l))
       w).2 = log w calls
    /\ sandbox_calls calls
       = take n (calls_after
                   (sandbox_api env "POST" "/sandbox/create"
                      (Some (sandbox_config session))))
    /\ (1 <= n <= 3)%nat.
Proof.
  unfold calls_after, created_id.
  destruct (sandbox_api env "POST" "/sandbox/create"
              (Some (sandbox_config session))) as [sandbox|detail message]
    eqn:Hcreate.
  - destruct (prop (Some sandbox) "sandbox_id") as [sandboxId|e] eqn:Hid.
    + destruct (execution_phase_calls env session l w _ _ Hcreate Hid)
        as [l' Hrun].
      cbv zeta in Hrun. rewrite Hrun. cbn [snd].
      destruct (sandbox_api env "POST"
                  ("/sandbox/" +:+ interpolate sandboxId +:+ "/execute") _).
      * eexists _, 3%nat. split; [reflexivity|].
        split; [reflexivity|lia].
      * eexists _, 2%nat. split; [reflexivity|].
        split; [reflexivity|lia].
    + exists [Http Sandbox "POST" "/sandbox/create"
                (Some (sandbox_config session))], 1%nat.
      split; [|split; [reflexivity|lia]].
      unfold try_catch, run_tests. unfold bind at 1.
      rewrite callSandbox_run. cbn [truthy sandbox_config].
      fold (sandbox_config session). rewrite Hcreate.
      unfold bind at 1, lift at 1. rewrite Hid.
      unfold on_sandbox_error, lift. reflexivity.
  - exists [Http Sandbox "POST" "/sandbox/create"
              (Some (sandbox_config session))], 1%nat.
    split; [|split; [reflexivity|lia]].
    unfold try_catch, run_tests. unfold bind at 1.
    rewrite callSandbox_run. cbn [truthy sandbox_config].
    fold (sandbox_config session). rewrite Hcreate.
    unfold on_sandbox_error, lift. reflexivity.
Qed.

Ltac driver_prefix H Hc :=
  unfold processReview; unfold try_catch at 1;
  unfold bind at 1, getSession at 1; rewrite H;
  unfold bind at 1; rewrite (updateSession_found _ _ _ _ _ H);
  unfold bind at 1, emitProgress at 1; rewrite effect_log;
  unfold bind at 1, emitProgress at 1; rewrite effect_log, log_log;
  unfold bind at 1; rewrite callCouncil_run, log_log, Hc.

(** A run whose Council answer carries test code: the events of the run
    are those before the execution phase, the calls of the phase, and
    those after it; the events around the phase involve no sandbox. *)
Lemma processReview_with_tests sessionId w session l :
  redis w !! session_key sessionId = Some session ->
  id session = sessionId ->
  council_api env "/council/review" (councilRequest session)
  = Data (JObj l) ->
  truthy (assoc "test_code" l) = true ->
  exists w2 before calls after,
    trace (processReview env sessionId w).2
    = trace w ++ before ++ calls ++ after
    /\ sandbox_calls before = []
    /\ sandbox_calls after = []
    /\ (try_catch (run_tests env session (JObj l))
          (on_sandbox_error (JObj l)) w2).2 = log w2 calls.
Proof.
  intros H Hid Hc Htruthy.
  set (s1 := merged session to_analyzing (now env (clock w))).
  set (w1 := log (after_update w s1)
               (started sessionId
                ++ [Http Council "POST" "/council/review"
                      (Some (councilRequest session))])).
  set (s2 := merged s1 (to_testing (assoc "agents" l)) (now env (clock w1))).
  set (w2 := log (after_update w1 s2)
               [EmitProgress sessionId
                  (mkProgress testing 60 "Running tests in sandbox..."
                     None)]).
  assert (Hs1 : redis w1 !! session_key sessionId = Some s1)
    by now apply lookup_after_update.
  assert (Hs2 : forall calls,
             redis (log w2 calls) !! session_key sessionId = Some s2)
    by (intros; now apply lookup_after_update).
  destruct (execution_phase_absorbs env session l w2)
    as (l' & calls & Hexec & Hl' & Hcalls).
  set (s3 := merged s2 (to_completed (assoc "report" l)) (now env (clock w2))).
  exists w2,
    (Saved s1 :: started sessionId
     ++ [Http Council "POST" "/council/review"
           (Some (councilRequest session));
         Saved s2;
         EmitProgress sessionId
           (mkProgress testing 60 "Running tests in sandbox..." None)]),
    calls,
    [Saved s3;
     EmitProgress sessionId
       (mkProgress completed 100 "Review complete!" (assoc "report" l))].
  split; [|split; [reflexivity|split; [reflexivity|now rewrite Hexec]]].
  assert (Hrun : processReview env sessionId w
                 = (Ok tt,
                    log (after_update (log w2 calls) s3)
                      [EmitProgress sessionId
                         (mkProgress completed 100 "Review complete!"
                            (assoc "report" l))])).
  { driver_prefix H Hc. fold s1 w1.
    unfold bind at 1, lift at 1. rewrite prop_object.
    unfold bind at 1. rewrite (updateSession_found env _ _ _ _ Hs1).
    unfold bind at 1, emitProgress at 1. rewrite effect_log.
    unfold bind at 1, lift at 1. rewrite prop_object.
    unfold bind at 1. rewrite Htruthy. fold s2 w2. rewrite Hexec.
    unfold bind at 1, lift at 1. rewrite prop_object, Hl'.
    unfold bind at 1. rewrite (updateSession_found env _ _ _ _ (Hs2 calls)).
    unfold emitProgress. now rewrite effect_log. }
  rewrite Hrun. unfold w2, w1, started.
  cbn [snd log after_update trace]. rewrite <- !app_assoc.
  reflexivity.
Qed.

(** X12. In every run of the driver the calls to the sandbox service are a
    prefix of: create a sandbox, run the tests on the [sandbox_id] of the
    creation's answer, delete the sandbox of that id; when the creation
    fails or answers [null], its call is the only one. So the test run is
    attempted at most once and on the created id, nothing is run or
    deleted before a sandbox is created, and the created sandbox is
    deleted at most once. *)
Theorem sandbox_is_called_in_order sessionId w session :
  redis w !! session_key sessionId = Some session ->
  id session = sessionId ->
  exists evs n,
    trace (processReview env sessionId w).2 = trace w ++ evs
    /\ sandbox_calls evs
       = take n (calls_after
                   (sandbox_api env "POST" "/sandbox/create"
                      (Some (sandbox_config session))))
    /\ (n <= 3)%nat
    /\ forall sandboxId,
         created_id (sandbox_api env "POST" "/sandbox/create"
                       (Some (sandbox_config session)))
         = Some sandboxId ->
         (releases ("/sandbox/" +:+ interpolate sandboxId) evs <= 1)%nat.
Proof.
  intros H Hid.
  assert (Hreleases : forall sandboxId n evs,
    sandbox_calls evs
    = take n (calls_after
                (sandbox_api env "POST" "/sandbox/create"
                   (Some (sandbox_config session)))) ->
    created_id (sandbox_api env "POST" "/sandbox/create"
                  (Some (sandbox_config session)))
    = Some sandboxId ->
    (releases ("/sandbox/" +:+ interpolate sandboxId) evs <= 1)%nat).
  { intros sandboxId n evs Hevs Hcreated. unfold releases. rewrite Hevs.
    unfold calls_after. rewrite Hcreated.
    destruct n as [|[|[|n]]]; cbn [take phase_calls];
      rewrite ?take_nil, ?filter_cons, ?filter_nil; repeat case_decide;
      try congruence; cbn [length]; lia. }
  destruct (processReview_outcome env _ _ _ H Hid)
    as (evs & final & _ & _ & Htrace & _ & Hcases).
  destruct Hcases
    as [(cause & _ & _ & _ & _ & _ & Hnone)
       |(d & a & tc & rep & calls & Hc & _ & Htc & _ & _ & _ & _ & _ & Hcalls
         & _ & Hfalsy)].
  - exists evs, 0%nat. split; [exact Htrace|].
    split; [exact Hnone|]. split; [lia|].
    intros sandboxId. now apply (Hreleases sandboxId 0%nat).
  - destruct (truthy tc) eqn:Htruthy.
    + assert (exists l, d = JObj l) as [l ->].
      { destruct d; try (simpl in Htc; inversion Htc; subst; discriminate).
        eauto. }
      rewrite prop_object in Htc. injection Htc as <-.
      destruct (processReview_with_tests _ _ _ _ H Hid Hc Htruthy)
        as (w2 & before & calls' & after & Htrace' & Hbefore & Hafter
            & Hphase).
      destruct (execution_phase_shape session l w2)
        as (calls'' & n & Hphase' & Hshape & Hn).
      rewrite Hphase in Hphase'.
      apply (f_equal trace) in Hphase'. cbn [log trace] in Hphase'.
      apply app_inv_head in Hphase'. subst calls''.
      assert (Hsandbox : sandbox_calls (before ++ calls' ++ after)
                         = take n (calls_after
                                     (sandbox_api env "POST" "/sandbox/create"
                                        (Some (sandbox_config session)))))
        by (rewrite !sandbox_calls_app, Hbefore, Hafter, app_nil_r;
            exact Hshape).
      exists (before ++ calls' ++ after), n.
      split; [exact Htrace'|]. split; [exact Hsandbox|]. split; [lia|].
      intros sandboxId. now apply (Hreleases sandboxId n).
    + exists evs, 0%nat. split; [exact Htrace|].
      rewrite (Hfalsy eq_refl) in Hcalls.
      split; [exact Hcalls|]. split; [lia|].
      intros sandboxId. now apply (Hreleases sandboxId 0%nat).
Qed.

(** X13. When the sandbox service answers the creation with an object that has
    no [sandbox_id], the driver goes on: it runs the tests on
    [/sandbox/undefined/execute]. *)
Theorem missing_sandbox_id_is_not_checked sessionId w session l sandbox :
  redis w !! session_key sessionId = Some session ->
  id session = sessionId ->
  council_api env "/council/review" (councilRequest session)
  = Data (JObj l) ->
  truthy (assoc "test_code" l) = true ->
  sandbox_api env "POST" "/sandbox/create" (Some (sandbox_config session))
  = Data sandbox ->
  prop (Some sandbox) "sandbox_id" = Ok None ->
  exists evs rest,
    trace (processReview env sessionId w).2 = trace w ++ evs
    /\ sandbox_calls evs
       = ("POST", "/sandbox/create")
         :: ("POST", "/sandbox/undefined/execute") :: rest.
Proof.
  intros H Hid Hc Htruthy Hcreate Hsandbox.
  destruct (processReview_with_tests _ _ _ _ H Hid Hc Htruthy)
    as (w2 & before & calls & after & Htrace & Hbefore & Hafter & Hphase).
  destruct (execution_phase_calls env session l w2 _ _ Hcreate Hsandbox)
    as [l' Hrun].
  cbv zeta in Hrun. rewrite Hrun in Hphase. cbn [snd] in Hphase.
  apply (f_equal trace) in Hphase. cbn [log trace] in Hphase.
  apply app_inv_head in Hphase. subst calls.
  eexists _, _. split; [exact Htrace|].
  rewrite !sandbox_calls_app, Hbefore, Hafter, app_nil_r.
  cbn [sandbox_calls app interpolate]. reflexivity.
Qed.

End SandboxOrder.

(** ** The status route *)

Lemma get_status_run sessionId w session :
  redis w !! session_key sessionId = Some session ->
  get_status sessionId w
  = (Ok match array_map (Some (agents session)) list_agent with
        | Ok listed =>
            {| http_status := 200;
               body := JObj [("session_id", JStr (id session));
                             ("status", JStr (status_name (status session)));
                             ("progress", JNum (progress session));
                             ("agents", listed)] |}
        | Throw e => server_error e
        end, w).
Proof.
  intros H. unfold get_status, try_catch. unfold bind at 1, getSession at 1.
  rewrite H. unfold bind, lift. fold list_agent.
  now destruct (array_map (Some (agents session)) list_agent).
Qed.

Lemma list_agent_object agent :
  agent <> JNull -> list_agent agent = Ok (listed_agent agent).
Proof.
  intros Hagent. unfold list_agent, listed_agent.
  now rewrite !(prop_own agent _ Hagent).
Qed.

Lemma map_result_listed items :
  Forall (fun agent => agent <> JNull) items ->
  map_result list_agent items = Ok (map listed_agent items).
Proof.
  induction 1 as [|agent items Hagent _ IH]; [reflexivity|].
  cbn [map_result map]. now rewrite (list_agent_object _ Hagent), IH.
Qed.

Lemma map_result_null items :
  In JNull items -> exists e, map_result list_agent items = Throw e.
Proof.
  induction items as [|agent items IH]; [contradiction|].
  intros [->|Hin].
  - eexists. reflexivity.
  - cbn [map_result]. destruct (list_agent agent); [|eauto].
    destruct (IH Hin) as [e ->]. eauto.
Qed.

(** X15. For a session whose agents are a list of objects, the status route
    answers 200 and shows of each agent its [name], [status] and [score]
    only, in the stored order: findings and any other key of an agent are
    never part of the status answer. The world is unchanged. *)
Theorem status_shows_three_keys_of_each_agent sessionId w session items :
  redis w !! session_key sessionId = Some session ->
  agents session = JArr items ->
  Forall (fun agent => agent <> JNull) items ->
  get_status sessionId w
  = (Ok {| http_status := 200;
           body := JObj [("session_id", JStr (id session));
                         ("status", JStr (status_name (status session)));
                         ("progress", JNum (progress session));
                         ("agents", JArr (map listed_agent items))] |}, w)
  /\ (forall agent k,
         k <> "name" -> k <> "status" -> k <> "score" ->
         own_prop (listed_agent agent) k = None)
  /\ (forall agent k,
         k = "name" \/ k = "status" \/ k = "score" ->
         own_prop (listed_agent agent) k = own_prop agent k).
Proof.
  intros H Hagents Hitems. split; [|split].
  - rewrite (get_status_run _ _ _ H), Hagents. cbn [array_map].
    now rewrite (map_result_listed _ Hitems).
  - intros agent k H1 H2 H3. unfold listed_agent, own_prop at 1.
    apply assoc_object_other. intros k' Hk'. cbn [In map fst] in Hk'.
    intuition congruence.
  - intros agent k [->|[->| ->]]; unfold listed_agent; cbn [own_prop];
      destruct (own_prop agent "name"), (own_prop agent "status"),
        (own_prop agent "score"); reflexivity.
Qed.

Section StatusAfterRun.

Variable env : Env.

(** X16. The driver stores the Council's [agents] unchecked, and the status
    route maps over them: when the Council answers with [agents] that are
    truthy but not a list, or a list with a [null] entry, the session
    ends [completed] and every later status request for it is answered
    500. *)
Theorem status_unavailable_on_malformed_agents
    sessionId w session d response_agents :
  redis w !! session_key sessionId = Some session ->
  id session = sessionId ->
  council_api env "/council/review" (councilRequest session) = Data d ->
  prop (Some d) "agents" = Ok (Some response_agents) ->
  (truthy (Some response_agents) = true
   /\ forall items, response_agents <> JArr items)
  \/ (exists items, response_agents = JArr items /\ In JNull items) ->
  status <$> (redis (processReview env sessionId w).2
                !! session_key sessionId) = Some completed
  /\ answer_code (get_status sessionId (processReview env sessionId w).2)
     = Some 500%nat.
Proof.
  intros H Hid Hc Ha Hbad.
  destruct (processReview_outcome env _ _ _ H Hid)
    as (evs & final & _ & Hredis & _ & _ & Hcases).
  assert (Hfinal : redis (processReview env sessionId w).2
                     !! session_key sessionId = Some final)
    by (rewrite Hredis; apply lookup_insert_eq).
  destruct Hcases
    as [(cause & Hnull & _)
       |(d' & a & tc & rep & calls & Hc' & Ha' & _ & _ & -> & _)].
  - rewrite Hc in Hnull. subst d. discriminate.
  - rewrite Hc in Hc'. injection Hc' as <-.
    rewrite Ha in Ha'. injection Ha' as <-.
    rewrite Hfinal. split; [reflexivity|].
    rewrite (get_status_run _ _ _ Hfinal). unfold answer_code. cbn [fst].
    cbn [agents completed_of testing_of analyzing_of merged over
         to_completed to_testing to_analyzing u_agents].
    destruct Hbad as [(Htruthy & Hlist)|(items & -> & Hnull)].
    + unfold or_else. rewrite Htruthy.
      destruct response_agents; try reflexivity; try discriminate.
      now destruct (Hlist items).
    + cbn [or_else truthy array_map].
      destruct (map_result_null _ Hnull) as [e ->]. reflexivity.
Qed.

End StatusAfterRun.

(** ** Several drivers *)

Section Drivers.

Variable env : Env.

(** What one run of the driver does to a well-keyed store. *)
Lemma processReview_summary sessionId w :
  well_keyed w ->
  well_keyed (processReview env sessionId w).2
  /\ background (processReview env sessionId w).2 = background w
  /\ (forall key, key <> session_key sessionId ->
                  redis (processReview env sessionId w).2 !! key
                  = redis w !! key)
  /\ (is_Some (redis w !! session_key sessionId) ->
      exists final,
        redis (processReview env sessionId w).2 !! session_key sessionId
        = Some final
        /\ terminal (status final) = true).
Proof.
  intros Hw.
  destruct (redis w !! session_key sessionId) as [session|] eqn:H.
  - pose proof (well_keyed_id _ _ _ Hw H) as Hid.
    destruct (processReview_outcome env _ _ _ H Hid)
      as (evs & final & _ & Hredis & _ & Hbg & Hcases).
    assert (Hfinal : id final = sessionId /\ terminal (status final) = true).
    { destruct Hcases
        as [(cause & _ & -> & _)
           |(d & a & tc & rep & calls & _ & _ & _ & _ & -> & _)];
        split; (exact Hid || reflexivity). }
    destruct Hfinal as [Hfid Hterminal].
    split; [|split; [exact Hbg|split]].
    + apply (well_keyed_insert w _ final Hw). now rewrite Hredis, Hfid.
    + intros key Hkey. rewrite Hredis. now apply lookup_insert_ne.
    + intros _. exists final. split; [|exact Hterminal].
      rewrite Hredis. apply lookup_insert_eq.
  - rewrite (processReview_missing env _ _ H). cbn [snd].
    repeat split; auto. intros [s Hs]. discriminate.
Qed.

Lemma lookup_after_run sessionId w calls session (ev : Effect) :
  id session = sessionId ->
  redis (log (after_update (log w calls) session) [ev])
    !! session_key sessionId = Some session.
Proof. intros <-. apply lookup_insert_eq. Qed.

(** The outcome of a run on a stored session does not depend on the
    rest of the world: two worlds that store the same session under the
    id give final sessions that differ at most in [updated_at]. *)
Lemma outcome_depends_on_the_session sessionId w w' session :
  redis w !! session_key sessionId = Some session ->
  redis w' !! session_key sessionId = Some session ->
  id session = sessionId ->
  exists final final',
    redis (processReview env sessionId w).2 !! session_key sessionId
    = Some final
    /\ redis (processReview env sessionId w').2 !! session_key sessionId
       = Some final'
    /\ same_but_stamp final final'.
Proof.
  intros H H' Hid.
  destruct (council_api env "/council/review" (councilRequest session))
    as [d|detail message] eqn:Hc.
  - destruct (prop (Some d) "agents") as [response_agents|e] eqn:Ha.
    + destruct (processReview_council_data env _ _ _ _ _ H Hid Hc Ha)
        as (tc & rep & calls & _ & Hrep & _ & _ & Hrun).
      destruct (processReview_council_data env _ _ _ _ _ H' Hid Hc Ha)
        as (tc' & rep' & calls' & _ & Hrep' & _ & _ & Hrun').
      rewrite Hrep in Hrep'. injection Hrep' as <-.
      cbv zeta in Hrun, Hrun'. rewrite Hrun, Hrun'. cbn [snd].
      eexists _, _. split; [now apply lookup_after_run|].
      split; [now apply lookup_after_run|]. repeat split.
    + assert (d = JNull) as -> by (destruct d; try discriminate; reflexivity).
      rewrite (processReview_council_null env _ _ _ H Hid Hc),
        (processReview_council_null env _ _ _ H' Hid Hc). cbn [snd].
      eexists _, _.
      split; [rewrite <- (log_nil (log _ (_ ++ _)));
              now apply lookup_after_run|].
      split; [rewrite <- (log_nil (log _ (_ ++ _)));
              now apply lookup_after_run|]. repeat split.
  - rewrite (processReview_council_error env _ _ _ _ _ H Hid Hc),
      (processReview_council_error env _ _ _ _ _ H' Hid Hc). cbn [snd].
    eexists _, _.
    split; [rewrite <- (log_nil (log _ (_ ++ _)));
            now apply lookup_after_run|].
    split; [rewrite <- (log_nil (log _ (_ ++ _)));
            now apply lookup_after_run|]. repeat split.
Qed.

(** X17. Drivers of different sessions do not interfere. On a well-keyed
    store, the outcome of the driver of session [a] is the same whether
    the driver of another session [b] ran before it or not (only
    [updated_at] may differ), and a driver of [b] that runs afterwards
    leaves the outcome of [a] as it is. *)
Theorem drivers_do_not_interfere a b w session :
  well_keyed w ->
  a <> b ->
  redis w !! session_key a = Some session ->
  exists alone after_b,
    redis (processReview env a w).2 !! session_key a = Some alone
    /\ redis (processReview env a (processReview env b w).2).2
         !! session_key a = Some after_b
    /\ same_but_stamp alone after_b
    /\ redis (processReview env b (processReview env a w).2).2
         !! session_key a = Some alone.
Proof.
  intros Hw Hab H.
  assert (Hkeys : session_key a <> session_key b)
    by (intros Hk; now apply session_key_inj in Hk).
  pose proof (well_keyed_id _ _ _ Hw H) as Hid.
  destruct (processReview_summary b w Hw) as (_ & _ & Hframe & _).
  assert (H' : redis (processReview env b w).2 !! session_key a
               = Some session) by (rewrite Hframe; assumption).
  destruct (outcome_depends_on_the_session a w _ session H H' Hid)
    as (alone & after_b & Halone & Hafter & Hsame).
  exists alone, after_b. repeat split; try assumption; try apply Hsame.
  destruct (processReview_summary a w Hw) as (Hw' & _).
  destruct (processReview_summary b _ Hw') as (_ & _ & Hframe' & _).
  now rewrite Hframe'.
Qed.

End Drivers.

(** ** The fix route, at its edges *)

Section FixEdges.

Variable env : Env.

Lemma fix_review_enter sessionId req_body fix_priorities w session :
  prop req_body "fix_priorities" = Ok fix_priorities ->
  redis w !! session_key sessionId = Some session ->
  truthy (report session) = true ->
  forall outcome : Result Response * World,
    try_catch
      (priority_fixes <- lift (prop (report session) "priority_fixes") ;;
       findings <- lift (array_filter priority_fixes
         (fun f =>
            match prop (Some f) "severity" with
            | Ok severity =>
                includes
                  (with_default fix_priorities
                     (JArr [JStr "critical"; JStr "high"])) severity
            | Throw e => Throw e
            end)) ;;
       fixResponse <- callCouncil env "/council/fix"
         (JObj [("code", code session);
                ("language", language session);
                ("findings", findings)]) ;;
       fixes_applied <- lift (prop (Some fixResponse) "fixes_applied") ;;
       fixed_code <- lift (prop (Some fixResponse) "fixed_code") ;;
       changes <- lift (prop (Some fixResponse) "changes") ;;
       needs_review <- lift (prop (Some fixResponse) "needs_review") ;;
       respond 200 [("session_id", Some (JStr sessionId));
                    ("fixes_applied", fixes_applied);
                    ("fixed_code", fixed_code);
                    ("changes", changes);
                    ("language", Some (language session));
                    ("needs_review", needs_review)])
      (fun message => respond 500 [("error", Some (JStr message))]) w
    = outcome ->
    fix_review env sessionId req_body w = outcome.
Proof.
  intros Hfp H Htruthy outcome <-.
  unfold fix_review, try_catch. unfold bind at 1, lift at 1. rewrite Hfp.
  unfold bind at 1, getSession at 1. rewrite H, Htruthy. reflexivity.
Qed.

(** X19. A stored report that has no [priority_fixes] (or one that is not a
    list) makes the fix route answer 500: the filter is applied to it
    unchecked. The Council is not called and the world is unchanged. *)
Theorem fix_needs_a_list_of_priority_fixes
    sessionId req_body fix_priorities w session priority_fixes :
  prop req_body "fix_priorities" = Ok fix_priorities ->
  redis w !! session_key sessionId = Some session ->
  truthy (report session) = true ->
  prop (report session) "priority_fixes" = Ok priority_fixes ->
  (forall fixes, priority_fixes <> Some (JArr fixes)) ->
  exists message,
    fix_review env sessionId req_body w = (Ok (server_error message), w).
Proof.
  intros Hfp H Htruthy Hfixes Hlist.
  assert (Hthrow : exists message,
    forall f, array_filter priority_fixes f = Throw message).
  { destruct priority_fixes as [[]|]; try (eexists; intros; reflexivity).
    now destruct (Hlist items). }
  destruct Hthrow as [message Hthrow]. exists message.
  apply (fix_review_enter _ _ _ _ _ Hfp H Htruthy).
  unfold try_catch. unfold bind at 1, lift at 1. rewrite Hfixes.
  unfold bind at 1, lift at 1. now rewrite Hthrow.
Qed.

(** X20. An empty list of priorities is not short-circuited: the fix route
    still calls the Council, once, with an empty list of findings, and
    leaves the store as it was. *)
Theorem fix_with_no_priorities_still_calls_the_council
    sessionId req_body w session fixes :
  prop req_body "fix_priorities" = Ok (Some (JArr [])) ->
  redis w !! session_key sessionId = Some session ->
  truthy (report session) = true ->
  prop (report session) "priority_fixes" = Ok (Some (JArr fixes)) ->
  Forall (fun f => f <> JNull) fixes ->
  (fix_review env sessionId req_body w).2
  = log w [Http Council "POST" "/council/fix"
             (Some (JObj [("code", code session);
                          ("language", language session);
                          ("findings", JArr [])]))].
Proof.
  intros Hfp H Htruthy Hfixes Hwf.
  assert (Hnone : List.filter (requested []) fixes = []).
  { clear. induction fixes as [|f fixes IH]; [reflexivity|exact IH]. }
  erewrite (fix_review_enter _ _ _ _ _ Hfp H Htruthy); [|reflexivity].
  unfold try_catch. unfold bind at 1, lift at 1. rewrite Hfixes.
  unfold bind at 1, lift at 1. unfold array_filter. cbn [with_default].
  rewrite (filter_result_requested _ _ Hwf), Hnone. cbn [as_array].
  unfold bind at 1. rewrite callCouncil_run.
  destruct (council_api env "/council/fix" _) as [d|? ?]; [|reflexivity].
  unfold bind, lift.
  destruct (prop (Some d) "fixes_applied"); [|reflexivity].
  destruct (prop (Some d) "fixed_code"); [|reflexivity].
  destruct (prop (Some d) "changes"); [|reflexivity].
  destruct (prop (Some d) "needs_review"); reflexivity.
Qed.


End FixEdges.

(** ** What subscribers and pollers see *)

Section Consistency.

Variable env : Env.

(** X22. Subscribers and pollers are told the same thing. When a run ends
    [completed], the last progress event published to the session's room
    has status [completed], progress 100 and carries exactly the report
    stored in the session; when it ends [failed], no event with progress
    above 20 was published. *)
Theorem last_event_matches_the_store sessionId w session :
  redis w !! session_key sessionId = Some session ->
  id session = sessionId ->
  exists evs final,
    trace (processReview env sessionId w).2 = trace w ++ evs
    /\ redis (processReview env sessionId w).2 !! session_key sessionId
       = Some final
    /\ (status final = completed ->
        last (published sessionId evs)
        = Some (mkProgress completed 100 "Review complete!" (report final)))
    /\ (status final = failed ->
        Forall (fun u => p_progress u <= 20 /\ p_status u = analyzing)
               (published sessionId evs)).
Proof.
  intros H Hid.
  destruct (council_api env "/council/review" (councilRequest session))
    as [d|detail message] eqn:Hc.
  - destruct (prop (Some d) "agents") as [response_agents|e] eqn:Ha.
    + destruct (processReview_council_data env _ _ _ _ _ H Hid Hc Ha)
        as (tc & rep & calls & _ & _ & Hcalls & _ & Hrun).
      cbv zeta in Hrun. rewrite Hrun. cbn [snd].
      eexists _, _. split; [|split; [now apply lookup_after_run|split]].
      * unfold started. cbn [log after_update trace].
        rewrite <- !app_assoc. reflexivity.
      * intros _. cbn [app published]. rewrite !String.eqb_refl.
        rewrite published_app, (sandbox_only_published _ _ Hcalls).
        cbn [app published]. rewrite String.eqb_refl. reflexivity.
      * intros Hfailed. discriminate Hfailed.
    + assert (d = JNull) as -> by (destruct d; try discriminate; reflexivity).
      rewrite (processReview_council_null env _ _ _ H Hid Hc). cbn [snd].
      eexists _, _.
      split; [|split; [rewrite <- (log_nil (log _ (_ ++ _)));
                       now apply lookup_after_run|split]].
      * unfold started. cbn [log after_update trace].
        rewrite <- !app_assoc. reflexivity.
      * intros Hcompleted. discriminate Hcompleted.
      * intros _. cbn [app published]. rewrite !String.eqb_refl.
        repeat constructor; cbn; lia.
  - rewrite (processReview_council_error env _ _ _ _ _ H Hid Hc).
    cbn [snd]. eexists _, _.
    split; [|split; [rewrite <- (log_nil (log _ (_ ++ _)));
                     now apply lookup_after_run|split]].
    + unfold started. cbn [log after_update trace].
      rewrite <- !app_assoc. reflexivity.
    + intros Hcompleted. discriminate Hcompleted.
    + intros _. cbn [app published]. rewrite !String.eqb_refl.
      repeat constructor; cbn; lia.
Qed.

End Consistency.

(** ** The further properties, on concrete runs *)

Lemma well_keyed_submitted e : well_keyed (Probe.submitted_world e).
Proof. apply submit_well_keyed, well_keyed_boot. Qed.

Lemma well_keyed_two_sessions : well_keyed Probe.two_sessions.
Proof. do 2 apply submit_well_keyed. apply well_keyed_boot. Qed.

Lemma scans_require_code_witness :
  scan_security Probe.scanner Probe.no_code Scenario.boot
  = (Ok code_required, Scenario.boot).
Proof.
  exact (proj1 (scans_require_code Probe.scanner Probe.no_code None
                  Scenario.boot eq_refl eq_refl)).
Defined.


Lemma generated_tests_pass_through_witness :
  exists code' d,
    prop Probe.code_only "code" = Ok (Some code')
    /\ council_api Probe.scanner "/council/qa/generate-tests"
         (tests_request Probe.code_only code') = Data d
    /\ own_prop (JObj [("test_code", JStr "test('adds', ...)");
                       ("test_count", JNum 1)]) "prompt" = None.
Proof.
  destruct (generated_tests_pass_through Probe.scanner Probe.code_only
              Scenario.boot
              {| http_status := 200;
                 body := JObj [("test_code", JStr "test('adds', ...)");
                               ("test_count", JNum 1)] |}
              eq_refl eq_refl)
    as (code' & d & Hcode & Hd & _ & _ & Hother).
  exists code', d. split; [exact Hcode|]. split; [exact Hd|].
  apply Hother; discriminate.
Defined.

Lemma driver_keeps_the_input_witness :
  code (analyzing_of (Probe.submitted_session Scenario.tests_pass)
          (Scenario.iso 3))
  = Scenario.source.
Proof.
  assert (Htrace :
    trace (processReview Scenario.tests_pass Scenario.sid
             (Probe.submitted_world Scenario.tests_pass)).2
    = trace (Probe.submitted_world Scenario.tests_pass)
      ++ Probe.run_events Scenario.tests_pass)
    by (vm_compute; reflexivity).
  assert (Hin :
    In (analyzing_of (Probe.submitted_session Scenario.tests_pass)
          (Scenario.iso 3))
       (saved_sessions Scenario.sid (Probe.run_events Scenario.tests_pass)))
    by (vm_compute; left; reflexivity).
  destruct (driver_keeps_the_input Scenario.tests_pass Scenario.sid
              (Probe.submitted_world Scenario.tests_pass)
              (Probe.submitted_session Scenario.tests_pass)
              (Probe.run_events Scenario.tests_pass)
              (analyzing_of (Probe.submitted_session Scenario.tests_pass)
                 (Scenario.iso 3))
              eq_refl eq_refl Htrace Hin)
    as (_ & Hcode & _).
  exact Hcode.
Defined.

Lemma sandbox_is_called_in_order_witness :
  exists evs n,
    trace (processReview Scenario.tests_pass Scenario.sid
             (Probe.submitted_world Scenario.tests_pass)).2
    = trace (Probe.submitted_world Scenario.tests_pass) ++ evs
    /\ sandbox_calls evs = take n (phase_calls (Some (JStr "sb-123")))
    /\ (n <= 3)%nat.
Proof.
  destruct (sandbox_is_called_in_order Scenario.tests_pass Scenario.sid
              (Probe.submitted_world Scenario.tests_pass)
              (Probe.submitted_session Scenario.tests_pass)
              eq_refl eq_refl)
    as (evs & n & Htrace & Hcalls & Hn & _).
  exists evs, n. repeat split; assumption.
Defined.

Lemma missing_sandbox_id_is_not_checked_witness :
  exists evs rest,
    trace (processReview Probe.no_sandbox_id Scenario.sid
             (Probe.submitted_world Probe.no_sandbox_id)).2
    = trace (Probe.submitted_world Probe.no_sandbox_id) ++ evs
    /\ sandbox_calls evs
       = ("POST", "/sandbox/create")
         :: ("POST", "/sandbox/undefined/execute") :: rest.
Proof.
  exact (missing_sandbox_id_is_not_checked Probe.no_sandbox_id Scenario.sid
           (Probe.submitted_world Probe.no_sandbox_id)
           (Probe.submitted_session Probe.no_sandbox_id)
           _ (JObj [("status", JStr "ok")])
           eq_refl eq_refl eq_refl eq_refl eq_refl eq_refl).
Defined.

Lemma status_shows_three_keys_of_each_agent_witness :
  (get_status Scenario.sid
     (Scenario.lifetime Scenario.no_tests Scenario.security_request)).1
  = Ok {| http_status := 200;
          body := JObj [("session_id", JStr Scenario.sid);
                        ("status", JStr "completed");
                        ("progress", JNum 100);
                        ("agents",
                         JArr [JObj [("name", JStr "security");
                                     ("status", JStr "completed");
                                     ("score", JNum 40)]])] |}.
Proof.
  exact (f_equal fst
           (proj1 (status_shows_three_keys_of_each_agent Scenario.sid
                     (Scenario.lifetime Scenario.no_tests
                        Scenario.security_request)
                     (completed_of
                        (Probe.submitted_session Scenario.no_tests)
                        (own_prop Scenario.review_without_tests "agents")
                        (Some Scenario.security_report)
                        (Scenario.iso 3) (Scenario.iso 4) (Scenario.iso 5))
                     [JObj [("name", JStr "security");
                            ("status", JStr "completed");
                            ("score", JNum 40)]]
                     eq_refl eq_refl
                     ltac:(repeat constructor; discriminate)))).
Defined.

Lemma status_unavailable_on_malformed_agents_witness :
  answer_code
    (get_status Scenario.sid
       (processReview Probe.loose Scenario.sid
          (Probe.submitted_world Probe.loose)).2)
  = Some 500%nat.
Proof.
  apply (status_unavailable_on_malformed_agents Probe.loose Scenario.sid
           (Probe.submitted_world Probe.loose)
           (Probe.submitted_session Probe.loose)
           Probe.review_loose (JStr "none")
           eq_refl eq_refl eq_refl eq_refl).
  left. split; [reflexivity|discriminate].
Defined.

Lemma drivers_do_not_interfere_witness :
  exists alone after_b,
    redis (processReview Probe.fresh Probe.first_id Probe.two_sessions).2
      !! session_key Probe.first_id = Some alone
    /\ redis (processReview Probe.fresh Probe.first_id
                (processReview Probe.fresh Probe.second_id
                   Probe.two_sessions).2).2
         !! session_key Probe.first_id = Some after_b
    /\ same_but_stamp alone after_b.
Proof.
  destruct (drivers_do_not_interfere Probe.fresh Probe.first_id
              Probe.second_id Probe.two_sessions
              (submitted Probe.fresh Scenario.security_request
                 Scenario.source Scenario.boot)
              well_keyed_two_sessions ltac:(discriminate) eq_refl)
    as (alone & after_b & Halone & Hafter & Hsame & _).
  exists alone, after_b. repeat split; try assumption; apply Hsame.
Defined.

Lemma fix_needs_a_list_of_priority_fixes_witness :
  exists message,
    fix_review Probe.loose Scenario.sid (Some (JObj []))
      (Scenario.lifetime Probe.loose Scenario.security_request)
    = (Ok (server_error message),
       Scenario.lifetime Probe.loose Scenario.security_request).
Proof.
  apply (fix_needs_a_list_of_priority_fixes Probe.loose Scenario.sid
           (Some (JObj [])) None
           (Scenario.lifetime Probe.loose Scenario.security_request)
           (completed_of (Probe.submitted_session Probe.loose)
              (Some (JStr "none"))
              (Some (JObj [("overall_score", JNum 90)]))
              (Scenario.iso 3) (Scenario.iso 4) (Scenario.iso 5))
           None eq_refl eq_refl eq_refl eq_refl).
  discriminate.
Defined.

Lemma fix_with_no_priorities_still_calls_the_council_witness :
  council_calls
    (trace (fix_review Scenario.no_tests Scenario.sid
              (Some (JObj [("fix_priorities", JArr [])]))
              (Scenario.lifetime Scenario.no_tests
                 Scenario.security_request)).2)
  = [("/council/review",
      Some (councilRequest (Probe.submitted_session Scenario.no_tests)));
     ("/council/fix",
      Some (JObj [("code", Scenario.source);
                  ("language", JStr "javascript");
                  ("findings", JArr [])]))].
Proof.
  rewrite (fix_with_no_priorities_still_calls_the_council Scenario.no_tests
             Scenario.sid (Some (JObj [("fix_priorities", JArr [])]))
             (Scenario.lifetime Scenario.no_tests Scenario.security_request)
             (completed_of (Probe.submitted_session Scenario.no_tests)
                (own_prop Scenario.review_without_tests "agents")
                (Some Scenario.security_report)
                (Scenario.iso 3) (Scenario.iso 4) (Scenario.iso 5))
             [JObj [("severity", JStr "critical");
                    ("title", JStr "SQL injection")];
              JObj [("severity", JStr "low");
                    ("title", JStr "Unused variable")]]
             eq_refl eq_refl eq_refl eq_refl
             ltac:(repeat constructor; discriminate)).
  reflexivity.
Defined.


Lemma last_event_matches_the_store_witness :
  exists evs final,
    trace (processReview Scenario.tests_pass Scenario.sid
             (Probe.submitted_world Scenario.tests_pass)).2
    = trace (Probe.submitted_world Scenario.tests_pass) ++ evs
    /\ redis (processReview Scenario.tests_pass Scenario.sid
                (Probe.submitted_world Scenario.tests_pass)).2
         !! session_key Scenario.sid = Some final.
Proof.
  destruct (last_event_matches_the_store Scenario.tests_pass Scenario.sid
              (Probe.submitted_world Scenario.tests_pass)
              (Probe.submitted_session Scenario.tests_pass)
              eq_refl eq_refl)
    as (evs & final & Htrace & Hfinal & _).
  exists evs, final. split; assumption.
Defined.

(** ** The MCP tool and the submit route *)

Section McpSubmission.

Variable env : Env.
Variable bridge_api : string -> string -> JsVal -> Reply.
Variable stringify : JSON -> string.

(** Whatever the bridge answers, the tool makes one request: a POST to
    the submit route with the body built from its arguments. *)
Lemma submitCodeForReview_calls args code' lang ctx gates calls :
  prop args "code" = Ok code' ->
  prop args "language" = Ok lang ->
  prop args "context" = Ok ctx ->
  prop args "quality_gates" = Ok gates ->
  (Mcp.submitCodeForReview bridge_api stringify args calls).2
  = calls ++ [Mcp.mkCall "POST" "/api/v1/review/submit"
                (Some (Mcp.submission code' lang ctx gates))].
Proof.
  intros Hcode Hlanguage Hcontext Hgates.
  unfold Mcp.submitCodeForReview.
  unfold Mcp.tbind at 1, Mcp.tlift at 1. rewrite Hcode.
  unfold Mcp.tbind at 1, Mcp.tlift at 1. rewrite Hlanguage.
  unfold Mcp.tbind at 1, Mcp.tlift at 1. rewrite Hcontext.
  unfold Mcp.tbind at 1, Mcp.tlift at 1. rewrite Hgates.
  unfold Mcp.tbind at 1, Mcp.callBridge.
  assert (Hbody : truthy (Some (Mcp.submission code' lang ctx gates))
                  = true) by reflexivity.
  rewrite Hbody.
  destruct (bridge_api "POST" "/api/v1/review/submit" _) as [d|? ?];
    [|reflexivity].
  unfold Mcp.tbind, Mcp.tlift, Mcp.tret.
  destruct (prop (Some d) "session_id"); [|reflexivity].
  destruct (prop (Some d) "status"); reflexivity.
Qed.

(** X23. A submission that goes through the MCP tool never meets the defaults
    of the submit route. The tool fills in the language, the context and
    the capability set itself, with [||]: the session the route creates
    from the tool's request has the language and the capability set of
    the arguments when they are truthy, and otherwise ["javascript"] and
    the tool's own default security, qa, performance (the route's default
    is qa, security, performance); its language and capability set are
    never falsy. *)
Theorem mcp_submission_carries_its_own_defaults
    args code' lang ctx gates calls w :
  prop args "code" = Ok (Some code') ->
  truthy (Some code') = true ->
  prop args "language" = Ok lang ->
  prop args "context" = Ok ctx ->
  prop args "quality_gates" = Ok gates ->
  exists body session,
    (Mcp.submitCodeForReview bridge_api stringify args calls).2
    = calls ++ [Mcp.mkCall "POST" "/api/v1/review/submit" (Some body)]
    /\ answer_code (submit env (Some body) w) = Some 200%nat
    /\ redis (submit env (Some body) w).2
         !! session_key ("rev-" +:+ uuidv4 env (clock w)) = Some session
    /\ code session = code'
    /\ language session = or_else lang (JStr "javascript")
    /\ context session = or_else ctx (JStr "")
    /\ quality_gates session
       = or_else gates (JArr [JStr "security"; JStr "qa"; JStr "performance"])
    /\ truthy (Some (language session)) = true
    /\ truthy (Some (quality_gates session)) = true.
Proof.
  intros Hcode Htruthy Hlanguage Hcontext Hgates.
  set (body := Mcp.submission (Some code') lang ctx gates).
  assert (Hbody : prop (Some body) "code" = Ok (Some code')) by reflexivity.
  exists body, (submitted env (Some body) code' w).
  split; [now apply submitCodeForReview_calls|].
  rewrite (submit_accepted env _ _ w Hbody Htruthy).
  unfold answer_code. cbn [fst snd redis http_status].
  split; [reflexivity|]. split; [apply lookup_insert_eq|].
  repeat split; try (apply or_else_truthy; reflexivity).
Qed.

(** X24. The tool does not validate the code: when its arguments have no code
    (or a falsy one) it still sends the request, and the submit route
    answers it 400 "Code is required" without creating a session. *)
Theorem mcp_submission_without_code_is_refused_by_the_route
    args code' lang ctx gates calls w :
  prop args "code" = Ok code' ->
  truthy code' = false ->
  prop args "language" = Ok lang ->
  prop args "context" = Ok ctx ->
  prop args "quality_gates" = Ok gates ->
  exists body,
    (Mcp.submitCodeForReview bridge_api stringify args calls).2
    = calls ++ [Mcp.mkCall "POST" "/api/v1/review/submit" (Some body)]
    /\ submit env (Some body) w = (Ok code_required, w).
Proof.
  intros Hcode Hfalsy Hlanguage Hcontext Hgates.
  exists (Mcp.submission code' lang ctx gates).
  split; [now apply submitCodeForReview_calls|].
  apply (submit_rejected env _ code'); [|exact Hfalsy].
  now destruct code'.
Qed.

End McpSubmission.

Lemma mcp_submission_carries_its_own_defaults_witness :
  exists body session,
    answer_code (submit Scenario.no_tests (Some body) Scenario.boot)
    = Some 200%nat
    /\ redis (submit Scenario.no_tests (Some body) Scenario.boot).2
         !! session_key Scenario.sid = Some session
    /\ quality_gates session
       = JArr [JStr "security"; JStr "qa"; JStr "performance"].
Proof.
  destruct (mcp_submission_carries_its_own_defaults Scenario.no_tests
              Scenario.sandbox_down (fun _ => "{}")
              Probe.code_only Scenario.source None None None []
              Scenario.boot eq_refl eq_refl eq_refl eq_refl eq_refl)
    as (body & session & _ & Hcode & Hstored & _ & _ & _ & Hgates & _).
  exists body, session. repeat split; assumption.
Defined.

Lemma mcp_submission_without_code_is_refused_by_the_route_witness :
  exists body,
    submit Scenario.no_tests (Some body) Scenario.boot
    = (Ok code_required, Scenario.boot).
Proof.
  destruct (mcp_submission_without_code_is_refused_by_the_route
              Scenario.no_tests Scenario.sandbox_down (fun _ => "{}")
              Probe.no_code None (Some (JStr "python")) None None []
              Scenario.boot eq_refl eq_refl eq_refl eq_refl eq_refl)
    as (body & _ & Hrefused).
  exists body. exact Hrefused.
Defined.

(** ** Release, run by run *)

Section ReleaseByRun.

Variable env : Env.

(** X25. In a review whose Council answer carries test code and whose sandbox
    was created under an id, the number of DELETE calls on that sandbox
    over the whole run is decided by the test run alone: one when the run
    answered, none when it failed (timeout, transport or remote error). *)
Theorem release_depends_on_the_test_run
    sessionId w session l sandbox sandboxId :
  redis w !! session_key sessionId = Some session ->
  id session = sessionId ->
  council_api env "/council/review" (councilRequest session)
  = Data (JObj l) ->
  truthy (assoc "test_code" l) = true ->
  sandbox_api env "POST" "/sandbox/create" (Some (sandbox_config session))
  = Data sandbox ->
  prop (Some sandbox) "sandbox_id" = Ok sandboxId ->
  exists evs,
    trace (processReview env sessionId w).2 = trace w ++ evs
    /\ releases ("/sandbox/" +:+ interpolate sandboxId) evs
       = match sandbox_api env "POST"
                 ("/sandbox/" +:+ interpolate sandboxId +:+ "/execute")
                 (Some (test_run session (assoc "code_files" l)
                          (assoc "test_files" l)))
         with
         | Data _ => 1%nat
         | AxiosError _ _ => 0%nat
         end.
Proof.
  intros H Hid Hc Htruthy Hcreate Hsandbox.
  destruct (processReview_with_tests env _ _ _ _ H Hid Hc Htruthy)
    as (w2 & before & calls & after & Htrace & Hbefore & Hafter & Hphase).
  destruct (execution_phase_calls env session l w2 _ _ Hcreate Hsandbox)
    as [l' Hrun].
  cbv zeta in Hrun. rewrite Hrun in Hphase. cbn [snd] in Hphase.
  apply (f_equal trace) in Hphase. cbn [log trace] in Hphase.
  apply app_inv_head in Hphase. subst calls.
  eexists. split; [exact Htrace|].
  unfold releases. rewrite !sandbox_calls_app, Hbefore, Hafter, app_nil_r.
  cbn [app].
  destruct (sandbox_api env "POST"
              ("/sandbox/" +:+ interpolate sandboxId +:+ "/execute") _);
    cbn [sandbox_calls];
    rewrite !filter_cons; repeat case_decide; try congruence; reflexivity.
Qed.

End ReleaseByRun.

Lemma release_depends_on_the_test_run_witness :
  exists evs,
    trace (processReview Scenario.tests_time_out Scenario.sid
             (Probe.submitted_world Scenario.tests_time_out)).2
    = trace (Probe.submitted_world Scenario.tests_time_out) ++ evs
    /\ releases "/sandbox/sb-123" evs = 0%nat.
Proof.
  exact (release_depends_on_the_test_run Scenario.tests_time_out
           Scenario.sid
           (Probe.submitted_world Scenario.tests_time_out)
           (Probe.submitted_session Scenario.tests_time_out)
           _ (JObj [("sandbox_id", JStr "sb-123")]) (Some (JStr "sb-123"))
           eq_refl eq_refl eq_refl eq_refl eq_refl eq_refl).
Defined.

(** * The driver among other requests *)

(** ** Steps of the machine *)

Section MachineLaws.

Variable env : Env.

Lemma play_app sessionId schedule schedule' state :
  play env sessionId (schedule ++ schedule') state
  = play env sessionId schedule' (play env sessionId schedule state).
Proof. apply fold_left_app. Qed.

Lemma play_cons sessionId a schedule state :
  play env sessionId (a :: schedule) state
  = play env sessionId schedule (act env sessionId state a).
Proof. reflexivity. Qed.

Lemma play_finished sessionId n outcome w :
  play env sessionId (replicate n Tick) (Finished outcome, w)
  = (Finished outcome, w).
Proof. induction n as [|n IH]; [reflexivity|exact IH]. Qed.

Lemma step_first_read sessionId w session :
  redis w !! session_key sessionId = Some session ->
  step env sessionId (FirstRead, w) = (UpdateRead (ToAnalyzing session), w).
Proof.
  intros H. unfold step, block, bind, getSession. cbn [fst snd].
  now rewrite H.
Qed.

Lemma step_first_read_missing sessionId w :
  redis w !! session_key sessionId = None ->
  step env sessionId (FirstRead, w) = (Finished (Ok tt), w).
Proof.
  intros H. unfold step, block, bind, getSession. cbn [fst snd].
  now rewrite H.
Qed.

Lemma step_update_read sessionId u w session :
  redis w !! session_key sessionId = Some session ->
  step env sessionId (UpdateRead u, w)
  = (UpdateWrite u (merged session (updates_of u) (now env (clock w))),
     advance w).
Proof.
  intros H. unfold step, block, bind, getSession. cbn [fst snd].
  now rewrite H.
Qed.

Lemma step_update_read_missing sessionId u w :
  redis w !! session_key sessionId = None ->
  step env sessionId (UpdateRead u, w)
  = (thrown (UpdateRead u) "Session not found", w).
Proof.
  intros H. unfold step, block, bind, getSession. cbn [fst snd].
  now rewrite H.
Qed.

Lemma written_advance w session :
  written (advance w) session = after_update w session.
Proof. reflexivity. Qed.

Lemma step_write_analyzing sessionId session updated w :
  step env sessionId (UpdateWrite (ToAnalyzing session) updated, w)
  = (CouncilCall session, log (written w updated) (started sessionId)).
Proof.
  unfold step, block. cbn [fst snd]. unfold bind at 1. cbn [saveSession].
  fold (written w updated).
  unfold bind at 1, emitProgress at 1. rewrite effect_log.
  unfold bind at 1, emitProgress at 1. rewrite effect_log, log_log.
  reflexivity.
Qed.

Lemma step_write_completed sessionId final_report updated w :
  step env sessionId (UpdateWrite (ToCompleted final_report) updated, w)
  = (Finished (Ok tt),
     log (written w updated)
       [EmitProgress sessionId
          (mkProgress completed 100 "Review complete!" final_report)]).
Proof. reflexivity. Qed.

Lemma step_write_failed sessionId message updated w :
  step env sessionId (UpdateWrite (ToFailed message) updated, w)
  = (Finished (Ok tt),
     log (written w updated) [EmitError sessionId message]).
Proof. reflexivity. Qed.

Lemma step_write_testing sessionId session d response_agents updated w :
  d <> JNull ->
  step env sessionId
    (UpdateWrite (ToTesting session d response_agents) updated, w)
  = (if truthy (own_prop d "test_code")
     then SandboxCreate session d
     else UpdateRead (ToCompleted (own_prop d "report")),
     log (written w updated)
       [EmitProgress sessionId
          (mkProgress testing 60 "Running tests in sandbox..." None)]).
Proof.
  intros Hd. unfold step, block. cbn [fst snd].
  unfold bind at 1. cbn [saveSession]. fold (written w updated).
  unfold bind at 1, emitProgress at 1. rewrite effect_log.
  unfold bind at 1, lift at 1. rewrite (prop_own d _ Hd).
  destruct (truthy (own_prop d "test_code")); [reflexivity|].
  unfold complete, bind, lift. now rewrite (prop_own d _ Hd).
Qed.

Lemma step_council sessionId session w :
  step env sessionId (CouncilCall session, w)
  = (match council_api env "/council/review" (councilRequest session) with
     | Data d =>
         match prop (Some d) "agents" with
         | Ok response_agents =>
             UpdateRead (ToTesting session d response_agents)
         | Throw message => UpdateRead (ToFailed message)
         end
     | AxiosError detail message =>
         UpdateRead (ToFailed (council_error detail message))
     end,
     log w [Http Council "POST" "/council/review"
              (Some (councilRequest session))]).
Proof.
  unfold step, block. cbn [fst snd]. unfold bind at 1.
  rewrite callCouncil_run.
  destruct (council_api env "/council/review" (councilRequest session))
    as [d|detail message]; [|reflexivity].
  unfold bind, lift. now destruct (prop (Some d) "agents").
Qed.


Lemma complete_object l w :
  complete (JObj l) w = (Ok (UpdateRead (ToCompleted (assoc "report" l))), w).
Proof. reflexivity. Qed.

(** The inner [catch] of the machine: the error is recorded and the
    driver goes on to complete the session with the same report. *)
Lemma absorbed_object l message w :
  (councilResponse <- on_sandbox_error (JObj l) message ;;
   complete councilResponse) w
  = (Ok (UpdateRead (ToCompleted (assoc "report" l))), w).
Proof.
  unfold bind, on_sandbox_error, lift. cbn [set_prop].
  rewrite complete_object. now rewrite assoc_assign_ne.
Qed.

Lemma step_sandbox_create sessionId session l w :
  step env sessionId (SandboxCreate session (JObj l), w)
  = (match sandbox_api env "POST" "/sandbox/create"
             (Some (sandbox_config session)) with
     | Data sandbox =>
         match prop (Some sandbox) "sandbox_id" with
         | Ok sandboxId =>
             SandboxExecute (JObj l) sandboxId
               (test_run session (assoc "code_files" l)
                  (assoc "test_files" l))
         | Throw _ => UpdateRead (ToCompleted (assoc "report" l))
         end
     | AxiosError _ _ => UpdateRead (ToCompleted (assoc "report" l))
     end,
     log w [Http Sandbox "POST" "/sandbox/create"
              (Some (sandbox_config session))]).
Proof.
  unfold step, block, in_try. cbn [fst snd]. unfold try_catch.
  unfold bind at 1. rewrite callSandbox_run. cbn [truthy sandbox_config].
  fold (sandbox_config session).
  destruct (sandbox_api env "POST" "/sandbox/create" _) as [sandbox|d m];
    [|now rewrite absorbed_object].
  unfold bind at 1, lift at 1.
  destruct (prop (Some sandbox) "sandbox_id") as [sandboxId|e];
    [|now rewrite absorbed_object].
  reflexivity.
Qed.

Lemma step_sandbox_execute sessionId l sandboxId run w :
  let sent := if truthy (Some run) then Some run else None in
  step env sessionId (SandboxExecute (JObj l) sandboxId run, w)
  = (match sandbox_api env "POST"
             ("/sandbox/" +:+ interpolate sandboxId +:+ "/execute") sent with
     | Data testResult => SandboxDelete (JObj l) sandboxId testResult
     | AxiosError _ _ => UpdateRead (ToCompleted (assoc "report" l))
     end,
     log w [Http Sandbox "POST"
              ("/sandbox/" +:+ interpolate sandboxId +:+ "/execute") sent]).
Proof.
  intros sent. unfold step, block, in_try. cbn [fst snd]. unfold try_catch.
  unfold bind at 1. rewrite callSandbox_run. fold sent.
  destruct (sandbox_api env "POST" _ sent) as [testResult|d m];
    [reflexivity|now rewrite absorbed_object].
Qed.

Lemma step_sandbox_delete sessionId l sandboxId testResult w :
  step env sessionId (SandboxDelete (JObj l) sandboxId testResult, w)
  = (UpdateRead (ToCompleted (assoc "report" l)),
     log w [Http Sandbox "DELETE" ("/sandbox/" +:+ interpolate sandboxId)
              None]).
Proof.
  unfold step, block. cbn [fst snd]. unfold bind at 1, try_catch.
  unfold bind at 1. rewrite callSandbox_run. cbn [truthy].
  assert (Hcatch : forall message w',
    (let (r, w0) := on_sandbox_error (JObj l) message w' in
     match r with
     | Ok next => complete next w0
     | Throw e => (Throw e, w0)
     end) = (Ok (UpdateRead (ToCompleted (assoc "report" l))), w')).
  { intros message w'. unfold on_sandbox_error, lift. cbn [set_prop].
    rewrite complete_object. now rewrite assoc_assign_ne. }
  destruct (sandbox_api env "DELETE" _ None) as [gone|d m];
    [|now rewrite Hcatch].
  unfold bind at 1, lift at 1.
  destruct (prop (Some testResult) "results") as [results|e];
    [|now rewrite Hcatch].
  unfold lift.
  destruct (set_prop_test_results l results "report") as (l' & Hset & Hl');
    [discriminate|].
  rewrite Hset, complete_object. now rewrite Hl'.
Qed.

(** Whatever the sandbox service answers, the machine leaves the
    execution phase within three steps, in the world in which
    [processReview] leaves it, and goes on to complete the session with
    the report of the Council. *)
Lemma sandbox_stages sessionId session l w :
  exists k,
    (1 <= k <= 3)%nat
    /\ play env sessionId (replicate k Tick) (SandboxCreate session (JObj l), w)
       = (UpdateRead (ToCompleted (assoc "report" l)),
          (try_catch (run_tests env session (JObj l))
             (on_sandbox_error (JObj l)) w).2).
Proof.
  destruct (sandbox_api env "POST" "/sandbox/create"
              (Some (sandbox_config session))) as [sandbox|d m] eqn:Hcreate.
  - destruct (prop (Some sandbox) "sandbox_id") as [sandboxId|e] eqn:Hid.
    + destruct (execution_phase_calls env session l w _ _ Hcreate Hid)
        as [l' Hrun].
      cbv zeta in Hrun. rewrite Hrun. cbn [snd].
      destruct (sandbox_api env "POST"
                  ("/sandbox/" +:+ interpolate sandboxId +:+ "/execute") _)
        as [testResult|d m] eqn:Hexecute.
      * exists 3%nat. split; [lia|].
        cbn [replicate play fold_left act].
        rewrite step_sandbox_create, Hcreate, Hid.
        rewrite step_sandbox_execute. cbn [truthy test_run].
        fold (test_run session (assoc "code_files" l) (assoc "test_files" l)).
        rewrite Hexecute.
        rewrite step_sandbox_delete, !log_log. reflexivity.
      * exists 2%nat. split; [lia|].
        cbn [replicate play fold_left act].
        rewrite step_sandbox_create, Hcreate, Hid.
        rewrite step_sandbox_execute. cbn [truthy test_run].
        fold (test_run session (assoc "code_files" l) (assoc "test_files" l)).
        rewrite Hexecute.
        rewrite !log_log. reflexivity.
    + exists 1%nat. split; [lia|].
      cbn [replicate play fold_left act].
      rewrite step_sandbox_create, Hcreate, Hid. f_equal.
      unfold try_catch, run_tests. unfold bind at 1.
      rewrite callSandbox_run. cbn [truthy sandbox_config].
      fold (sandbox_config session). rewrite Hcreate.
      unfold bind at 1, lift at 1. rewrite Hid. reflexivity.
  - exists 1%nat. split; [lia|].
    cbn [replicate play fold_left act].
    rewrite step_sandbox_create, Hcreate. f_equal.
    unfold try_catch.
    now rewrite (run_tests_create_fails env _ _ _ _ _ Hcreate).
Qed.


Lemma step_finished sessionId outcome w :
  step env sessionId (Finished outcome, w) = (Finished outcome, w).
Proof. reflexivity. Qed.

Lemma play_tick sessionId n state :
  play env sessionId (replicate (S n) Tick) state
  = play env sessionId (replicate n Tick) (step env sessionId state).
Proof. reflexivity. Qed.

Lemma play_ticks sessionId n m state :
  play env sessionId (replicate (n + m) Tick) state
  = play env sessionId (replicate m Tick)
      (play env sessionId (replicate n Tick) state).
Proof. now rewrite replicate_add, play_app. Qed.

(** The machine, stepped with no other request served in between, is
    [processReview]: it ends within eleven steps, settled as
    [processReview] returns or throws, in the same world. *)
Lemma machine_runs_processReview sessionId w :
  well_keyed w ->
  play env sessionId (replicate 11 Tick) (FirstRead, w)
  = (Finished (processReview env sessionId w).1,
     (processReview env sessionId w).2).
Proof.
  intros Hw.
  destruct (redis w !! session_key sessionId) as [session|] eqn:H.
  2: { rewrite (processReview_missing env _ _ H).
       rewrite play_tick, (step_first_read_missing _ _ H).
       apply play_finished. }
  pose proof (well_keyed_id _ _ _ Hw H) as Hid.
  set (s1 := merged session to_analyzing (now env (clock w))).
  set (w1 := log (after_update w s1)
               (started sessionId
                ++ [Http Council "POST" "/council/review"
                      (Some (councilRequest session))])).
  assert (Hs1 : redis w1 !! session_key sessionId = Some s1)
    by now apply lookup_after_update.
  assert (Hprefix :
    play env sessionId (replicate 4 Tick) (FirstRead, w)
    = (match council_api env "/council/review" (councilRequest session) with
       | Data d =>
           match prop (Some d) "agents" with
           | Ok response_agents =>
               UpdateRead (ToTesting session d response_agents)
           | Throw message => UpdateRead (ToFailed message)
           end
       | AxiosError detail message =>
           UpdateRead (ToFailed (council_error detail message))
       end, w1)).
  { rewrite play_tick, (step_first_read _ _ _ H).
    rewrite play_tick, (step_update_read _ _ _ _ H).
    cbn [updates_of]. fold s1.
    rewrite play_tick, step_write_analyzing, written_advance.
    rewrite play_tick, step_council, log_log. reflexivity. }
  assert (Hfail : forall message,
    play env sessionId (replicate 7 Tick) (UpdateRead (ToFailed message), w1)
    = (Finished (Ok tt),
       log (after_update w1 (merged s1 (to_failed message)
                               (now env (clock w1))))
         [EmitError sessionId message])).
  { intros message.
    rewrite play_tick, (step_update_read _ _ _ _ Hs1). cbn [updates_of].
    rewrite play_tick, step_write_failed, written_advance.
    apply play_finished. }
  change 11%nat with (4 + 7)%nat. rewrite play_ticks, Hprefix.
  destruct (council_api env "/council/review" (councilRequest session))
    as [d|detail message] eqn:Hc.
  2: { rewrite (processReview_council_error env _ _ _ _ _ H Hid Hc).
       apply Hfail. }
  destruct (prop (Some d) "agents") as [response_agents|e] eqn:Ha.
  2: { assert (d = JNull) as -> by (destruct d; try discriminate; reflexivity).
       rewrite (processReview_council_null env _ _ _ H Hid Hc).
       injection Ha as <-. apply Hfail. }
  assert (Hd : d <> JNull) by (intros ->; discriminate).
  set (s2 := merged s1 (to_testing response_agents) (now env (clock w1))).
  set (w2 := log (after_update w1 s2)
               [EmitProgress sessionId
                  (mkProgress testing 60 "Running tests in sandbox..."
                     None)]).
  assert (Hs2 : forall calls,
             redis (log w2 calls) !! session_key sessionId = Some s2)
    by (intros; now apply lookup_after_update).
  assert (Hfinish : forall calls final_report n,
    play env sessionId (replicate (2 + n) Tick)
      (UpdateRead (ToCompleted final_report), log w2 calls)
    = (Finished (Ok tt),
       log (after_update (log w2 calls)
              (merged s2 (to_completed final_report) (now env (clock w2))))
         [EmitProgress sessionId
            (mkProgress completed 100 "Review complete!" final_report)])).
  { intros calls final_report n. cbn [Nat.add].
    rewrite play_tick, (step_update_read _ _ _ _ (Hs2 calls)).
    cbn [updates_of].
    rewrite play_tick, step_write_completed, written_advance.
    apply play_finished. }
  rewrite play_tick, (step_update_read _ _ _ _ Hs1). cbn [updates_of].
  fold s2.
  rewrite play_tick, (step_write_testing _ _ _ _ _ _ Hd), written_advance.
  fold w2.
  destruct (truthy (own_prop d "test_code")) eqn:Htruthy.
  - assert (exists l, d = JObj l) as [l ->].
    { destruct d; try discriminate Htruthy. eauto. }
    cbn [own_prop] in Htruthy.
    rewrite prop_object in Ha. injection Ha as <-.
    destruct (processReview_tested env _ _ _ _ H Hid Hc Htruthy)
      as (l' & calls & Hexec & Hl' & _ & Hrun).
    cbv zeta in Hexec, Hrun. fold s1 w1 s2 w2 in Hexec, Hrun.
    rewrite Hrun. cbn [fst snd]. rewrite Hl'.
    destruct (sandbox_stages sessionId session l w2) as (k & Hk & Hphase).
    rewrite Hexec in Hphase. cbn [snd] in Hphase.
    replace 5%nat with (k + (2 + (3 - k)))%nat by lia.
    rewrite play_ticks, Hphase. apply Hfinish.
  - destruct (processReview_council_data env _ _ _ _ _ H Hid Hc Ha)
      as (test_code & final_report & calls & Htc & Hrep & _ & Hnone & Hrun).
    cbv zeta in Hrun. fold s1 w1 s2 w2 in Hrun.
    rewrite (prop_own d _ Hd) in Htc. rewrite (prop_own d _ Hd) in Hrep.
    injection Htc as <-. injection Hrep as <-.
    rewrite (Hnone Htruthy) in Hrun. rewrite Hrun. cbn [fst snd].
    rewrite <- (log_nil w2) at 1. apply (Hfinish [] _ 3%nat).
Qed.

End MachineLaws.

(** ** What holds at every await *)

Section InvariantLaws.

Variable env : Env.
Variable sessionId : string.
Variable session0 : Session.

Hypothesis Hid0 : id session0 = sessionId.

Lemma stored_as_same P w w' :
  redis w' = redis w -> stored_as sessionId P w -> stored_as sessionId P w'.
Proof. unfold stored_as. now intros ->. Qed.

Lemma stored_as_absent P w : absent sessionId w -> stored_as sessionId P w.
Proof. unfold absent, stored_as. intros -> s. discriminate. Qed.

Lemma stored_as_written (P : Session -> Prop) w updated evs :
  id updated = sessionId -> P updated ->
  stored_as sessionId P (log (written w updated) evs).
Proof.
  intros Hid HP s. cbn [log written redis]. rewrite Hid.
  rewrite lookup_insert_eq. now intros [= <-].
Qed.

Lemma kept_same w w' : redis w' = redis w -> kept sessionId w w'.
Proof. unfold kept. intros ->. now split. Qed.

Lemma kept_written w updated evs :
  id updated = sessionId -> kept sessionId w (log (written w updated) evs).
Proof.
  intros Hid. unfold kept. cbn [log written redis]. rewrite Hid. split.
  - intros k Hk. now apply lookup_insert_ne.
  - intros _. rewrite lookup_insert_eq. eauto.
Qed.

Lemma driven_update s u t :
  driven env sessionId session0 s \/ s = session0 ->
  match u with
  | ToFailed message =>
      driven env sessionId session0 s /\ council_failed env session0 message
  | _ => True
  end ->
  driven env sessionId session0 (merged s (updates_of u) t).
Proof.
  intros Hs Hu. unfold driven.
  assert (Hid : id s = sessionId).
  { destruct Hs as [(H & _)| ->]; assumption. }
  destruct u as [? | ? ? ? | ? | message];
    cbn [merged updates_of id status progress error over to_analyzing
         to_testing to_completed to_failed u_status u_progress u_error];
    repeat split; try assumption; try discriminate; try lia.
  - destruct Hu as [(_ & _ & H & _) _]. exact H.
  - intros _. exists message. split; [reflexivity|apply Hu].
Qed.

Ltac measure :=
  cbn [fst snd remaining thrown];
  repeat (match goal with
          | |- context [match ?x with _ => _ end] => destruct x
          end; cbn [fst snd remaining thrown]);
  lia.

Lemma act_invariant state a :
  (invariant env sessionId session0) state ->
  (invariant env sessionId session0) (act env sessionId state a)
  /\ (forall k, k <> session_key sessionId ->
        redis (act env sessionId state a).2 !! k = redis state.2 !! k)
  /\ (a = Tick -> kept sessionId state.2 (act env sessionId state a).2)
  /\ (remaining (act env sessionId state a).1
      <= remaining state.1 - match a with Tick => 1 | Delete => 0 end)%nat.
Proof.
  destruct state as [stage w]. destruct a.
  2: { (* the session is deleted *)
       intros Hinv. cbn [act fst snd]. rewrite delete_review_run.
       cbn [snd].
       set (w' := {| redis := delete (session_key sessionId) (redis w);
                     clock := clock w;
                     trace := trace w ++ [Deleted (session_key sessionId)];
                     background := background w |}).
       assert (Hgone : absent sessionId w') by apply lookup_delete_eq.
       assert (Hany : forall P, stored_as sessionId P w')
         by (intros P; now apply stored_as_absent).
       split; [|split; [intros k Hk; cbn [redis]; now apply lookup_delete_ne
                       |split; [discriminate|cbn [fst]; lia]]].
       unfold invariant in *. cbn [fst snd] in *.
       destruct stage as [|[]|[]| | | | |[[]|]]; intuition auto. }
  (* the awaited command completes *)
  cbn [act]. unfold invariant. intros Hinv.
  enough (Hgoal : invariant env sessionId session0
                    (step env sessionId (stage, w))
                  /\ kept sessionId w (step env sessionId (stage, w)).2
                  /\ (remaining (step env sessionId (stage, w)).1
                      <= remaining stage - 1)%nat)
    by (destruct Hgoal as (Hi & Hk & Hr); split; [exact Hi|];
        split; [exact (proj1 Hk)|split; [intros _; exact Hk|exact Hr]]).
  unfold invariant.
  destruct stage as [|u|u updated|session|session d|d sandboxId run
                     |d sandboxId testResult|outcome];
    cbn [fst snd] in Hinv.
  - contradiction.
  - (* the read of [updateSession] *)
    destruct (redis w !! session_key sessionId) as [s|] eqn:H.
    + rewrite (step_update_read env _ _ _ _ H). cbn [fst snd].
      split; [|split; [now apply kept_same|measure]].
      destruct u as [session|session d a|r|message]; cbn [fst snd].
      * destruct Hinv as (-> & Hstored). specialize (Hstored _ H) as Hs.
        cbn beta in Hs. subst s.
        split; [reflexivity|]. split; [exact Hstored|].
        apply driven_update; [now right|exact I].
      * destruct Hinv as (Hd & Hstored).
        split; [exact Hd|]. split; [exact Hstored|].
        apply driven_update; [left; now apply Hstored|exact I].
      * split; [exact Hinv|]. split; [|reflexivity].
        apply driven_update; [left; now apply Hinv|exact I].
      * destruct Hinv as (Hstored & [Hfailed|Hgone]);
          [|unfold absent in Hgone; congruence].
        split; [exact Hstored|]. split; [|reflexivity].
        apply driven_update; [left; now apply Hstored|].
        split; [now apply Hstored|exact Hfailed].
    + rewrite (step_update_read_missing env _ _ _ H). cbn [fst snd].
      split; [|split; [now apply kept_same|measure]].
      pose proof (fun P => stored_as_absent P w H) as Hany.
      destruct u; cbn [thrown fst snd]; auto.
  - (* the write of [updateSession] *)
    assert (Hupdated : driven env sessionId session0 updated)
      by (destruct u; tauto).
    pose proof Hupdated as (Hid & _).
    destruct u as [session|session d a|r|message].
    + rewrite step_write_analyzing. cbn [fst snd].
      split; [|split; [now apply kept_written|measure]].
      split; [tauto|]. now apply stored_as_written.
    + destruct Hinv as (Hd & _).
      rewrite (step_write_testing env _ _ _ _ _ _ Hd). cbn [fst snd].
      split; [|split; [now apply kept_written|measure]].
      destruct (truthy (own_prop d "test_code")) eqn:Htruthy; cbn [fst snd].
      * split; [|now apply stored_as_written].
        destruct d; try discriminate Htruthy. eauto.
      * now apply stored_as_written.
    + rewrite step_write_completed. cbn [fst snd].
      split; [|split; [now apply kept_written|measure]].
      apply stored_as_written; tauto.
    + rewrite step_write_failed. cbn [fst snd].
      split; [|split; [now apply kept_written|measure]].
      apply stored_as_written; tauto.
  - (* the Council answers *)
    destruct Hinv as (-> & Hstored).
    rewrite step_council. cbn [fst snd].
    split; [|split; [now apply kept_same|measure]].
    unfold council_failed.
    destruct (council_api env "/council/review" (councilRequest session0))
      as [d|detail text].
    + destruct (prop (Some d) "agents") as [a|e] eqn:Ha; cbn [fst snd].
      * split; [|exact Hstored]. intros ->. discriminate.
      * split; [exact Hstored|]. left.
        destruct d; try discriminate. injection Ha as <-. auto.
    + cbn [fst snd]. split; [exact Hstored|]. now left.
  - (* the sandbox is created *)
    destruct Hinv as ((l & ->) & Hstored).
    rewrite step_sandbox_create. cbn [fst snd].
    split; [|split; [now apply kept_same|measure]].
    destruct (sandbox_api env "POST" "/sandbox/create" _) as [sandbox|? ?];
      [destruct (prop (Some sandbox) "sandbox_id")|]; cbn [fst snd]; eauto.
  - (* the tests have run *)
    destruct Hinv as ((l & ->) & Hstored).
    rewrite step_sandbox_execute. cbn [fst snd].
    split; [|split; [now apply kept_same|measure]].
    destruct (sandbox_api env "POST" _ _); cbn [fst snd]; eauto.
  - (* the sandbox is deleted *)
    destruct Hinv as ((l & ->) & Hstored).
    rewrite step_sandbox_delete. cbn [fst snd].
    split; [|split; [now apply kept_same|measure]].
    exact Hstored.
  - rewrite step_finished.
    split; [exact Hinv|split; [now apply kept_same|measure]].
Qed.

(** The invariant holds along every schedule; no schedule changes another
    (session_key sessionId); a schedule without deletion keeps the session. *)
Lemma play_invariant schedule : forall state,
  (invariant env sessionId session0) state ->
  (invariant env sessionId session0) (play env sessionId schedule state)
  /\ (forall k, k <> session_key sessionId ->
        redis (play env sessionId schedule state).2 !! k = redis state.2 !! k)
  /\ (~ In Delete schedule ->
      is_Some (redis state.2 !! session_key sessionId) ->
      is_Some (redis (play env sessionId schedule state).2
                 !! session_key sessionId))
  /\ (remaining (play env sessionId schedule state).1
      <= remaining state.1 - ticks schedule)%nat.
Proof.
  induction schedule as [|a schedule IH]; intros state Hinv.
  { repeat split; try tauto. cbn [play fold_left ticks List.filter length].
    lia. }
  rewrite play_cons.
  destruct (act_invariant state a Hinv) as (Hinv' & Hframe & Hkept & Hless).
  destruct (IH _ Hinv') as (Hend & Hframe' & Hkept' & Hless').
  split; [exact Hend|]. split; [|split].
  - intros k Hk. now rewrite Hframe', Hframe.
  - intros Hnone Hsome. apply Hkept'.
    + intros Hin. apply Hnone. now right.
    + destruct a; [|exfalso; apply Hnone; now left].
      now apply Hkept.
  - destruct a; unfold ticks in *; cbn [List.filter length] in *; lia.
Qed.

End InvariantLaws.

(** ** Every schedule *)

Section Schedules.

Variable env : Env.

Lemma launched_run req_body code' w :
  prop req_body "code" = Ok (Some code') ->
  truthy (Some code') = true ->
  launched env req_body w
  = (UpdateRead (ToAnalyzing (submitted env req_body code' w)),
     (submit env req_body w).2).
Proof.
  intros Hcode Htruthy. unfold launched. apply step_first_read.
  rewrite (submit_accepted env _ _ _ Hcode Htruthy).
  cbn [snd redis id submitted]. apply lookup_insert_eq.
Qed.

Lemma launched_invariant req_body code' w :
  prop req_body "code" = Ok (Some code') ->
  truthy (Some code') = true ->
  invariant env ("rev-" +:+ uuidv4 env (clock w))
    (submitted env req_body code' w) (launched env req_body w)
  /\ redis (launched env req_body w).2
       !! session_key ("rev-" +:+ uuidv4 env (clock w))
     = Some (submitted env req_body code' w)
  /\ forall k, k <> session_key ("rev-" +:+ uuidv4 env (clock w)) ->
       redis (launched env req_body w).2 !! k = redis w !! k.
Proof.
  intros Hcode Htruthy. rewrite (launched_run _ _ _ Hcode Htruthy).
  rewrite (submit_accepted env _ _ _ Hcode Htruthy).
  cbn [snd redis id submitted].
  assert (Hstored : forall w',
    <[session_key ("rev-" +:+ uuidv4 env (clock w))
        := submitted env req_body code' w]> (redis w')
      !! session_key ("rev-" +:+ uuidv4 env (clock w))
    = Some (submitted env req_body code' w))
    by (intros; apply lookup_insert_eq).
  split; [|split; [apply Hstored|intros k Hk; now apply lookup_insert_ne]].
  unfold invariant. cbn [fst snd]. split; [reflexivity|].
  intros s. cbn [redis]. rewrite Hstored. now intros [= <-].
Qed.

(** Once the driver is past its first write, what is stored is a value
    the driver wrote. *)
Lemma stored_once_driven sessionId session0 state :
  invariant env sessionId session0 state ->
  (remaining state.1 <= 9)%nat ->
  stored_as sessionId (driven env sessionId session0) state.2.
Proof.
  unfold invariant. destruct state as [stage w]. cbn [fst snd].
  destruct stage as [|[]|[]| | | | |[[]|]]; cbn [remaining];
    intros Hinv Hlate; try lia; try tauto.
  - intros s Hs. now apply Hinv.
  - now apply stored_as_absent.
Qed.

Lemma finished_when_no_step_remains stage :
  remaining stage = 0%nat -> exists outcome, stage = Finished outcome.
Proof. destruct stage as [|[]|[]| | | | |]; try discriminate; eauto. Qed.


Lemma act_tick sessionId state :
  act env sessionId state Tick = step env sessionId state.
Proof. reflexivity. Qed.

Lemma act_delete sessionId stage w :
  act env sessionId (stage, w) Delete
  = (stage,
     {| redis := delete (session_key sessionId) (redis w);
        clock := clock w;
        trace := trace w ++ [Deleted (session_key sessionId)];
        background := background w |}).
Proof. cbn [act fst snd]. now rewrite delete_review_run. Qed.

Lemma no_delete_in_ticks n : ~ In Delete (replicate n Tick).
Proof.
  induction n as [|n IH]; [intros []|].
  intros [Heq|Hin]; [discriminate|contradiction].
Qed.

(** C6, amended. A valid submission (a body whose [code] is truthy) is
    answered with [pending]; when [submit] answers, the session is in
    Redis with status [pending] and progress [0], that write is the only
    effect so far, and the driver, started before the answer, has made
    its first read and no write. The driver then advances on its own, and
    a status request sees the session as far as the driver has brought
    it: [pending] with progress [0] as long as the driver's first update
    has not been written (fewer than two steps after the answer),
    [analyzing] with progress [10] right after that write; from then on
    the stored session is never [pending] again and its progress is at
    least [10]. *)
Theorem status_after_submit_follows_the_driver req_body code' w :
  prop req_body "code" = Ok (Some code') ->
  truthy (Some code') = true ->
  let sessionId := "rev-" +:+ uuidv4 env (clock w) in
  let w1 := (submit env req_body w).2 in
  let polled n :=
    (play env sessionId (replicate n Tick) (launched env req_body w)).2 in
  (submit env req_body w).1
  = Ok {| http_status := 200;
          body := JObj [("session_id", JStr sessionId);
                        ("status", JStr "pending");
                        ("message", JStr "Review started")] |}
  /\ (exists session,
         redis w1 !! session_key sessionId = Some session
         /\ status session = pending
         /\ progress session = 0
         /\ trace w1 = trace w ++ [Saved session]
         /\ launched env req_body w = (UpdateRead (ToAnalyzing session), w1))
  /\ background w1 = background w ++ [sessionId]
  /\ (forall n, (n < 2)%nat ->
        get_status sessionId (polled n)
        = (Ok {| http_status := 200;
                 body := JObj [("session_id", JStr sessionId);
                               ("status", JStr "pending");
                               ("progress", JNum 0);
                               ("agents", JArr [])] |}, polled n))
  /\ get_status sessionId (polled 2%nat)
     = (Ok {| http_status := 200;
              body := JObj [("session_id", JStr sessionId);
                            ("status", JStr "analyzing");
                            ("progress", JNum 10);
                            ("agents", JArr [])] |}, polled 2%nat)
  /\ (forall n, (2 <= n)%nat ->
        exists session,
          redis (polled n) !! session_key sessionId = Some session
          /\ status session <> pending
          /\ 10 <= progress session).
Proof.
  intros Hcode Htruthy sessionId w1 polled.
  set (session := submitted env req_body code' w).
  destruct (launched_invariant _ _ w Hcode Htruthy)
    as (Hinv & Hstored & _).
  fold sessionId session in Hinv, Hstored.
  pose proof (launched_run _ _ w Hcode Htruthy) as Hlaunched.
  fold session w1 in Hlaunched.
  rewrite Hlaunched in Hstored. cbn [snd] in Hstored.
  assert (Hw1 : w1
    = {| redis := <[session_key sessionId := session]> (redis w);
         clock := S (S (S (clock w)));
         trace := trace w ++ [Saved session];
         background := background w ++ [sessionId] |}).
  { unfold w1. now rewrite (submit_accepted env _ _ _ Hcode Htruthy). }
  assert (Hpending : forall w',
    redis w' = redis w1 ->
    get_status sessionId w'
    = (Ok {| http_status := 200;
             body := JObj [("session_id", JStr sessionId);
                           ("status", JStr "pending");
                           ("progress", JNum 0);
                           ("agents", JArr [])] |}, w')).
  { intros w' Hw'. rewrite (get_status_run _ _ session);
      [reflexivity|now rewrite Hw']. }
  set (s1 := merged session to_analyzing (now env (clock w1))).
  assert (Htwo : play env sessionId (replicate 2 Tick) (launched env req_body w)
                 = (CouncilCall session,
                    log (after_update w1 s1) (started sessionId))).
  { rewrite Hlaunched.
    rewrite play_tick, (step_update_read _ _ _ _ _ Hstored).
    cbn [updates_of]. fold s1.
    now rewrite play_tick, step_write_analyzing, written_advance. }
  split; [unfold w1; now rewrite (submit_accepted env _ _ _ Hcode Htruthy)|].
  split.
  { exists session. split; [exact Hstored|].
    rewrite Hw1 at 1. cbn [trace]. auto. }
  split; [rewrite Hw1; reflexivity|].
  split.
  { intros n Hn. apply Hpending. unfold polled. rewrite Hlaunched.
    destruct n as [|[|n]]; [reflexivity| |lia].
    now rewrite play_tick, (step_update_read _ _ _ _ _ Hstored). }
  split.
  { unfold polled. rewrite Htwo. cbn [snd].
    rewrite (get_status_run _ _ s1); [reflexivity|].
    now apply lookup_after_update. }
  intros n Hn. unfold polled.
  replace n with (2 + (n - 2))%nat by lia.
  rewrite play_ticks, Htwo.
  assert (Hinv2 : invariant env sessionId session
                    (CouncilCall session,
                     log (after_update w1 s1) (started sessionId))).
  { rewrite <- Htwo.
    now apply (play_invariant env sessionId session eq_refl). }
  destruct (play_invariant env sessionId session eq_refl
              (replicate (n - 2) Tick) _ Hinv2)
    as (Hend & _ & Hpresent & Hless).
  cbn [fst remaining] in Hless.
  destruct Hpresent as [final Hfinal].
  { apply no_delete_in_ticks. }
  { cbn [snd log after_update redis]. rewrite lookup_insert_eq. eauto. }
  exists final. split; [exact Hfinal|].
  apply (stored_once_driven _ _ _ Hend) in Hfinal; [|lia].
  destruct Hfinal as (_ & Hstatus & Hprogress & _). auto.
Qed.


(** X7. Whatever the collaborators answer and whenever deletions of the
    session are served between two awaits of its driver, the promise of
    [processReview] is rejected only with "Session not found", only if a
    deletion was served, and the session is then absent; when no
    deletion is served, the driver returns normally within eleven
    steps. *)
Theorem driver_rejects_only_when_deleted req_body code' w schedule :
  prop req_body "code" = Ok (Some code') ->
  truthy (Some code') = true ->
  let sessionId := "rev-" +:+ uuidv4 env (clock w) in
  let final := play env sessionId schedule (launched env req_body w) in
  (forall message,
      final.1 = Finished (Throw message) ->
      message = "Session not found"
      /\ In Delete schedule
      /\ redis final.2 !! session_key sessionId = None)
  /\ (~ In Delete schedule -> (11 <= ticks schedule)%nat ->
      final.1 = Finished (Ok tt)).
Proof.
  intros Hcode Htruthy sessionId final.
  destruct (launched_invariant _ _ w Hcode Htruthy)
    as (Hinv & Hstored & _).
  fold sessionId in Hinv, Hstored.
  destruct (play_invariant env sessionId (submitted env req_body code' w)
              eq_refl schedule _ Hinv)
    as (Hend & _ & Hpresent & Hless).
  fold final in Hend, Hpresent, Hless.
  rewrite (launched_run _ _ w Hcode Htruthy) in Hless.
  cbn [fst remaining] in Hless.
  assert (Hthrown : forall message,
    final.1 = Finished (Throw message) ->
    message = "Session not found"
    /\ redis final.2 !! session_key sessionId = None).
  { intros message Hfinal. unfold invariant in Hend.
    rewrite Hfinal in Hend. exact Hend. }
  split.
  - intros message Hfinal.
    destruct (Hthrown _ Hfinal) as [-> Hgone].
    split; [reflexivity|]. split; [|exact Hgone].
    destruct (In_dec (fun a b : Action =>
                        ltac:(decide equality) : {a = b} + {a <> b})
                Delete schedule) as [Hin|Hnone]; [exact Hin|].
    destruct (Hpresent Hnone) as [s Hs]; [rewrite Hstored; eauto|].
    congruence.
  - intros Hnone Hticks.
    destruct (finished_when_no_step_remains final.1) as [outcome Hfinal];
      [lia|].
    destruct outcome as [[]|message]; [exact Hfinal|].
    destruct (Hthrown _ Hfinal) as [_ Hgone].
    destruct (Hpresent Hnone) as [s Hs]; [rewrite Hstored; eauto|].
    congruence.
Qed.

(** X8. Whatever the collaborators answer and whenever deletions of the
    session are served between two awaits of its driver, a submission
    and the run of its driver change no other key of the store. *)
Theorem driver_touches_its_session_only req_body code' w schedule k :
  prop req_body "code" = Ok (Some code') ->
  truthy (Some code') = true ->
  let sessionId := "rev-" +:+ uuidv4 env (clock w) in
  k <> session_key sessionId ->
  redis (play env sessionId schedule (launched env req_body w)).2 !! k
  = redis w !! k.
Proof.
  intros Hcode Htruthy sessionId Hk.
  destruct (launched_invariant _ _ w Hcode Htruthy)
    as (Hinv & _ & Hframe).
  fold sessionId in Hinv, Hframe.
  destruct (play_invariant env sessionId (submitted env req_body code' w)
              eq_refl schedule _ Hinv)
    as (_ & Hframe' & _).
  now rewrite Hframe', Hframe.
Qed.

(** X10. Whatever the collaborators answer and whenever deletions of the
    session are served between two awaits of its driver, the driver has
    finished once it has made eleven steps, and the session is then
    either still stored, in a terminal state ([completed] or [failed])
    and the driver returned normally, or it is absent and a deletion was
    served. *)
Theorem run_ends_terminal_or_deleted req_body code' w schedule :
  prop req_body "code" = Ok (Some code') ->
  truthy (Some code') = true ->
  (11 <= ticks schedule)%nat ->
  let sessionId := "rev-" +:+ uuidv4 env (clock w) in
  let final := play env sessionId schedule (launched env req_body w) in
  exists outcome,
    final.1 = Finished outcome
    /\ match redis final.2 !! session_key sessionId with
       | Some session =>
           terminal (status session) = true /\ outcome = Ok tt
       | None => In Delete schedule
       end.
Proof.
  intros Hcode Htruthy Hticks sessionId final.
  destruct (launched_invariant _ _ w Hcode Htruthy)
    as (Hinv & Hstored & _).
  fold sessionId in Hinv, Hstored.
  destruct (play_invariant env sessionId (submitted env req_body code' w)
              eq_refl schedule _ Hinv)
    as (Hend & _ & Hpresent & Hless).
  fold final in Hend, Hpresent, Hless.
  rewrite (launched_run _ _ w Hcode Htruthy) in Hless.
  cbn [fst remaining] in Hless.
  destruct (finished_when_no_step_remains final.1) as [outcome Hfinal];
    [lia|].
  exists outcome. split; [exact Hfinal|].
  unfold invariant in Hend. rewrite Hfinal in Hend.
  destruct (redis final.2 !! session_key sessionId) as [s|] eqn:Hs.
  - destruct outcome as [[]|message].
    + split; [|reflexivity]. now apply Hend.
    + destruct Hend as [_ Hgone]. unfold absent in Hgone. congruence.
  - destruct (In_dec (fun a b : Action =>
                        ltac:(decide equality) : {a = b} + {a <> b})
                Delete schedule) as [Hin|Hnone]; [exact Hin|].
    destruct (Hpresent Hnone) as [s' Hs']; [rewrite Hstored; eauto|].
    congruence.
Qed.


(** A stored session that is [failed] carries the cause of a failed
    Council call. *)
Lemma stored_failed sessionId session0 state stored :
  status session0 = pending ->
  invariant env sessionId session0 state ->
  redis state.2 !! session_key sessionId = Some stored ->
  status stored = failed ->
  exists message,
    error stored = Some message /\ council_failed env session0 message.
Proof.
  unfold invariant. destruct state as [stage w]. cbn [fst snd].
  intros Hpending Hinv Hstored Hfailed.
  assert (Hdriven : driven env sessionId session0 stored
                    -> exists message,
                         error stored = Some message
                         /\ council_failed env session0 message)
    by (intros (_ & _ & _ & H); now apply H).
  assert (Hearly : stored <> session0) by congruence.
  destruct stage as [|[]|[]| | | | |[[]|]];
    repeat match goal with H : _ /\ _ |- _ => destruct H end;
    try contradiction;
    try (unfold absent in *; congruence);
    match goal with
    | H : stored_as _ (driven _ _ _) _ |- _ => apply Hdriven; now apply H
    | H : stored_as _ (fun s => s = _) _ |- _ =>
        apply H in Hstored; contradiction
    | H : stored_as _ (fun s => driven _ _ _ s /\ _) _ |- _ =>
        apply Hdriven; now apply H
    end.
Qed.

(** X26. Whatever the sandbox service answers and whenever deletions of
    the session are served between two awaits of its driver, a stored
    session is [failed] only because of the Council: its call failed, and
    the stored cause is "Council service error: " followed by the text
    of the response's detail, or by the message of the transport when
    there is no response; or it answered [null]. *)
Theorem only_the_council_fails_a_session req_body code' w schedule stored :
  prop req_body "code" = Ok (Some code') ->
  truthy (Some code') = true ->
  let sessionId := "rev-" +:+ uuidv4 env (clock w) in
  let final := play env sessionId schedule (launched env req_body w) in
  redis final.2 !! session_key sessionId = Some stored ->
  status stored = failed ->
  is_Some (error stored)
  /\ match council_api env "/council/review"
             (councilRequest (submitted env req_body code' w)) with
     | Data d => d = JNull
     | AxiosError detail message =>
         (detail = None ->
          error stored = Some ("Council service error: " +:+ message))
         /\ (forall text,
               detail = Some (JStr text) -> text <> "" ->
               error stored = Some ("Council service error: " +:+ text))
     end.
Proof.
  intros Hcode Htruthy sessionId final Hstored Hfailed.
  destruct (launched_invariant _ _ w Hcode Htruthy) as (Hinv & _).
  fold sessionId in Hinv.
  destruct (play_invariant env sessionId (submitted env req_body code' w)
              eq_refl schedule _ Hinv) as (Hend & _).
  destruct (stored_failed sessionId (submitted env req_body code' w) _ _
              eq_refl Hend Hstored Hfailed)
    as (cause & Herror & Hcause).
  split; [rewrite Herror; eauto|].
  unfold council_failed in Hcause.
  destruct (council_api env "/council/review" _) as [d|detail message].
  - apply Hcause.
  - rewrite Herror, Hcause. unfold council_error, service_error. split.
    + now intros ->.
    + intros text -> Htext. cbn [truthy interpolate to_string].
      now destruct (String.eqb_spec text "").
Qed.

(** X14. A session deleted while its driver awaits the Council is not
    completed, not failed and not re-created: when the Council has
    answered, the next [updateSession] throws "Session not found", the
    [updateSession] of the [catch] throws it again, and the promise of
    [processReview] is rejected. The session stays absent; what was
    done for it is the write of [submit], the write of [analyzing], the
    two events that follow it and the call of the Council; no error
    event is published. *)
Theorem session_deleted_while_the_council_works req_body code' w :
  prop req_body "code" = Ok (Some code') ->
  truthy (Some code') = true ->
  let sessionId := "rev-" +:+ uuidv4 env (clock w) in
  let session := submitted env req_body code' w in
  let final :=
    play env sessionId [Tick; Tick; Delete; Tick; Tick; Tick]
      (launched env req_body w) in
  final.1 = Finished (Throw "Session not found")
  /\ redis final.2 !! session_key sessionId = None
  /\ (exists evs,
         trace final.2 = trace w ++ evs
         /\ saved_sessions sessionId evs
            = [session;
               analyzing_of session (now env (S (S (S (clock w)))))]
         /\ map p_progress (published sessionId evs) = [10; 20]
         /\ published_errors sessionId evs = []
         /\ council_calls evs
            = [("/council/review", Some (councilRequest session))])
  /\ (get_status sessionId final.2).1 = Ok not_found.
Proof.
  intros Hcode Htruthy sessionId session final. subst final.
  rewrite (launched_run _ _ w Hcode Htruthy).
  rewrite (submit_accepted env _ _ _ Hcode Htruthy).
  fold session. cbn [snd id submitted]. fold sessionId.
  set (w1 := {| redis := _; clock := _; trace := _; background := _ |}).
  assert (Hstored : redis w1 !! session_key sessionId = Some session)
    by apply lookup_insert_eq.
  set (t := now env (S (S (S (clock w))))).
  rewrite play_cons, act_tick, (step_update_read _ _ _ _ _ Hstored).
  cbn [updates_of clock w1]. fold t.
  rewrite play_cons, act_tick, step_write_analyzing.
  rewrite play_cons, act_delete. cbn [fst snd].
  rewrite play_cons, act_tick, step_council.
  set (w2 := log _ [Http Council _ _ _]).
  assert (Hgone : redis w2 !! session_key sessionId = None).
  { cbn [w2 log redis]. apply lookup_delete_eq. }
  assert (Hend : play env sessionId [Tick; Tick]
                   (match council_api env "/council/review"
                            (councilRequest session) with
                    | Data d =>
                        match prop (Some d) "agents" with
                        | Ok response_agents =>
                            UpdateRead (ToTesting session d response_agents)
                        | Throw message => UpdateRead (ToFailed message)
                        end
                    | AxiosError detail message =>
                        UpdateRead (ToFailed (council_error detail message))
                    end, w2)
                 = (Finished (Throw "Session not found"), w2)).
  { destruct (council_api env "/council/review" (councilRequest session))
      as [d|detail message];
      [destruct (prop (Some d) "agents")|];
      rewrite play_cons, act_tick, (step_update_read_missing _ _ _ _ Hgone);
      cbn [thrown];
      rewrite play_cons, act_tick;
      rewrite ?step_finished, ?(step_update_read_missing _ _ _ _ Hgone);
      reflexivity. }
  rewrite Hend. cbn [fst snd].
  split; [reflexivity|]. split; [exact Hgone|].
  split; [|now rewrite (get_status_missing _ _ Hgone)].
  eexists. split.
  { cbn [w2 log written advance w1 trace]. unfold started.
    rewrite <- !app_assoc. reflexivity. }
  cbn [app saved_sessions published published_errors council_calls map
       id merged session submitted p_progress].
  fold sessionId. rewrite !String.eqb_refl. repeat split.
Qed.

End Schedules.

(** C6, as stated, fails: the submission is valid and answered, the
    driver completes its first update before the status request is
    served, and the status request that follows the submission answers
    [analyzing] with progress 10. *)
Lemma status_right_after_submit_is_analyzing :
  (submit Scenario.no_tests Scenario.security_request Scenario.boot).1
  = Ok {| http_status := 200;
          body := JObj [("session_id", JStr Scenario.sid);
                        ("status", JStr "pending");
                        ("message", JStr "Review started")] |}
  /\ (get_status Scenario.sid
        (play Scenario.no_tests Scenario.sid [Tick; Tick]
           (launched Scenario.no_tests Scenario.security_request
              Scenario.boot)).2).1
     = Ok {| http_status := 200;
             body := JObj [("session_id", JStr Scenario.sid);
                           ("status", JStr "analyzing");
                           ("progress", JNum 10);
                           ("agents", JArr [])] |}.
Proof. split; reflexivity. Qed.

Lemma status_after_submit_follows_the_driver_witness :
  truthy (Some Scenario.source) = true
  /\ (get_status Scenario.sid
        (play Scenario.no_tests Scenario.sid (replicate 1 Tick)
           (launched Scenario.no_tests Scenario.security_request
              Scenario.boot)).2).1
     = Ok {| http_status := 200;
             body := JObj [("session_id", JStr Scenario.sid);
                           ("status", JStr "pending");
                           ("progress", JNum 0);
                           ("agents", JArr [])] |}
  /\ exists session,
       redis (play Scenario.no_tests Scenario.sid (replicate 7 Tick)
                (launched Scenario.no_tests Scenario.security_request
                   Scenario.boot)).2 !! session_key Scenario.sid
       = Some session
       /\ status session <> pending.
Proof.
  destruct (status_after_submit_follows_the_driver Scenario.no_tests
              Scenario.security_request Scenario.source Scenario.boot
              eq_refl eq_refl)
    as (_ & _ & _ & Hbefore & _ & Hafter).
  split; [reflexivity|]. split.
  - exact (f_equal fst (Hbefore 1%nat ltac:(lia))).
  - destruct (Hafter 7%nat ltac:(lia)) as (session & Hstored & Hstatus & _).
    exists session. split; assumption.
Defined.

Lemma driver_rejects_only_when_deleted_witness :
  In Delete [Tick; Tick; Delete; Tick; Tick; Tick]
  /\ redis (play Scenario.tests_pass Scenario.sid
              [Tick; Tick; Delete; Tick; Tick; Tick]
              (launched Scenario.tests_pass Scenario.security_request
                 Scenario.boot)).2 !! session_key Scenario.sid
     = None.
Proof.
  destruct (driver_rejects_only_when_deleted Scenario.tests_pass
              Scenario.security_request Scenario.source Scenario.boot
              [Tick; Tick; Delete; Tick; Tick; Tick] eq_refl eq_refl)
    as [Hrejected _].
  destruct (Hrejected "Session not found" eq_refl) as (_ & Hin & Hgone).
  split; assumption.
Defined.

Lemma driver_touches_its_session_only_witness :
  redis (play Scenario.tests_pass Scenario.sid
           [Tick; Delete; Tick; Tick; Tick]
           (launched Scenario.tests_pass Scenario.security_request
              Scenario.boot)).2 !! session_key "rev-another"
  = redis Scenario.boot !! session_key "rev-another".
Proof.
  exact (driver_touches_its_session_only Scenario.tests_pass
           Scenario.security_request Scenario.source Scenario.boot
           [Tick; Delete; Tick; Tick; Tick] (session_key "rev-another")
           eq_refl eq_refl ltac:(discriminate)).
Defined.

Lemma run_ends_terminal_or_deleted_witness :
  exists outcome,
    (play Scenario.tests_time_out Scenario.sid (replicate 11 Tick)
       (launched Scenario.tests_time_out Scenario.security_request
          Scenario.boot)).1 = Finished outcome.
Proof.
  destruct (run_ends_terminal_or_deleted Scenario.tests_time_out
              Scenario.security_request Scenario.source Scenario.boot
              (replicate 11 Tick) eq_refl eq_refl ltac:(vm_compute; lia))
    as (outcome & Hfinal & _).
  exists outcome. exact Hfinal.
Defined.

Lemma session_deleted_while_the_council_works_witness :
  (play Scenario.tests_pass Scenario.sid
     [Tick; Tick; Delete; Tick; Tick; Tick]
     (launched Scenario.tests_pass Scenario.security_request
        Scenario.boot)).1
  = Finished (Throw "Session not found").
Proof.
  exact (proj1 (session_deleted_while_the_council_works Scenario.tests_pass
                  Scenario.security_request Scenario.source Scenario.boot
                  eq_refl eq_refl)).
Defined.

Lemma only_the_council_fails_a_session_witness :
  exists stored,
    redis (play Probe.council_down Scenario.sid (replicate 11 Tick)
             (launched Probe.council_down Scenario.security_request
                Scenario.boot)).2 !! session_key Scenario.sid
    = Some stored
    /\ status stored = failed
    /\ error stored
       = Some ("Council service error: " +:+ "timeout of 120000ms exceeded").
Proof.
  exists (failed_of (Probe.submitted_session Probe.council_down)
            "Council service error: timeout of 120000ms exceeded"
            (Scenario.iso 3) (Scenario.iso 4)).
  split; [reflexivity|]. split; [reflexivity|].
  destruct (only_the_council_fails_a_session Probe.council_down
              Scenario.security_request Scenario.source Scenario.boot
              (replicate 11 Tick)
              (failed_of (Probe.submitted_session Probe.council_down)
                 "Council service error: timeout of 120000ms exceeded"
                 (Scenario.iso 3) (Scenario.iso 4))
              eq_refl eq_refl eq_refl eq_refl)
    as (_ & Hcause & _).
  exact (Hcause eq_refl).
Defined.
